(** * simpleperf [stat]: counter aggregation, summary synthesis and rendering

    A shallow embedding of [simpleperf/cmd_stat.cpp].  Unsigned 64-bit
    counters are integers in [Z] with their wrap-around written out;
    [double] values are IEEE 754 binary64 numbers, taken from the bit-level
    specification of the standard library ([spec_float] with a 53-bit
    mantissa and [emax = 1024]); [std::string] is [string]. *)

From Stdlib Require Import ZArith Lia List Bool String Ascii DecimalString.
From Stdlib Require Import Floats.SpecFloat.
Import ListNotations.
Open Scope string_scope.
Open Scope Z_scope.

(** ** Machine integers *)

(** The decimal digits of a natural number. *)
Definition decimal (n : Z) : string :=
  NilZero.string_of_uint (N.to_uint (Z.to_N n)).

Module U64.
Definition modulus : Z := 2 ^ 64.
Definition wrap (z : Z) : Z := z mod modulus.
(** [a + b] on [uint64_t]. *)
Definition add (a b : Z) : Z := wrap (a + b).
Definition in_range (z : Z) : Prop := 0 <= z < modulus.
(** [StringPrintf("%" PRIu64, n)]. *)
Definition to_string (n : Z) : string := decimal n.
End U64.

(** ** Binary64 arithmetic *)

Module Double.
Definition prec : Z := 53.
Definition emax : Z := 1024.
Definition double := spec_float.

Definition div : double -> double -> double := SFdiv prec emax.
Definition mul : double -> double -> double := SFmul prec emax.
Definition sub : double -> double -> double := SFsub prec emax.
Definition fabs : double -> double := SFabs.
Definition ltb : double -> double -> bool := SFltb.
Definition leb : double -> double -> bool := SFleb.
Definition eqb : double -> double -> bool := SFeqb.
(** [x > y] is [y < x]; false as soon as one side is a NaN. *)
Definition gtb (x y : double) : bool := SFltb y x.

(** Conversion of an integer, rounding to nearest, ties to even:
    [static_cast<double>(n)] and the implicit conversions of [uint64_t]
    operands in mixed arithmetic. *)
Definition of_Z (z : Z) : double := binary_normalize prec emax z 0 false.

Definition one : double := of_Z 1.
(** The literals [1e3], [1e6] and [1e9] are integers below [2^53]; [1e-5]
    is the binary64 number nearest to [1/100000], which is what the
    correctly rounded quotient of the two exact operands gives. *)
Definition c1e3 : double := of_Z 1000.
Definition c1e6 : double := of_Z 1000000.
Definition c1e9 : double := of_Z 1000000000.
Definition c100 : double := of_Z 100.
Definition c1em5 : double := div one (of_Z 100000).

(** [printf("%.<p>lf", x)]: the exact binary value rounded to [p] decimal
    places, ties to even.  A NaN prints as [nan]; its sign bit, which
    [spec_float] does not keep, is left out. *)
Definition round_half_even (num den : Z) : Z :=
  let q := num / den in
  let r := num mod den in
  match 2 * r ?= den with
  | Lt => q
  | Gt => q + 1
  | Eq => if Z.even q then q else q + 1
  end.

Definition scaled_digits (p : nat) (m : positive) (e : Z) : Z :=
  let k := 10 ^ Z.of_nat p in
  if 0 <=? e then Z.pos m * 2 ^ e * k
  else round_half_even (Z.pos m * k) (2 ^ (- e)).

Fixpoint zeros (n : nat) : string :=
  match n with
  | O => ""
  | S n' => "0" ++ zeros n'
  end.

Definition pad_left (w : nat) (s : string) : string :=
  zeros (w - String.length s) ++ s.

Definition fixed_digits (p : nat) (n : Z) : string :=
  let k := 10 ^ Z.of_nat p in
  let ip := decimal (n / k) in
  match p with
  | O => ip
  | _ => ip ++ "." ++ pad_left p (decimal (n mod k))
  end.

Definition sign_prefix (s : bool) : string := if s then "-" else "".

Definition format_f (p : nat) (x : double) : string :=
  match x with
  | S754_nan => "nan"
  | S754_infinity s => sign_prefix s ++ "inf"
  | S754_zero s => sign_prefix s ++ fixed_digits p 0
  | S754_finite s m e => sign_prefix s ++ fixed_digits p (scaled_digits p m e)
  end.
End Double.

Import Double.

(** ** Rounding, as the proofs about binary64 read it

    These definitions describe what [binary_round_aux] computes on positive
    numbers in the normal range; the lemmas of the second part relate them
    to the operations above. *)

(** The round and sticky bits a location stands for. *)
Definition loc_bits (l : location) : bool * bool :=
  match l with
  | loc_Exact => (false, false)
  | loc_Inexact Lt => (false, true)
  | loc_Inexact Eq => (true, false)
  | loc_Inexact Gt => (true, true)
  end.

(** Rounding to nearest, ties to even, of a mantissa with the two bits below it. *)
Definition round_bits (m : Z) (r s : bool) : Z :=
  if r && (s || Z.odd m) then m + 1 else m.

(** The mantissa [m], whose tail is described by [l], with its [k] low bits
    dropped and the result rounded. *)
Definition drop_bits (k m : Z) (l : location) : Z :=
  let (r, s) := loc_bits l in
  if k =? 0 then round_bits m r s
  else round_bits (m / 2 ^ k) (Z.odd (m / 2 ^ (k - 1)))
         (negb (m mod 2 ^ (k - 1) =? 0) || (r || s)).

(** The number with mantissa [m1] in [[2^52, 2^53]] and exponent [e]; a
    mantissa of [2^53] is carried into the exponent. *)
Definition normal (m1 e : Z) : double :=
  if m1 =? 2 ^ 53 then S754_finite false (Z.to_pos (2 ^ 52)) (e + 1)
  else S754_finite false (Z.to_pos m1) e.

(** Positive normal numbers are ordered as the integers [ord] gives them. *)
Definition ord (x : double) : Z :=
  match x with
  | S754_finite false m e => e * 2 ^ 52 + Z.pos m
  | _ => 0
  end.

(** A positive number with a full mantissa and an exponent within [b]. *)
Definition normalized (b : Z) (x : double) : Prop :=
  exists m e, x = S754_finite false m e /\ 2 ^ 52 <= Z.pos m < 2 ^ 53 /\ - b <= e <= b.

(** ** Counter summaries *)

(** [struct CounterSummary]. *)
Record CounterSummary := {
  type_name : string;
  modifier : string;
  group_id : Z;
  count : Z;
  scale : double;
  readable_count : string;
  comment : string;
  auto_generated : bool
}.

(** [s.insert(s.begin() + i, c)]. *)
Definition insert_at (i : nat) (c : ascii) (s : list ascii) : list ascii :=
  (firstn i s ++ c :: skipn i s)%list.

(** The grouping loop of [ReadableCountValue]:
    [for (i = s.size() - 1, j = 1; i > 0; --i, ++j)
       if (j == 3) { s.insert(s.begin() + i, ','); j = 0; }]. *)
Fixpoint comma_loop (i j : nat) (s : list ascii) : list ascii :=
  match i with
  | O => s
  | S i' =>
      if (j =? 3)%nat then comma_loop i' 1%nat (insert_at i "," s)
      else comma_loop i' (S j) s
  end.

Definition is_clock (name : string) : bool :=
  (name =? "cpu-clock")%string || (name =? "task-clock")%string.

(** [CounterSummary::ReadableCountValue]. *)
Definition ReadableCountValue (type_name : string) (count : Z) (csv : bool) : string :=
  if is_clock type_name then
    let value := div (of_Z count) c1e6 in
    format_f 6 value ++ "(ms)"
  else
    let s := U64.to_string count in
    if csv then s
    else
      let l := list_ascii_of_string s in
      string_of_list_ascii (comma_loop (List.length l - 1) 1 l).

(** The grouping the specification describes, read from the least
    significant digit: after every third digit that is followed by another
    digit, a separator. *)
Fixpoint group_from_low (r : list ascii) : list ascii :=
  match r with
  | a :: b :: c :: ((_ :: _) as r') => a :: b :: c :: ","%char :: group_from_low r'
  | _ => r
  end.

Definition group_thousands (s : string) : string :=
  string_of_list_ascii (rev (group_from_low (rev (list_ascii_of_string s)))).

(** The constructor: every field from its argument, [readable_count]
    computed, [comment] left empty. *)
Definition mkCounterSummary (type_name modifier : string) (group_id count : Z)
    (scale : double) (auto_generated csv : bool) : CounterSummary :=
  {| type_name := type_name;
     modifier := modifier;
     group_id := group_id;
     count := count;
     scale := scale;
     readable_count := ReadableCountValue type_name count csv;
     comment := "";
     auto_generated := auto_generated |}.

(** [CounterSummary::IsMonitoredAllTheTime]:
    [fabs(scale - 1.0) < SCALE_ERROR_LIMIT]. *)
Definition IsMonitoredAllTheTime (s : CounterSummary) : bool :=
  ltb (fabs (sub (scale s) one)) c1em5.

(** [CounterSummary::IsMonitoredAtTheSameTime]. *)
Definition IsMonitoredAtTheSameTime (s other : CounterSummary) : bool :=
  if group_id s =? group_id other then true
  else IsMonitoredAllTheTime s && IsMonitoredAllTheTime other.

(** [CounterSummary::Name]. *)
Definition Name (s : CounterSummary) : string :=
  if (modifier s =? "")%string then type_name s
  else type_name s ++ ":" ++ modifier s.

(** ** The summary collection, [class CounterSummaries] *)

Record CounterSummaries := {
  summaries_ : list CounterSummary;
  csv_ : bool
}.

Definition AddSummary (cs : CounterSummaries) (summary : CounterSummary) : CounterSummaries :=
  {| summaries_ := (summaries_ cs ++ [summary])%list; csv_ := csv_ cs |}.

(** [FindSummary]: the first summary with that name and modifier. *)
Definition FindSummary (cs : CounterSummaries) (name mod_ : string) : option CounterSummary :=
  find (fun s => (type_name s =? name)%string && (modifier s =? mod_)%string)
       (summaries_ cs).

(** The summary [AutoGenerateSummaries] builds from a user-space summary [s]
    and the kernel-space summary [other] of the same event. *)
Definition combined_summary (csv : bool) (s other : CounterSummary) : CounterSummary :=
  mkCounterSummary (type_name s) "" (group_id s)
    (U64.add (count s) (count other)) (scale s) true csv.

(** One iteration of the loop of [AutoGenerateSummaries], at [s = summaries_[i]]. *)
Definition AutoGenerate_body (cs : CounterSummaries) (s : CounterSummary) : CounterSummaries :=
  if (modifier s =? "u")%string then
    match FindSummary cs (type_name s) "k" with
    | Some other =>
        if IsMonitoredAtTheSameTime other s then
          match FindSummary cs (type_name s) "" with
          | None => AddSummary cs (combined_summary (csv_ cs) s other)
          | Some _ => cs
          end
        else cs
    | None => cs
    end
  else cs.

(** The collection with the summaries [ext] appended, one [AddSummary] each. *)
Definition extend (cs : CounterSummaries) (ext : list CounterSummary) : CounterSummaries :=
  {| summaries_ := (summaries_ cs ++ ext)%list; csv_ := csv_ cs |}.

(** [for (size_t i = 0; i < summaries_.size(); ++i)]: the bound is read again
    at every iteration, so summaries appended by the body are visited too. *)
Fixpoint AutoGenerate_loop (fuel i : nat) (cs : CounterSummaries) : option CounterSummaries :=
  match fuel with
  | O => None
  | S fuel' =>
      match nth_error (summaries_ cs) i with
      | None => Some cs
      | Some s => AutoGenerate_loop fuel' (S i) (AutoGenerate_body cs s)
      end
  end.

(** [CounterSummaries::AutoGenerateSummaries]; the loop is run with fuel for
    twice the initial size plus its exit test, which [AutoGenerate_terminates]
    shows is always enough. *)
Definition AutoGenerateSummaries (cs : CounterSummaries) : option CounterSummaries :=
  AutoGenerate_loop (2 * List.length (summaries_ cs) + 1) 0 cs.

(** [android::base::EndsWith]. *)
Definition EndsWith (s suffix : string) : bool :=
  let n := String.length s in
  let k := String.length suffix in
  (k <=? n)%nat && (substring (n - k) k s =? suffix)%string.

(** The reference event paired with a [-misses] event. *)
Definition misses_other_name (name : string) : string :=
  if (name =? "cache-misses")%string then "cache-references"
  else if (name =? "branch-misses")%string then "branch-instructions"
  else substring 0 (String.length name - String.length "-misses") name ++ "s".

(** The last part of [GetCommentForSummary]: the raw rate with its unit. *)
Definition rate_comment (sap_mid : ascii) (rate : double) : string :=
  if gtb rate c1e9 then format_f 3 (div rate c1e9) ++ String sap_mid "G/sec"
  else if gtb rate c1e6 then format_f 3 (div rate c1e6) ++ String sap_mid "M/sec"
  else if gtb rate c1e3 then format_f 3 (div rate c1e3) ++ String sap_mid "K/sec"
  else format_f 3 rate ++ String sap_mid "/sec".

(** The rule for the [-misses] events; [None] when control falls through to
    the rate. *)
Definition miss_rate_comment (cs : CounterSummaries) (sap_mid : ascii)
    (s : CounterSummary) : option string :=
  if EndsWith (type_name s) "-misses" then
    match FindSummary cs (misses_other_name (type_name s)) (modifier s) with
    | Some other =>
        if IsMonitoredAtTheSameTime other s && negb (count other =? 0) then
          let miss_rate := div (of_Z (count s)) (of_Z (count other)) in
          Some (format_f 6 (mul miss_rate c100) ++ "%" ++ String sap_mid "miss rate")
        else None
    | None => None
    end
  else None.

(** The rule for [instructions]; [None] when control falls through to the
    rules after it. *)
Definition cpi_comment (cs : CounterSummaries) (sap_mid : ascii)
    (s : CounterSummary) : option string :=
  if (type_name s =? "instructions")%string && negb (count s =? 0) then
    match FindSummary cs "cpu-cycles" (modifier s) with
    | Some other =>
        if IsMonitoredAtTheSameTime other s then
          let cpi := div (of_Z (count other)) (of_Z (count s)) in
          Some (format_f 6 cpi ++ String sap_mid "cycles per instruction")
        else None
    | None => None
    end
  else None.

(** [CounterSummaries::GetCommentForSummary]. *)
Definition GetCommentForSummary (cs : CounterSummaries) (s : CounterSummary)
    (duration_in_sec : double) : string :=
  let sap_mid : ascii := (if csv_ cs then "," else " ")%char in
  if (type_name s =? "task-clock")%string then
    let run_sec := div (of_Z (count s)) c1e9 in
    let used_cpus := div run_sec (div duration_in_sec (scale s)) in
    format_f 6 used_cpus ++ String sap_mid "cpus used"
  else if (type_name s =? "cpu-clock")%string then ""
  else if (type_name s =? "cpu-cycles")%string then
    let hz := div (of_Z (count s)) (div duration_in_sec (scale s)) in
    format_f 6 (div hz c1e9) ++ String sap_mid "GHz"
  else
    match cpi_comment cs sap_mid s with
    | Some c => c
    | None =>
        match miss_rate_comment cs sap_mid s with
        | Some c => c
        | None =>
            let rate := div (of_Z (count s)) (div duration_in_sec (scale s)) in
            rate_comment sap_mid rate
        end
    end.

Definition set_comment (s : CounterSummary) (c : string) : CounterSummary :=
  {| type_name := type_name s;
     modifier := modifier s;
     group_id := group_id s;
     count := count s;
     scale := scale s;
     readable_count := readable_count s;
     comment := c;
     auto_generated := auto_generated s |}.

(** [CounterSummaries::GenerateComments].  A comment is computed from names,
    modifiers, groups, counts and scales only, which the loop never changes,
    so every summary sees the collection as it was on entry. *)
Definition GenerateComments (cs : CounterSummaries) (duration_in_sec : double) : CounterSummaries :=
  {| summaries_ :=
       map (fun s => set_comment s (GetCommentForSummary cs s duration_in_sec))
           (summaries_ cs);
     csv_ := csv_ cs |}.

(** ** Aggregation of the readouts, [StatCommand::ShowCounters] *)

(** The readout types of [event_selection_set.h], with the fields the
    command reads. *)
Record PerfCounter := {
  value : Z;
  time_enabled : Z;
  time_running : Z;
  counter_id : Z
}.

Record CounterInfo := {
  tid : Z;
  cpu : Z;
  counter : PerfCounter
}.

Record EventSelection := {
  event_name : string;
  event_modifier : string;
  selection_group_id : Z
}.

Record CountersInfo := {
  selection : EventSelection;
  counters : list CounterInfo
}.

(** The three running sums of the inner loop. *)
Record Sums := {
  value_sum : Z;
  time_enabled_sum : Z;
  time_running_sum : Z
}.

Definition zero_sums : Sums :=
  {| value_sum := 0; time_enabled_sum := 0; time_running_sum := 0 |}.

(** The body of the inner loop: a readout that never ran is skipped. *)
Definition sum_step (acc : Sums) (counter_info : CounterInfo) : Sums :=
  let c := counter counter_info in
  if negb (time_running c =? 0) then
    {| value_sum := U64.add (value_sum acc) (value c);
       time_enabled_sum := U64.add (time_enabled_sum acc) (time_enabled c);
       time_running_sum := U64.add (time_running_sum acc) (time_running c) |}
  else acc.

Definition sum_counters (l : list CounterInfo) : Sums :=
  fold_left sum_step l zero_sums.

(** [scale = 1.0; if (running < enabled && running != 0) scale = enabled / running]. *)
Definition compute_scale (sums : Sums) : double :=
  if (time_running_sum sums <? time_enabled_sum sums)
     && negb (time_running_sum sums =? 0)
  then div (of_Z (time_enabled_sum sums)) (of_Z (time_running_sum sums))
  else one.

(** The summary added for one selection. *)
Definition summarize (csv : bool) (counters_info : CountersInfo) : CounterSummary :=
  let sums := sum_counters (counters counters_info) in
  mkCounterSummary (event_name (selection counters_info))
    (event_modifier (selection counters_info))
    (selection_group_id (selection counters_info))
    (value_sum sums) (compute_scale sums) false csv.

Definition build_summaries (csv : bool) (counters : list CountersInfo) : CounterSummaries :=
  fold_left (fun cs counters_info => AddSummary cs (summarize csv counters_info))
    counters {| summaries_ := []; csv_ := csv |}.

(** The summaries [ShowCounters] hands to [Show]. *)
Definition ShowCounters_summaries (csv : bool) (counters : list CountersInfo)
    (duration_in_sec : double) : option CounterSummaries :=
  match AutoGenerateSummaries (build_summaries csv counters) with
  | Some cs => Some (GenerateComments cs duration_in_sec)
  | None => None
  end.

(** The sums the specification speaks of, over the readouts that ran. *)
Definition included (l : list CounterInfo) : list CounterInfo :=
  filter (fun c => negb (time_running (counter c) =? 0)) l.

Definition sum_field (f : PerfCounter -> Z) (l : list CounterInfo) : Z :=
  fold_left (fun acc c => U64.add acc (f (counter c))) l 0.

(** ** Option parsing and target resolution, [StatCommand::ParseOptions] *)

(** Why [ParseOptions] returns [false]; each constructor is one of its
    [return false] statements, with the diagnostic it logs. *)
Inductive ParseError :=
  | MissingArgument (option_name : string)
  | InvalidDuration (arg : string)
  | BadEventType (arg : string)
  | BadThreadList (arg : string)
  | UnknownOption (arg : string)
  | SystemWideWithThreads
  | SystemWideNeedsRoot
  | DurationWithCommand.

Section ParseOptions.
Set Implicit Arguments.
(** The collaborators of the other translation units. *)
Variable EventSelectionSet : Type.
Variable AddEventType : EventSelectionSet -> string -> option EventSelectionSet.
Variable AddEventGroup : EventSelectionSet -> list string -> option EventSelectionSet.
Variable GetCpusFromString : string -> list Z.
(** Both thread parsers add the ids they accept to the set they are given. *)
Variable GetValidThreadsFromProcessString : string -> list Z -> option (list Z).
Variable GetValidThreadsFromThreadString : string -> list Z -> option (list Z).
Variable IsRoot : bool.
Variable Split : string -> list string.
(** [strtod]: the value, and whether the whole argument was consumed
    without a range error. *)
Variable strtod : string -> double * bool.

(** The members of [StatCommand] that option parsing writes. *)
Record StatCommand := {
  verbose_mode_ : bool;
  system_wide_collection_ : bool;
  child_inherit_ : bool;
  monitored_threads_ : list Z;
  cpus_ : list Z;
  event_selection_set_ : EventSelectionSet;
  output_filename_ : string;
  stat_csv_ : bool
}.

(** The command and the two locals of [ParseOptions]. *)
Record ParseState := {
  cmd : StatCommand;
  tid_set : list Z;
  duration_in_sec : double
}.

Definition with_cmd (st : ParseState) (c : StatCommand) : ParseState :=
  {| cmd := c; tid_set := tid_set st; duration_in_sec := duration_in_sec st |}.

Definition set_system_wide (c : StatCommand) : StatCommand :=
  {| verbose_mode_ := verbose_mode_ c; system_wide_collection_ := true;
     child_inherit_ := child_inherit_ c; monitored_threads_ := monitored_threads_ c;
     cpus_ := cpus_ c; event_selection_set_ := event_selection_set_ c;
     output_filename_ := output_filename_ c; stat_csv_ := stat_csv_ c |}.

Definition set_cpus (c : StatCommand) (l : list Z) : StatCommand :=
  {| verbose_mode_ := verbose_mode_ c;
     system_wide_collection_ := system_wide_collection_ c;
     child_inherit_ := child_inherit_ c; monitored_threads_ := monitored_threads_ c;
     cpus_ := l; event_selection_set_ := event_selection_set_ c;
     output_filename_ := output_filename_ c; stat_csv_ := stat_csv_ c |}.

Definition set_csv (c : StatCommand) : StatCommand :=
  {| verbose_mode_ := verbose_mode_ c;
     system_wide_collection_ := system_wide_collection_ c;
     child_inherit_ := child_inherit_ c; monitored_threads_ := monitored_threads_ c;
     cpus_ := cpus_ c; event_selection_set_ := event_selection_set_ c;
     output_filename_ := output_filename_ c; stat_csv_ := true |}.

Definition set_events (c : StatCommand) (e : EventSelectionSet) : StatCommand :=
  {| verbose_mode_ := verbose_mode_ c;
     system_wide_collection_ := system_wide_collection_ c;
     child_inherit_ := child_inherit_ c; monitored_threads_ := monitored_threads_ c;
     cpus_ := cpus_ c; event_selection_set_ := e;
     output_filename_ := output_filename_ c; stat_csv_ := stat_csv_ c |}.

Definition set_no_inherit (c : StatCommand) : StatCommand :=
  {| verbose_mode_ := verbose_mode_ c;
     system_wide_collection_ := system_wide_collection_ c;
     child_inherit_ := false; monitored_threads_ := monitored_threads_ c;
     cpus_ := cpus_ c; event_selection_set_ := event_selection_set_ c;
     output_filename_ := output_filename_ c; stat_csv_ := stat_csv_ c |}.

Definition set_output (c : StatCommand) (f : string) : StatCommand :=
  {| verbose_mode_ := verbose_mode_ c;
     system_wide_collection_ := system_wide_collection_ c;
     child_inherit_ := child_inherit_ c; monitored_threads_ := monitored_threads_ c;
     cpus_ := cpus_ c; event_selection_set_ := event_selection_set_ c;
     output_filename_ := f; stat_csv_ := stat_csv_ c |}.

Definition set_verbose (c : StatCommand) : StatCommand :=
  {| verbose_mode_ := true;
     system_wide_collection_ := system_wide_collection_ c;
     child_inherit_ := child_inherit_ c; monitored_threads_ := monitored_threads_ c;
     cpus_ := cpus_ c; event_selection_set_ := event_selection_set_ c;
     output_filename_ := output_filename_ c; stat_csv_ := stat_csv_ c |}.

Definition set_threads (c : StatCommand) (l : list Z) : StatCommand :=
  {| verbose_mode_ := verbose_mode_ c;
     system_wide_collection_ := system_wide_collection_ c;
     child_inherit_ := child_inherit_ c; monitored_threads_ := l;
     cpus_ := cpus_ c; event_selection_set_ := event_selection_set_ c;
     output_filename_ := output_filename_ c; stat_csv_ := stat_csv_ c |}.

Definition set_tid_set (st : ParseState) (l : list Z) : ParseState :=
  {| cmd := cmd st; tid_set := l; duration_in_sec := duration_in_sec st |}.

Definition set_duration (st : ParseState) (d : double) : ParseState :=
  {| cmd := cmd st; tid_set := tid_set st; duration_in_sec := d |}.

(** [for (auto& event_type : event_types) if (!AddEventType(event_type)) return false;] *)
Fixpoint add_event_types (e : EventSelectionSet) (l : list string) : option EventSelectionSet :=
  match l with
  | [] => Some e
  | t :: l' =>
      match AddEventType e t with
      | Some e' => add_event_types e' l'
      | None => None
      end
  end.

(** The loop test [args[i].size() > 0 && args[i][0] == '-']. *)
Definition is_option (a : string) : bool :=
  match a with
  | String c _ => Ascii.eqb c "-"
  | EmptyString => false
  end.

(** [duration_in_sec <= 0 || *endptr != '\0' || errno == ERANGE]. *)
Definition bad_duration (r : double * bool) : bool :=
  leb (fst r) (S754_zero false) || negb (snd r).

(** The option loop.  The result is the state when the loop is left and
    the arguments from index [i] on.

    Modelled from the spec: [NextArgumentOrError] of [command.h] is not in
    the source given; a missing required argument is reported and aborts
    with failure, otherwise the index moves on to the argument. *)
Fixpoint scan_options (args : list string) (st : ParseState)
    : ParseError + (ParseState * list string) :=
  match args with
  | [] => inr (st, [])
  | a :: rest =>
      if negb (is_option a) then inr (st, args)
      else if (a =? "-a")%string then
        scan_options rest (with_cmd st (set_system_wide (cmd st)))
      else if (a =? "--cpu")%string then
        match rest with
        | [] => inl (MissingArgument a)
        | v :: rest' =>
            scan_options rest' (with_cmd st (set_cpus (cmd st) (GetCpusFromString v)))
        end
      else if (a =? "--csv")%string then
        scan_options rest (with_cmd st (set_csv (cmd st)))
      else if (a =? "--duration")%string then
        match rest with
        | [] => inl (MissingArgument a)
        | v :: rest' =>
            if bad_duration (strtod v) then inl (InvalidDuration v)
            else scan_options rest' (set_duration st (fst (strtod v)))
        end
      else if (a =? "-e")%string then
        match rest with
        | [] => inl (MissingArgument a)
        | v :: rest' =>
            match add_event_types (event_selection_set_ (cmd st)) (Split v) with
            | Some e => scan_options rest' (with_cmd st (set_events (cmd st) e))
            | None => inl (BadEventType v)
            end
        end
      else if (a =? "--group")%string then
        match rest with
        | [] => inl (MissingArgument a)
        | v :: rest' =>
            match AddEventGroup (event_selection_set_ (cmd st)) (Split v) with
            | Some e => scan_options rest' (with_cmd st (set_events (cmd st) e))
            | None => inl (BadEventType v)
            end
        end
      else if (a =? "--no-inherit")%string then
        scan_options rest (with_cmd st (set_no_inherit (cmd st)))
      else if (a =? "-o")%string then
        match rest with
        | [] => inl (MissingArgument a)
        | v :: rest' => scan_options rest' (with_cmd st (set_output (cmd st) v))
        end
      else if (a =? "-p")%string then
        match rest with
        | [] => inl (MissingArgument a)
        | v :: rest' =>
            match GetValidThreadsFromProcessString v (tid_set st) with
            | Some l => scan_options rest' (set_tid_set st l)
            | None => inl (BadThreadList v)
            end
        end
      else if (a =? "-t")%string then
        match rest with
        | [] => inl (MissingArgument a)
        | v :: rest' =>
            match GetValidThreadsFromThreadString v (tid_set st) with
            | Some l => scan_options rest' (set_tid_set st l)
            | None => inl (BadThreadList v)
            end
        end
      else if (a =? "--verbose")%string then
        scan_options rest (with_cmd st (set_verbose (cmd st)))
      else inl (UnknownOption a)
  end.

(** Lines 476 to 486: the threads of the set are appended to
    [monitored_threads_], then the two target checks. *)
Definition resolve_target (st : ParseState) : ParseError + StatCommand :=
  let c := set_threads (cmd st) (monitored_threads_ (cmd st) ++ tid_set st)%list in
  if system_wide_collection_ c && negb (Nat.eqb (List.length (monitored_threads_ c)) 0)
  then inl SystemWideWithThreads
  else if system_wide_collection_ c && negb IsRoot
  then inl SystemWideNeedsRoot
  else inr c.

(** Lines 488 to 502: the workload arguments, and [--duration] turned into
    a [sleep] workload. *)
Definition workload_args (d : double) (rest : list string) : ParseError + list string :=
  if negb (eqb d (S754_zero false)) then
    match rest with
    | [] => inr ["sleep"; format_f 6 d]
    | _ :: _ => inl DurationWithCommand
    end
  else inr rest.

Definition initial_parse_state (c : StatCommand) : ParseState :=
  {| cmd := c; tid_set := []; duration_in_sec := S754_zero false |}.

(** [StatCommand::ParseOptions]: the command after parsing and
    [*non_option_args], or the reason for [return false]. *)
Definition ParseOptions (c : StatCommand) (args : list string)
    : ParseError + (StatCommand * list string) :=
  match scan_options args (initial_parse_state c) with
  | inl e => inl e
  | inr (st, rest) =>
      match resolve_target st with
      | inl e => inl e
      | inr c' =>
          match workload_args (duration_in_sec st) rest with
          | inl e => inl e
          | inr w => inr (c', w)
          end
      end
  end.
End ParseOptions.
Unset Implicit Arguments.

(** ** The measurement window, [StatCommand::Run] steps 4 and 5 *)

Module Window.
(** Where the control thread is. *)
Inductive Stage :=
  | LoopTest          (* about to evaluate [!signaled] *)
  | Sleeping          (* inside [sleep(1)] *)
  | ReadStage         (* the loop is left: [ReadCounters] comes next *)
  | ShowStage         (* [ShowCounters] comes next *)
  | Returned (ok : bool).

Record State := {
  stage : Stage;
  signaled : bool
}.

(** What can happen next: the control thread advances, or a termination
    signal is delivered and [signal_handler] runs. *)
Inductive Event := Advance | Signal.

Section Run.
(** The outcomes of the two collaborators of step 5. *)
Variables read_ok show_ok : bool.

Definition advance (st : State) : State :=
  match stage st with
  | LoopTest =>
      if signaled st then {| stage := ReadStage; signaled := signaled st |}
      else {| stage := Sleeping; signaled := signaled st |}
  | Sleeping => {| stage := LoopTest; signaled := signaled st |}
  | ReadStage =>
      if read_ok then {| stage := ShowStage; signaled := signaled st |}
      else {| stage := Returned false; signaled := signaled st |}
  | ShowStage => {| stage := Returned show_ok; signaled := signaled st |}
  | Returned b => st
  end.

(** [signal_handler]: [signaled = true]; a sleeping thread is woken. *)
Definition deliver (st : State) : State :=
  {| stage := match stage st with Sleeping => LoopTest | s => s end;
     signaled := true |}.

Definition step (st : State) (ev : Event) : State :=
  match ev with
  | Advance => advance st
  | Signal => deliver st
  end.

Definition run (evs : list Event) (st : State) : State :=
  fold_left step evs st.
End Run.

(** The constructor of [StatCommand] clears the flag; the window opens at
    the loop test. *)
Definition window_open : State := {| stage := LoopTest; signaled := false |}.

Definition in_loop (st : State) : bool :=
  match stage st with
  | LoopTest | Sleeping => true
  | _ => false
  end.

(** The counter-read and report stage and everything after it. *)
Definition past_loop (st : State) : bool := negb (in_loop st).

Definition is_signal (ev : Event) : bool :=
  match ev with Signal => true | Advance => false end.

(** The invariant of the loop: it is left only with the flag set. *)
Definition blocked (st : State) : Prop :=
  signaled st = false -> in_loop st = true.
End Window.


(** ** Sample inputs *)

Module Sample.
(** [branch-misses:u] and [branch-misses:k], counted in one group. *)
Definition misses_user : CounterSummary :=
  mkCounterSummary "branch-misses" "u" 1 30 one false false.
Definition misses_kernel : CounterSummary :=
  mkCounterSummary "branch-misses" "k" 1 20 one false false.
Definition split_misses : CounterSummaries :=
  {| summaries_ := [misses_user; misses_kernel]; csv_ := false |}.

(** [branch-misses] and [branch-instructions], counted in one group. *)
Definition misses : CounterSummary :=
  mkCounterSummary "branch-misses" "" 2 50 one false false.
Definition branches : CounterSummary :=
  mkCounterSummary "branch-instructions" "" 2 1000 one false false.
Definition branch_pair (csv : bool) : CounterSummaries :=
  {| summaries_ := [branches; misses]; csv_ := csv |}.

(** An event with no rule of its own. *)
Definition faults (n : Z) : CounterSummary :=
  mkCounterSummary "page-faults" "" 3 n one false false.
Definition only_faults (n : Z) (csv : bool) : CounterSummaries :=
  {| summaries_ := [faults n]; csv_ := csv |}.

(** Collaborators of [ParseOptions] for a command line whose events are
    kept as written and whose thread lists hold one id, 12. *)
Definition add_event (e : list string) (t : string) : option (list string) :=
  Some (e ++ [t])%list.
Definition add_group (e : list string) (g : list string) : option (list string) :=
  Some (e ++ g)%list.
Definition no_cpus (_ : string) : list Z := [].
Definition one_thread (_ : string) (set : list Z) : option (list Z) :=
  Some (12 :: set).
Definition no_split (s : string) : list string := [s].
Definition one_second (_ : string) : double * bool := (one, true).
Definition fresh_command : StatCommand (list string) :=
  {| verbose_mode_ := false; system_wide_collection_ := false;
     child_inherit_ := true; monitored_threads_ := []; cpus_ := [];
     event_selection_set_ := []; output_filename_ := ""; stat_csv_ := false |}.
Definition parse (is_root : bool) (args : list string) :=
  ParseOptions add_event add_group no_cpus one_thread one_thread is_root
    no_split one_second fresh_command args.

(** One readout of an event that was enabled for [2^53 + 1] ns and ran for
    [2^53] ns of them. *)
Definition long_readout : CounterInfo :=
  {| tid := 1; cpu := 0;
     counter := {| value := 7; time_enabled := 2 ^ 53 + 1;
                   time_running := 2 ^ 53; counter_id := 0 |} |}.

(** A readout that never ran, and one that ran half of the time. *)
Definition idle_readout : CounterInfo :=
  {| tid := 1; cpu := 1;
     counter := {| value := 0; time_enabled := 1000;
                   time_running := 0; counter_id := 1 |} |}.
Definition half_readout : CounterInfo :=
  {| tid := 1; cpu := 2;
     counter := {| value := 40; time_enabled := 1000;
                   time_running := 500; counter_id := 2 |} |}.
End Sample.

From Stdlib Require Import Sorting.Permutation.

(** ** Rendering, [CounterSummaries::Show] *)

Fixpoint spaces (n : nat) : string :=
  match n with
  | O => ""
  | S n' => " " ++ spaces n'
  end.

(** [%*s]: right-justified in a field of [w] characters, never truncated. *)
Definition pad_right_justified (w : nat) (s : string) : string :=
  spaces (w - String.length s) ++ s.

(** [%-*s]: left-justified in a field of [w] characters, never truncated. *)
Definition pad_left_justified (w : nat) (s : string) : string :=
  s ++ spaces (w - String.length s).

Definition newline : string := String (ascii_of_nat 10) "".

(** The three column widths, the maxima the first loop of [Show] computes. *)
Definition count_column_width (cs : CounterSummaries) : nat :=
  fold_left (fun w s => Nat.max w (String.length (readable_count s))) (summaries_ cs) 0%nat.
Definition name_column_width (cs : CounterSummaries) : nat :=
  fold_left (fun w s => Nat.max w (String.length (Name s))) (summaries_ cs) 0%nat.
Definition comment_column_width (cs : CounterSummaries) : nat :=
  fold_left (fun w s => Nat.max w (String.length (comment s))) (summaries_ cs) 0%nat.

(** [%.0lf] of [1.0 / s.scale * 100]. *)
Definition percentage (s : CounterSummary) : string :=
  format_f 0 (mul (div one (scale s)) c100).

(** The line [Show] prints for [s]. *)
Definition show_row (cs : CounterSummaries) (s : CounterSummary) : string :=
  if csv_ cs then
    readable_count s ++ "," ++ Name s ++ "," ++ comment s ++ ",("
    ++ percentage s ++ "%)"
    ++ (if auto_generated s then " (generated)," else ",") ++ newline
  else
    "  " ++ pad_right_justified (count_column_width cs) (readable_count s)
    ++ "  " ++ pad_left_justified (name_column_width cs) (Name s)
    ++ "   # " ++ pad_left_justified (comment_column_width cs) (comment s)
    ++ "  (" ++ percentage s ++ "%)"
    ++ (if auto_generated s then " (generated)" else "") ++ newline.

(** [CounterSummaries::Show]: the lines written to [fp], in order. *)
Definition Show (cs : CounterSummaries) : list string :=
  map (show_row cs) (summaries_ cs).

(** ** The report, [StatCommand::ShowCounters] *)

(** [%d]. *)
Definition int_to_string (z : Z) : string :=
  if z <? 0 then "-" ++ decimal (- z) else decimal z.

(** The line of verbose mode for one readout. *)
Definition verbose_row (csv : bool) (name : string) (c : CounterInfo) : string :=
  if csv then
    name ++ ",tid," ++ int_to_string (tid c) ++ ",cpu," ++ int_to_string (cpu c)
    ++ ",count," ++ U64.to_string (value (counter c))
    ++ ",time_enabled," ++ U64.to_string (time_enabled (counter c))
    ++ ",time running," ++ U64.to_string (time_running (counter c))
    ++ ",id," ++ U64.to_string (counter_id (counter c)) ++ "," ++ newline
  else
    name ++ "(tid " ++ int_to_string (tid c) ++ ", cpu " ++ int_to_string (cpu c)
    ++ "): count " ++ U64.to_string (value (counter c))
    ++ ", time_enabled " ++ U64.to_string (time_enabled (counter c))
    ++ ", time running " ++ U64.to_string (time_running (counter c))
    ++ ", id " ++ U64.to_string (counter_id (counter c)) ++ newline.

(** The verbose lines, one for each readout.  [full_name] is the
    [event_type_modifier.name] of a selection, the name as the user wrote it. *)
Definition verbose_rows (csv : bool) (full_name : EventSelection -> string)
    (infos : list CountersInfo) : list string :=
  flat_map (fun counters_info =>
              map (verbose_row csv (full_name (selection counters_info)))
                  (counters counters_info))
           infos.

Definition report_header (csv : bool) : string :=
  if csv then "Performance counter statistics," ++ newline
  else "Performance counter statistics:" ++ newline ++ newline.

Definition report_footer (csv : bool) (duration_in_sec : double) : string :=
  if csv then "Total test time," ++ format_f 6 duration_in_sec ++ ",seconds," ++ newline
  else newline ++ "Total test time: " ++ format_f 6 duration_in_sec ++ " seconds." ++ newline.

(** [StatCommand::ShowCounters]: everything written to the report, one
    element for each [fprintf]; [None] is [return false], which happens when
    the output file cannot be opened.  [fopen_ok] is the outcome of [fopen],
    consulted only when an output file is named. *)
Definition ShowCounters (csv verbose : bool) (output_filename : string) (fopen_ok : bool)
    (full_name : EventSelection -> string)
    (counters : list CountersInfo) (duration_in_sec : double) : option (list string) :=
  if negb (output_filename =? "")%string && negb fopen_ok then None
  else
    match ShowCounters_summaries csv counters duration_in_sec with
    | Some cs =>
        Some ([report_header csv]
              ++ (if verbose then verbose_rows csv full_name counters else [])
              ++ Show cs
              ++ [report_footer csv duration_in_sec])%list
    | None => None
    end.

(** ** Default events and the steps of [StatCommand::Run] before counting *)

Definition default_measured_event_types : list string :=
  ["cpu-cycles"; "stalled-cycles-frontend"; "stalled-cycles-backend";
   "instructions"; "branch-instructions"; "branch-misses";
   "task-clock"; "context-switches"; "page-faults"].

(** Why [Run] returns [false] before the counters are read. *)
Inductive RunError :=
  | PerfEventLimit
  | BadOptions (e : ParseError)
  | NoDefaultEvents
  | DefaultEventRejected
  | NoWorkload
  | NoThreadsToMonitor
  | OpenFailed
  | StartFailed.

(** The counters [Run] opens: on the given cpus for every thread, or for
    the given threads on the given cpus. *)
Inductive Target :=
  | AllThreadsOnCpus (cpus : list Z)
  | ThreadsOnCpus (threads cpus : list Z).

Section Run.
Set Implicit Arguments.
Variable EventSelectionSet : Type.
Variable Workload : Type.
Variable AddEventType : EventSelectionSet -> string -> option EventSelectionSet.
Variable AddEventGroup : EventSelectionSet -> list string -> option EventSelectionSet.
Variable GetCpusFromString : string -> list Z.
Variable GetValidThreadsFromProcessString : string -> list Z -> option (list Z).
Variable GetValidThreadsFromThreadString : string -> list Z -> option (list Z).
Variable IsRoot : bool.
Variable Split : string -> list string.
Variable strtod : string -> double * bool.
Variable CheckPerfEventLimit : bool.
(** [event_selection_set_.empty()], [SetInherit] and [SetEnableOnExec]. *)
Variable empty : EventSelectionSet -> bool.
Variable SetInherit : EventSelectionSet -> bool -> EventSelectionSet.
Variable SetEnableOnExec : EventSelectionSet -> bool -> EventSelectionSet.
(** [FindEventTypeByName] finds the name and [IsEventAttrSupportedByKernel]
    accepts its default attributes. *)
Variable supported : string -> bool.
Variable CreateWorkload : list string -> option Workload.
Variable GetPid : Workload -> Z.
(** [Workload::Start]. *)
Variable Start : Workload -> bool.
(** The two ways of opening the event files; [None] is failure. *)
Variable OpenEventFilesForCpus : EventSelectionSet -> list Z -> option EventSelectionSet.
Variable OpenEventFilesForThreadsOnCpus :
  EventSelectionSet -> list Z -> list Z -> option EventSelectionSet.

(** The loop of [AddDefaultMeasuredEventTypes]: an event the kernel does
    not support is passed over, an event that cannot be added ends the loop. *)
Fixpoint add_default_types (names : list string) (e : EventSelectionSet)
    : option EventSelectionSet :=
  match names with
  | [] => Some e
  | name :: names' =>
      if supported name then
        match AddEventType e name with
        | Some e' => add_default_types names' e'
        | None => None
        end
      else add_default_types names' e
  end.

(** [StatCommand::AddDefaultMeasuredEventTypes]. *)
Definition AddDefaultMeasuredEventTypes (e : EventSelectionSet)
    : RunError + EventSelectionSet :=
  match add_default_types default_measured_event_types e with
  | None => inl DefaultEventRejected
  | Some e' => if empty e' then inl NoDefaultEvents else inr e'
  end.

(** What [Run] has when the counters are open: the command, the workload if
    there is one, and the target it opened the event files for. *)
Record Prepared := {
  prepared_cmd : StatCommand EventSelectionSet;
  prepared_workload : option Workload;
  prepared_target : Target
}.

(** Steps 1 to 3 of [StatCommand::Run]. *)
Definition Run_prepare (c : StatCommand EventSelectionSet) (args : list string)
    : RunError + Prepared :=
  if negb CheckPerfEventLimit then inl PerfEventLimit
  else
    match ParseOptions AddEventType AddEventGroup GetCpusFromString
            GetValidThreadsFromProcessString GetValidThreadsFromThreadString
            IsRoot Split strtod c args with
    | inl e => inl (BadOptions e)
    | inr (c1, workload_args) =>
        match (if empty (event_selection_set_ c1)
               then AddDefaultMeasuredEventTypes (event_selection_set_ c1)
               else inr (event_selection_set_ c1)) with
        | inl e => inl e
        | inr e2 =>
            (* SetEventSelectionFlags *)
            let e3 := SetInherit e2 (child_inherit_ c1) in
            match (match workload_args with
                   | [] => Some None
                   | _ :: _ =>
                       match CreateWorkload workload_args with
                       | Some w => Some (Some w)
                       | None => None
                       end
                   end) with
            | None => inl NoWorkload
            | Some workload =>
                match (if negb (system_wide_collection_ c1)
                          && Nat.eqb (List.length (monitored_threads_ c1)) 0
                       then match workload with
                            | Some w =>
                                Some ((monitored_threads_ c1 ++ [GetPid w])%list,
                                      SetEnableOnExec e3 true)
                            | None => None
                            end
                       else Some (monitored_threads_ c1, e3)) with
                | None => inl NoThreadsToMonitor
                | Some (threads, e4) =>
                    if system_wide_collection_ c1 then
                      match OpenEventFilesForCpus e4 (cpus_ c1) with
                      | None => inl OpenFailed
                      | Some e5 =>
                          inr {| prepared_cmd :=
                                   set_events (set_threads c1 threads) e5;
                                 prepared_workload := workload;
                                 prepared_target := AllThreadsOnCpus (cpus_ c1) |}
                      end
                    else
                      let cpus := match cpus_ c1 with [] => [-1] | _ :: _ => cpus_ c1 end in
                      match OpenEventFilesForThreadsOnCpus e4 threads cpus with
                      | None => inl OpenFailed
                      | Some e5 =>
                          inr {| prepared_cmd :=
                                   set_events (set_cpus (set_threads c1 threads) cpus) e5;
                                 prepared_workload := workload;
                                 prepared_target := ThreadsOnCpus threads cpus |}
                      end
                end
            end
        end
    end.

(** The start of step 4: the workload, when there is one, is started. *)
Definition Run_start (p : Prepared) : RunError + Prepared :=
  match prepared_workload p with
  | Some w => if Start w then inr p else inl StartFailed
  | None => inr p
  end.

(** [StatCommand::Run] against a schedule of what happens once the window
    is open: [Some b] when it has returned [b], [None] while it is still in
    the loop or on its way to the report.  [read_ok] and [show_ok] are the
    outcomes of [ReadCounters] and [ShowCounters]. *)
Definition Run (c : StatCommand EventSelectionSet) (args : list string)
    (read_ok show_ok : bool) (evs : list Window.Event) : option bool :=
  match Run_prepare c args with
  | inl _ => Some false
  | inr p =>
      match Run_start p with
      | inl _ => Some false
      | inr _ =>
          match Window.stage (Window.run read_ok show_ok evs Window.window_open) with
          | Window.Returned b => Some b
          | _ => None
          end
      end
  end.
End Run.
Unset Implicit Arguments.

(** ** Predicates on rendered text *)

(** No character of [s] is the separator. *)
Definition no_comma (s : string) : Prop :=
  Forall (fun c => c <> ","%char) (list_ascii_of_string s).

(** [s] with its separators taken out. *)
Definition strip_commas (s : string) : string :=
  string_of_list_ascii
    (filter (fun c => negb (Ascii.eqb c ",")) (list_ascii_of_string s)).

(** [cpu-cycles] and [instructions], counted in one group. *)
Definition sample_cycles : CounterSummary :=
  mkCounterSummary "cpu-cycles" "" 4 2000000000 one false false.
Definition sample_instructions : CounterSummary :=
  mkCounterSummary "instructions" "" 4 1000000000 one false false.
Definition sample_cycle_pair (csv : bool) : CounterSummaries :=
  {| summaries_ := [sample_cycles; sample_instructions]; csv_ := csv |}.

(** [branch-misses] next to a [branch-instructions] summary that counted nothing. *)
Definition sample_no_branches : CounterSummary :=
  mkCounterSummary "branch-instructions" "" 2 0 one false false.
Definition sample_misses_alone : CounterSummaries :=
  {| summaries_ := [sample_no_branches; Sample.misses]; csv_ := false |}.

(** The options that take a value. *)
Definition options_with_value : list string :=
  ["--cpu"; "--duration"; "-e"; "--group"; "-o"; "-p"; "-t"].

(** The options that stand alone. *)
Definition options_without_value : list string :=
  ["-a"; "--csv"; "--no-inherit"; "--verbose"].

(** The option scan and the parse with the collaborators of [Sample]. *)
Definition sample_scan (args : list string) (st : ParseState (list string)) :=
  scan_options Sample.add_event Sample.add_group Sample.no_cpus Sample.one_thread
    Sample.one_thread Sample.no_split Sample.one_second args st.

(** The ways one option changes the command. *)
Inductive option_update {E : Type} (c : StatCommand E) : StatCommand E -> Prop :=
  | update_system_wide : option_update c (set_system_wide c)
  | update_cpus l : option_update c (set_cpus c l)
  | update_csv : option_update c (set_csv c)
  | update_events e : option_update c (set_events c e)
  | update_no_inherit : option_update c (set_no_inherit c)
  | update_output f : option_update c (set_output c f)
  | update_verbose : option_update c (set_verbose c).

(** Collaborators of [Run] for a machine where every default event is
    supported, every open succeeds and the workload gets the pid 4242. *)
Definition sample_empty (e : list string) : bool :=
  match e with [] => true | _ :: _ => false end.
Definition sample_set_flag (e : list string) (_ : bool) : list string := e.
Definition sample_supported (_ : string) : bool := true.
Definition sample_create (_ : list string) : option Z := Some 4242.
Definition sample_pid (w : Z) : Z := w.
Definition sample_start (_ : Z) : bool := true.
Definition sample_open_cpus (e : list string) (_ : list Z) : option (list string) := Some e.
Definition sample_open_threads (e : list string) (_ _ : list Z) : option (list string) :=
  Some e.

Definition sample_prepare (is_root : bool) (args : list string) :=
  Run_prepare Sample.add_event Sample.add_group Sample.no_cpus Sample.one_thread
    Sample.one_thread is_root Sample.no_split Sample.one_second true sample_empty
    sample_set_flag sample_set_flag sample_supported sample_create sample_pid
    sample_open_cpus sample_open_threads Sample.fresh_command args.

Definition sample_run (is_root : bool) (args : list string)
    (read_ok show_ok : bool) (evs : list Window.Event) :=
  Run Sample.add_event Sample.add_group Sample.no_cpus Sample.one_thread
    Sample.one_thread is_root Sample.no_split Sample.one_second true sample_empty
    sample_set_flag sample_set_flag sample_supported sample_create sample_pid
    sample_start sample_open_cpus sample_open_threads Sample.fresh_command args
    read_ok show_ok evs.

(** What [simpleperf stat ls] has prepared on that machine. *)
Definition sample_prepared : Prepared (list string) Z :=
  {| prepared_cmd :=
       set_events (set_cpus (set_threads Sample.fresh_command [4242]) [-1])
         default_measured_event_types;
     prepared_workload := Some 4242;
     prepared_target := ThreadsOnCpus [4242] [-1] |}.

(** The rows of [branch-instructions] and [branch-misses] with their comments. *)
Definition sample_commented : CounterSummaries :=
  GenerateComments (Sample.branch_pair false) one.
Definition sample_commented_misses : CounterSummary :=
  set_comment Sample.misses
    (GetCommentForSummary (Sample.branch_pair false) Sample.misses one).

(** The name a selection was given on the command line. *)
Definition sample_full_name (sel : EventSelection) : string :=
  if (event_modifier sel =? "")%string then event_name sel
  else event_name sel ++ ":" ++ event_modifier sel.

(** The readouts of [cpu-cycles:u] and [cpu-cycles:k], counted in one group. *)
Definition sample_readouts : list CountersInfo :=
  [ {| selection := {| event_name := "cpu-cycles"; event_modifier := "u";
                       selection_group_id := 0 |};
       counters := [Sample.half_readout; Sample.idle_readout] |};
    {| selection := {| event_name := "cpu-cycles"; event_modifier := "k";
                       selection_group_id := 0 |};
       counters := [Sample.half_readout] |} ].

(** The csv report of [sample_readouts] in verbose mode after one second. *)
Definition sample_csv_lines : list string :=
  [ "Performance counter statistics," ++ newline;
    "cpu-cycles:u,tid,1,cpu,2,count,40,time_enabled,1000,time running,500,id,2,"
      ++ newline;
    "cpu-cycles:u,tid,1,cpu,1,count,0,time_enabled,1000,time running,0,id,1,"
      ++ newline;
    "cpu-cycles:k,tid,1,cpu,2,count,40,time_enabled,1000,time running,500,id,2,"
      ++ newline;
    "40,cpu-cycles:u,0.000000,GHz,(50%)," ++ newline;
    "40,cpu-cycles:k,0.000000,GHz,(50%)," ++ newline;
    "80,cpu-cycles,0.000000,GHz,(50%) (generated)," ++ newline;
    "Total test time,1.000000,seconds," ++ newline ].
(** * Properties *)

(** ** Formatting, on examples *)

Example format_f_examples :
  format_f 6 (div (of_Z 2000000) c1e6) = "2.000000" /\
  format_f 3 (div (of_Z 5) (of_Z 1000)) = "0.005" /\
  format_f 3 (div (of_Z 1) (of_Z 3)) = "0.333" /\
  format_f 6 (div (of_Z 2) (of_Z 3)) = "0.666667" /\
  format_f 0 (div (of_Z 5) (of_Z 2)) = "2" /\
  format_f 6 c1em5 = "0.000010".
Proof. vm_compute. repeat split. Qed.

(** ** Monitored at the same time *)

(** C10: "monitored at the same time" is reflexive and symmetric: every
    summary is monitored at the same time as itself, and the answer for two
    summaries does not depend on which of them is asked. *)
Theorem IsMonitoredAtTheSameTime_refl_sym :
  (forall s, IsMonitoredAtTheSameTime s s = true) /\
  (forall a b, IsMonitoredAtTheSameTime a b = IsMonitoredAtTheSameTime b a).
Proof.
  split.
  - intros s. unfold IsMonitoredAtTheSameTime. now rewrite Z.eqb_refl.
  - intros a b. unfold IsMonitoredAtTheSameTime.
    rewrite (Z.eqb_sym (group_id a) (group_id b)).
    destruct (group_id b =? group_id a); [reflexivity | apply andb_comm].
Qed.

Lemma IsMonitoredAtTheSameTime_iff (a b : CounterSummary) :
  IsMonitoredAtTheSameTime a b = true <->
  group_id a = group_id b \/
  (ltb (fabs (sub (scale a) one)) c1em5 = true /\
   ltb (fabs (sub (scale b) one)) c1em5 = true).
Proof.
  unfold IsMonitoredAtTheSameTime, IsMonitoredAllTheTime.
  destruct (Z.eqb_spec (group_id a) (group_id b)) as [E|E].
  - split; auto.
  - rewrite andb_true_iff. split; [auto|]. intros [H|H]; [contradiction|exact H].
Qed.

Example IsMonitoredAllTheTime_examples :
  IsMonitoredAllTheTime (Sample.faults 1) = true /\
  ltb (fabs (sub (div (of_Z 1000001) (of_Z 1000000)) one)) c1em5 = true /\
  ltb (fabs (sub (div (of_Z 100001) (of_Z 100000)) one)) c1em5 = false /\
  ltb (fabs (sub (of_Z 2) one)) c1em5 = false.
Proof. vm_compute. repeat split. Qed.

(** ** Aggregation skips the readouts that never ran *)

Lemma sum_step_idle acc c :
  time_running (counter c) = 0 -> sum_step acc c = acc.
Proof. intros H. unfold sum_step. now rewrite H. Qed.

Lemma sum_step_ran acc c :
  time_running (counter c) <> 0 ->
  sum_step acc c =
  {| value_sum := U64.add (value_sum acc) (value (counter c));
     time_enabled_sum := U64.add (time_enabled_sum acc) (time_enabled (counter c));
     time_running_sum := U64.add (time_running_sum acc) (time_running (counter c)) |}.
Proof.
  intros H. unfold sum_step.
  now destruct (Z.eqb_spec (time_running (counter c)) 0).
Qed.

Lemma fold_sum_step_included l : forall acc,
  fold_left sum_step l acc = fold_left sum_step (included l) acc.
Proof.
  induction l as [|c l IH]; intros acc; [reflexivity|].
  cbn [included filter fold_left].
  destruct (Z.eqb_spec (time_running (counter c)) 0) as [E|E]; cbn [negb].
  - rewrite (sum_step_idle _ _ E). apply IH.
  - cbn [fold_left]. apply IH.
Qed.

Lemma fold_sum_step_fields l : forall acc,
  Forall (fun c => time_running (counter c) <> 0) l ->
  fold_left sum_step l acc =
  {| value_sum := fold_left (fun a c => U64.add a (value (counter c))) l (value_sum acc);
     time_enabled_sum :=
       fold_left (fun a c => U64.add a (time_enabled (counter c))) l (time_enabled_sum acc);
     time_running_sum :=
       fold_left (fun a c => U64.add a (time_running (counter c))) l (time_running_sum acc) |}.
Proof.
  induction l as [|c l IH]; intros acc H.
  - now destruct acc.
  - inversion H as [|? ? Hc Hl]; subst. cbn [fold_left].
    rewrite (sum_step_ran _ _ Hc). now rewrite (IH _ Hl).
Qed.

Lemma included_ran l :
  Forall (fun c => time_running (counter c) <> 0) (included l).
Proof.
  apply Forall_forall. intros c Hc. apply filter_In in Hc as [_ Hc].
  destruct (Z.eqb_spec (time_running (counter c)) 0); [discriminate | assumption].
Qed.

Lemma sum_counters_included (l : list CounterInfo) :
  sum_counters l = sum_counters (included l).
Proof. apply fold_sum_step_included. Qed.

(** C7: a readout whose running time is zero contributes to none of the
    three sums: the sums the aggregation loop computes over all the readouts
    of a selection are the sums of the three fields over the readouts with a
    running time other than zero, and running the loop over those readouts
    alone gives the same result. *)
Theorem sum_counters_skips_idle_readouts (l : list CounterInfo) :
  sum_counters l = sum_counters (included l) /\
  sum_counters l =
  {| value_sum := sum_field value (included l);
     time_enabled_sum := sum_field time_enabled (included l);
     time_running_sum := sum_field time_running (included l) |}.
Proof.
  split; [apply sum_counters_included|].
  unfold sum_counters. rewrite fold_sum_step_included.
  now rewrite (fold_sum_step_fields _ _ (included_ran l)).
Qed.

(** An idle readout can be dropped anywhere in the list. *)
Lemma sum_counters_drop_idle l1 c l2 :
  time_running (counter c) = 0 ->
  sum_counters (l1 ++ c :: l2) = sum_counters (l1 ++ l2).
Proof.
  intros H. unfold sum_counters.
  rewrite !fold_left_app. cbn [fold_left]. now rewrite (sum_step_idle _ _ H).
Qed.

(** ** The measurement window stays closed until a signal arrives *)

Module WindowFacts.
Import Window.

Section Invariant.
Variables read_ok show_ok : bool.

Lemma advance_blocked st : blocked st -> blocked (advance read_ok show_ok st).
Proof.
  unfold blocked, advance, in_loop.
  destruct st as [pc flag]; destruct pc, flag, read_ok; cbn;
    intros H Hf; try discriminate; try reflexivity;
    specialize (H eq_refl); discriminate.
Qed.

Lemma deliver_blocked st : blocked (deliver st).
Proof. unfold blocked, deliver. cbn. discriminate. Qed.

Lemma step_blocked st ev : blocked st -> blocked (step read_ok show_ok st ev).
Proof.
  destruct ev; cbn [step]; [apply advance_blocked | intros _; apply deliver_blocked].
Qed.

Lemma run_blocked evs : forall st,
  blocked st -> blocked (run read_ok show_ok evs st).
Proof.
  unfold run. induction evs as [|ev evs IH]; intros st H; cbn [fold_left];
    [assumption | apply IH, step_blocked, H].
Qed.

Lemma advance_keeps_flag st : signaled (advance read_ok show_ok st) = signaled st.
Proof.
  unfold advance. destruct st as [pc flag]; cbn.
  destruct pc; cbn; try reflexivity.
  - now destruct flag.
  - now destruct read_ok.
Qed.

Lemma run_without_signal evs : forall st,
  forallb (fun ev => negb (is_signal ev)) evs = true ->
  signaled (run read_ok show_ok evs st) = signaled st.
Proof.
  unfold run. induction evs as [|ev evs IH]; intros st H; cbn [fold_left];
    [reflexivity|].
  cbn [forallb] in H. apply andb_true_iff in H as [Hev Hevs].
  rewrite (IH _ Hevs). destruct ev; [apply advance_keeps_flag | discriminate].
Qed.

(** Once delivered, a signal does end the window: two steps of the
    control thread later the loop is left. *)
Lemma signal_ends_window st :
  in_loop st = true ->
  past_loop (run read_ok show_ok [Signal; Advance; Advance] st) = true \/
  past_loop (run read_ok show_ok [Signal; Advance] st) = true.
Proof.
  destruct st as [pc flag]. unfold in_loop, past_loop, in_loop. cbn.
  destruct pc; cbn; try discriminate; intros _; right; reflexivity.
Qed.
End Invariant.
End WindowFacts.

(** C9: the measurement loop is never left while the termination flag is
    unset: in every run from the opening of the window in which no signal is
    delivered, however long, the flag is still unset and the control thread
    is still in the loop, so the counter-read and report stage is not
    reached. *)
Theorem window_never_closes_without_signal
    (read_ok show_ok : bool) (evs : list Window.Event) :
  forallb (fun ev => negb (Window.is_signal ev)) evs = true ->
  Window.signaled (Window.run read_ok show_ok evs Window.window_open) = false /\
  Window.past_loop (Window.run read_ok show_ok evs Window.window_open) = false.
Proof.
  intros H.
  assert (F : Window.signaled (Window.run read_ok show_ok evs Window.window_open) = false)
    by (now rewrite WindowFacts.run_without_signal).
  split; [exact F|].
  unfold Window.past_loop.
  rewrite (WindowFacts.run_blocked read_ok show_ok evs Window.window_open); auto.
  intros _. reflexivity.
Qed.

Lemma window_never_closes_without_signal_witness :
  Window.signaled
    (Window.run true true (repeat Window.Advance 7) Window.window_open) = false /\
  Window.past_loop
    (Window.run true true (repeat Window.Advance 7) Window.window_open) = false.
Proof.
  apply (window_never_closes_without_signal true true (repeat Window.Advance 7)).
  reflexivity.
Defined.

(** ** Readable counts *)

Lemma group_from_low_short (r : list ascii) :
  (List.length r <= 3)%nat -> group_from_low r = r.
Proof.
  destruct r as [|a [|b [|c [|d r]]]]; cbn; intros H; try reflexivity; lia.
Qed.

Lemma insert_at_app (p t : list ascii) (c : ascii) :
  insert_at (List.length p) c (p ++ t) = (p ++ c :: t)%list.
Proof.
  unfold insert_at.
  rewrite firstn_app, skipn_app, Nat.sub_diag, firstn_all, skipn_all.
  cbn. now rewrite app_nil_r.
Qed.

(** The loop at index [length p], with [j] characters to the right of the
    index since the last separator: everything to the right of those [j] is
    final, and what is to the left gets grouped with them. *)
Lemma comma_loop_spec (p : list ascii) : forall (t1 t2 : list ascii) (j : nat),
  List.length t1 = j -> (1 <= j <= 3)%nat ->
  comma_loop (List.length p) j (p ++ t1 ++ t2) =
  (rev (group_from_low (rev t1 ++ rev p)) ++ t2)%list.
Proof.
  induction p as [|c p IH] using rev_ind; intros t1 t2 j Hlen Hj.
  - cbn [List.length comma_loop rev app]. rewrite app_nil_r.
    rewrite group_from_low_short by (rewrite length_rev; lia).
    now rewrite rev_involutive.
  - rewrite length_app. cbn [List.length]. rewrite Nat.add_1_r.
    cbn [comma_loop]. rewrite rev_app_distr. cbn [rev app].
    destruct (Nat.eqb_spec j 3) as [E|E].
    + replace (S (List.length p)) with (List.length (p ++ [c])%list)
        by (rewrite length_app; cbn; lia).
      rewrite insert_at_app. rewrite <- app_assoc.
      change ([c] ++ ","%char :: t1 ++ t2)%list
        with ([c] ++ (","%char :: t1 ++ t2))%list.
      rewrite (IH [c] (","%char :: t1 ++ t2)%list 1%nat) by (cbn; lia).
      destruct t1 as [|x [|y [|z [|w t1]]]]; cbn in Hlen; try lia.
      cbn [rev app]. 
      destruct (rev p) as [|d rp] eqn:Erp; cbn [group_from_low rev app];
        rewrite <- ?app_assoc; reflexivity.
    + rewrite <- app_assoc.
      change ([c] ++ t1 ++ t2)%list with ((c :: t1) ++ t2)%list.
      rewrite (IH (c :: t1) t2 (S j)) by (cbn; lia).
      cbn [rev]. now rewrite <- app_assoc.
Qed.

Lemma comma_loop_groups (l : list ascii) :
  comma_loop (List.length l - 1) 1 l = rev (group_from_low (rev l)).
Proof.
  destruct l as [|c p] using rev_ind; [reflexivity|].
  rewrite length_app. cbn [List.length]. rewrite Nat.add_1_r, Nat.sub_1_r.
  cbn [Nat.pred].
  replace (p ++ [c])%list with (p ++ [c] ++ [])%list at 1 by now rewrite app_nil_r.
  rewrite (comma_loop_spec p [c] [] 1%nat) by (cbn; lia).
  rewrite app_nil_r, rev_app_distr. reflexivity.
Qed.

(** The separators are all the grouping adds. *)
Lemma group_from_low_digits (r : list ascii) :
  Forall (fun c => c <> ","%char) r ->
  filter (fun c => negb (Ascii.eqb c ",")) (group_from_low r) = r.
Proof.
  intros H.
  assert (K : forall n r, (List.length r <= n)%nat ->
              Forall (fun c => c <> ","%char) r ->
              filter (fun c => negb (Ascii.eqb c ",")) (group_from_low r) = r).
  { clear. induction n as [|n IH]; intros r Hn Hr.
    - destruct r; [reflexivity | cbn in Hn; lia].
    - assert (F : forall l, Forall (fun c => c <> ","%char) l ->
                    filter (fun c => negb (Ascii.eqb c ",")) l = l).
      { induction l as [|x l IHl]; intros Hl; [reflexivity|].
        inversion Hl; subst. cbn. destruct (Ascii.eqb_spec x ","); [contradiction|].
        cbn. now rewrite IHl. }
      destruct r as [|a [|b [|c [|d r]]]]; try (apply F; assumption).
      change (group_from_low (a :: b :: c :: d :: r))
        with (a :: b :: c :: ","%char :: group_from_low (d :: r)).
      inversion Hr as [|? ? Ha Hr1]; subst. inversion Hr1 as [|? ? Hb Hr2]; subst.
      inversion Hr2 as [|? ? Hc Hr3]; subst.
      cbn [filter].
      destruct (Ascii.eqb_spec a ","); [contradiction|].
      destruct (Ascii.eqb_spec b ","); [contradiction|].
      destruct (Ascii.eqb_spec c ","); [contradiction|].
      cbn [negb]. rewrite Ascii.eqb_refl. cbn [negb].
      rewrite (IH (d :: r)) by (cbn in *; try lia; assumption). reflexivity. }
  apply (K (List.length r)); auto.
Qed.

(** C6: the readable count.  For the two clock events the count, in
    nanoseconds, is divided by 1e6 and printed as a decimal followed by
    [(ms)]; for every other event it is the decimal digit string of the
    count, as it is in machine-parsable mode and with a separator before
    every group of three digits counted from the least significant end in
    table mode.  1234567 gives [1,234,567] and [1234567]; a task-clock count
    of 2000000 gives [2.000000(ms)]. *)
Theorem ReadableCountValue_spec (name : string) (n : Z) (csv : bool) :
  ReadableCountValue name n csv =
    (if is_clock name then format_f 6 (div (of_Z n) c1e6) ++ "(ms)"
     else if csv then U64.to_string n
     else group_thousands (U64.to_string n)) /\
  ReadableCountValue "task-clock" 2000000 csv = "2.000000(ms)" /\
  ReadableCountValue "page-faults" 1234567 false = "1,234,567" /\
  ReadableCountValue "page-faults" 1234567 true = "1234567".
Proof.
  split; [|split; [destruct csv; vm_compute; reflexivity | split; vm_compute; reflexivity]].
  unfold ReadableCountValue, group_thousands.
  destruct (is_clock name); [reflexivity|].
  destruct csv; [reflexivity|].
  now rewrite comma_loop_groups.
Qed.

(** ** Target resolution *)

Section ParseOptionsFacts.
Variable EventSelectionSet : Type.
Variable AddEventType : EventSelectionSet -> string -> option EventSelectionSet.
Variable AddEventGroup : EventSelectionSet -> list string -> option EventSelectionSet.
Variable GetCpusFromString : string -> list Z.
Variable GetValidThreadsFromProcessString : string -> list Z -> option (list Z).
Variable GetValidThreadsFromThreadString : string -> list Z -> option (list Z).
Variable IsRoot : bool.
Variable Split : string -> list string.
Variable strtod : string -> double * bool.

Local Abbreviation scan := (scan_options AddEventType AddEventGroup GetCpusFromString
  GetValidThreadsFromProcessString GetValidThreadsFromThreadString Split strtod).
Local Abbreviation parse := (ParseOptions AddEventType AddEventGroup GetCpusFromString
  GetValidThreadsFromProcessString GetValidThreadsFromThreadString IsRoot Split strtod).

Lemma resolve_target_cases (st : ParseState EventSelectionSet) :
  let threads := (monitored_threads_ (cmd st) ++ tid_set st)%list in
  resolve_target IsRoot st =
    if system_wide_collection_ (cmd st) then
      match threads with
      | _ :: _ => inl SystemWideWithThreads
      | [] => if IsRoot then inr (set_threads (cmd st) threads)
              else inl SystemWideNeedsRoot
      end
    else inr (set_threads (cmd st) threads).
Proof.
  unfold resolve_target. cbn.
  destruct (system_wide_collection_ (cmd st)); cbn; [|reflexivity].
  destruct (monitored_threads_ (cmd st) ++ tid_set st)%list; cbn;
    [destruct IsRoot|]; reflexivity.
Qed.

(** The flag [-a] is never cleared again by a later option. *)
Lemma scan_keeps_system_wide_bounded (n : nat) : forall args st st' rest,
  (List.length args <= n)%nat ->
  scan args st = inr (st', rest) ->
  system_wide_collection_ (cmd st) = true ->
  system_wide_collection_ (cmd st') = true.
Proof.
  induction n as [|n IH]; intros args st st' rest Hn H Hsw.
  - destruct args; [|cbn in Hn; lia]. cbn in H. now inversion H; subst.
  - destruct args as [|a args']; cbn in H; [now inversion H; subst|].
    cbn in Hn.
    assert (IH1 : forall st0, system_wide_collection_ (cmd st0) = true ->
              scan_options AddEventType AddEventGroup GetCpusFromString
                GetValidThreadsFromProcessString GetValidThreadsFromThreadString
                Split strtod args' st0 = inr (st', rest) ->
              system_wide_collection_ (cmd st') = true).
    { intros st0 H0 H1. eapply (IH args'); [lia | exact H1 | exact H0]. }
    assert (IH2 : forall v r st0, args' = v :: r ->
              system_wide_collection_ (cmd st0) = true ->
              scan_options AddEventType AddEventGroup GetCpusFromString
                GetValidThreadsFromProcessString GetValidThreadsFromThreadString
                Split strtod r st0 = inr (st', rest) ->
              system_wide_collection_ (cmd st') = true).
    { intros v r st0 E H0 H1. subst args'. cbn in Hn.
      eapply (IH r); [lia | exact H1 | exact H0]. }
    destruct (is_option a); cbn [negb] in H; [|now inversion H; subst].
    repeat match type of H with
    | (if ?b then _ else _) = _ => destruct b
    | match ?l with [] => _ | _ :: _ => _ end = _ =>
        let v := fresh "v" in let r := fresh "r" in
        destruct l as [|v r] eqn:?; [discriminate|]
    | match ?o with Some _ => _ | None => _ end = _ => destruct o; [|discriminate]
    | inl _ = inr _ => discriminate
    end;
    first [ eapply IH1; [|exact H]; cbn; first [reflexivity | assumption]
          | eapply IH2; [reflexivity| |exact H]; cbn; first [reflexivity | assumption] ].
Qed.

Lemma scan_keeps_system_wide args st st' rest :
  scan args st = inr (st', rest) ->
  system_wide_collection_ (cmd st) = true ->
  system_wide_collection_ (cmd st') = true.
Proof. apply (scan_keeps_system_wide_bounded (List.length args)). lia. Qed.

(** A leading [-a] sets the flag for the rest of the scan. *)
Lemma scan_system_wide_flag rest st st' rest' :
  scan ("-a" :: rest) st = inr (st', rest') ->
  system_wide_collection_ (cmd st') = true.
Proof.
  intros H. change (scan ("-a" :: rest) st)
    with (scan rest (with_cmd st (set_system_wide (cmd st)))) in H.
  now apply scan_keeps_system_wide in H.
Qed.

(** C8: target resolution.  Once the options are scanned, parsing fails,
    with the diagnostic of the case, when the system-wide flag is set and the
    set of explicit thread or process ids is not empty, and when the
    system-wide flag is set and the user is not root; when neither is the
    case the target is accepted, and parsing succeeds for a command line
    whose workload part is valid, the threads of the set being the monitored
    threads. *)
Theorem ParseOptions_target_resolution
    (c : StatCommand EventSelectionSet) (args : list string)
    (st : ParseState EventSelectionSet) (rest : list string) :
  scan args (initial_parse_state c) = inr (st, rest) ->
  let threads := (monitored_threads_ (cmd st) ++ tid_set st)%list in
  let system_wide := system_wide_collection_ (cmd st) in
  (system_wide = true -> threads <> [] ->
     parse c args = inl SystemWideWithThreads) /\
  (system_wide = true -> IsRoot = false ->
     parse c args = inl SystemWideWithThreads \/
     parse c args = inl SystemWideNeedsRoot) /\
  (~ (system_wide = true /\ threads <> []) ->
   ~ (system_wide = true /\ IsRoot = false) ->
     resolve_target IsRoot st = inr (set_threads (cmd st) threads) /\
     forall w, workload_args (duration_in_sec st) rest = inr w ->
       parse c args = inr (set_threads (cmd st) threads, w)).
Proof.
  intros Hscan threads system_wide.
  unfold ParseOptions. rewrite Hscan.
  rewrite resolve_target_cases. fold threads. fold system_wide.
  split; [|split].
  - intros Hsw Hth. rewrite Hsw. destruct threads; [contradiction|reflexivity].
  - intros Hsw Hroot. rewrite Hsw, Hroot. destruct threads; [right|left]; reflexivity.
  - intros Hthreads Hroot.
    assert (E : (if system_wide
                 then match threads with
                      | [] => if IsRoot then inr (set_threads (cmd st) threads)
                              else inl SystemWideNeedsRoot
                      | _ :: _ => inl SystemWideWithThreads
                      end
                 else inr (set_threads (cmd st) threads)) =
                inr (set_threads (cmd st) threads)).
    { destruct system_wide; [|reflexivity].
      destruct threads; [|exfalso; apply Hthreads; split; [reflexivity|discriminate]].
      destruct IsRoot; [reflexivity|exfalso; apply Hroot; split; reflexivity]. }
    rewrite E. split; [reflexivity|]. intros w Hw. now rewrite Hw.
Qed.
End ParseOptionsFacts.

(** With [-a] and a thread list, also as root; with [-a] alone when not
    root; and a thread list alone, followed by a workload. *)
Lemma ParseOptions_target_resolution_witness :
  Sample.parse true ["-a"; "-t"; "12"] = inl SystemWideWithThreads /\
  (Sample.parse false ["-a"] = inl SystemWideWithThreads \/
   Sample.parse false ["-a"] = inl SystemWideNeedsRoot) /\
  Sample.parse false ["-t"; "12"; "ls"] =
    inr (set_threads Sample.fresh_command [12], ["ls"]).
Proof.
  pose proof (fun is_root args st rest =>
    ParseOptions_target_resolution (list string) Sample.add_event Sample.add_group
      Sample.no_cpus Sample.one_thread Sample.one_thread is_root Sample.no_split
      Sample.one_second Sample.fresh_command args st rest) as T.
  cbv zeta in T.
  split; [|split].
  - refine (proj1 (T true ["-a"; "-t"; "12"] _ _ eq_refl) eq_refl _).
    discriminate.
  - exact (proj1 (proj2 (T false ["-a"] _ _ eq_refl)) eq_refl eq_refl).
  - refine (proj2 (proj2 (proj2 (T false ["-t"; "12"; "ls"] _ _ eq_refl)) _ _)
              ["ls"] eq_refl).
    + intros [H _]. discriminate.
    + intros [H _]. discriminate.
Defined.

Example ParseOptions_examples :
  Sample.parse true ["-a"] =
    inr (set_system_wide Sample.fresh_command, []) /\
  Sample.parse false ["-a"] = inl SystemWideNeedsRoot /\
  Sample.parse true ["-a"; "-p"; "7"] = inl SystemWideWithThreads /\
  Sample.parse false ["--duration"; "1"; "ls"] = inl DurationWithCommand /\
  Sample.parse false ["--cpu"] = inl (MissingArgument "--cpu") /\
  Sample.parse false ["--bogus"] = inl (UnknownOption "--bogus").
Proof. vm_compute. repeat split. Qed.

(** ** Synthesis of combined summaries *)

Lemma extend_nil cs : extend cs [] = cs.
Proof. destruct cs. unfold extend. cbn. now rewrite app_nil_r. Qed.

Lemma extend_extend cs e1 e2 : extend (extend cs e1) e2 = extend cs (e1 ++ e2).
Proof. unfold extend. cbn. now rewrite app_assoc. Qed.

Lemma find_append {A} (p : A -> bool) (l1 l2 : list A) :
  find p (l1 ++ l2) = match find p l1 with Some x => Some x | None => find p l2 end.
Proof.
  induction l1 as [|x l1 IH]; cbn; [reflexivity|]. now destruct (p x).
Qed.

Lemma FindSummary_extend cs ext name m :
  FindSummary (extend cs ext) name m =
  match FindSummary cs name m with
  | Some x => Some x
  | None => FindSummary {| summaries_ := ext; csv_ := csv_ cs |} name m
  end.
Proof. unfold FindSummary, extend. cbn. apply find_append. Qed.

Lemma FindSummary_key cs name m x :
  FindSummary cs name m = Some x -> type_name x = name /\ modifier x = m.
Proof.
  unfold FindSummary. intros H. apply find_some in H as [_ H].
  apply andb_true_iff in H as [H1 H2].
  now apply String.eqb_eq in H1; apply String.eqb_eq in H2.
Qed.

(** Appended summaries that carry no modifier are invisible to a lookup
    with a modifier. *)
Lemma FindSummary_extend_other cs ext name m :
  Forall (fun g => modifier g = "") ext -> m <> "" ->
  FindSummary (extend cs ext) name m = FindSummary cs name m.
Proof.
  intros Hext Hm. rewrite FindSummary_extend.
  destruct (FindSummary cs name m); [reflexivity|].
  destruct (FindSummary _ name m) as [x|] eqn:E; [|reflexivity].
  pose proof (FindSummary_key _ _ _ _ E) as [_ Hx].
  unfold FindSummary in E. apply find_some in E as [Hin _]. cbn in Hin.
  rewrite Forall_forall in Hext. specialize (Hext _ Hin). congruence.
Qed.

Lemma FindSummary_extend_some cs ext name m :
  FindSummary cs name m <> None -> FindSummary (extend cs ext) name m <> None.
Proof.
  rewrite FindSummary_extend. now destruct (FindSummary cs name m).
Qed.

(** What one iteration does: nothing, or one combined summary more. *)
Lemma AutoGenerate_body_cases cs s :
  AutoGenerate_body cs s = cs \/
  exists other,
    modifier s = "u" /\
    FindSummary cs (type_name s) "k" = Some other /\
    IsMonitoredAtTheSameTime other s = true /\
    FindSummary cs (type_name s) "" = None /\
    AutoGenerate_body cs s = extend cs [combined_summary (csv_ cs) s other].
Proof.
  unfold AutoGenerate_body.
  destruct (String.eqb_spec (modifier s) "u") as [Hu|Hu]; [|now left].
  destruct (FindSummary cs (type_name s) "k") as [other|] eqn:Hk; [|now left].
  destruct (IsMonitoredAtTheSameTime other s) eqn:Hm; [|now left].
  destruct (FindSummary cs (type_name s) "") eqn:He; [now left|].
  right. exists other. repeat split; auto.
Qed.

Lemma AutoGenerate_body_extends cs s :
  exists ext,
    AutoGenerate_body cs s = extend cs ext /\
    (List.length ext <= 1)%nat /\
    Forall (fun g => modifier g = "" /\ auto_generated g = true /\
                     type_name g = type_name s) ext /\
    (modifier s <> "u" -> ext = []).
Proof.
  destruct (AutoGenerate_body_cases cs s) as [H|(o & Hu & _ & _ & _ & H)].
  - exists []. rewrite H, extend_nil. repeat split; auto.
  - exists [combined_summary (csv_ cs) s o]. rewrite H.
    repeat split; auto. intros; congruence.
Qed.

Lemma AutoGenerate_body_plain cs s :
  modifier s <> "u" -> AutoGenerate_body cs s = cs.
Proof.
  intros H. unfold AutoGenerate_body.
  now destruct (String.eqb_spec (modifier s) "u").
Qed.

(** Past the summaries the command measured, the loop only walks over
    combined summaries and leaves. *)
Lemma AutoGenerate_loop_skip fuel : forall i cs,
  (forall j x, (i <= j)%nat -> nth_error (summaries_ cs) j = Some x ->
               modifier x <> "u") ->
  (List.length (summaries_ cs) - i < fuel)%nat ->
  AutoGenerate_loop fuel i cs = Some cs.
Proof.
  induction fuel as [|fuel IH]; intros i cs Hmod Hfuel; [lia|].
  cbn [AutoGenerate_loop].
  destruct (nth_error (summaries_ cs) i) as [x|] eqn:E; [|reflexivity].
  rewrite (AutoGenerate_body_plain cs x) by (apply (Hmod i); auto).
  apply IH.
  - intros j y Hj. apply Hmod. lia.
  - assert (i < List.length (summaries_ cs))%nat
      by (apply nth_error_Some; congruence). lia.
Qed.

(** The loop visits the measured summaries in order, each against the
    collection as the iterations before it left it. *)
Lemma AutoGenerate_loop_fold todo : forall pre ext cs fuel,
  summaries_ cs = (pre ++ todo ++ ext)%list ->
  Forall (fun g => modifier g = "") ext ->
  (2 * List.length todo + List.length ext + 1 <= fuel)%nat ->
  AutoGenerate_loop fuel (List.length pre) cs =
  Some (fold_left AutoGenerate_body todo cs).
Proof.
  induction todo as [|x todo IH]; intros pre ext cs fuel Hcs Hext Hfuel.
  - cbn [fold_left]. apply AutoGenerate_loop_skip.
    + intros j y Hj Hy. rewrite Hcs in Hy. cbn [app] in Hy.
      rewrite nth_error_app2 in Hy by lia.
      apply nth_error_In in Hy. rewrite Forall_forall in Hext.
      rewrite (Hext _ Hy). discriminate.
    + rewrite Hcs. cbn [app]. rewrite length_app. cbn in Hfuel. lia.
  - destruct fuel as [|fuel]; [lia|]. cbn [AutoGenerate_loop fold_left].
    rewrite Hcs at 1. rewrite nth_error_app2, Nat.sub_diag by lia. cbn [nth_error app].
    destruct (AutoGenerate_body_extends cs x) as (e & He & Hlen & Hall & _).
    replace (S (List.length pre)) with (List.length (pre ++ [x])%list)
      by (rewrite length_app; cbn; lia).
    apply (IH (pre ++ [x])%list (ext ++ e)%list).
    + rewrite He. unfold extend. cbn [summaries_]. rewrite Hcs.
      rewrite <- !app_assoc. reflexivity.
    + apply Forall_app. split; [assumption|].
      eapply Forall_impl; [|exact Hall]. now intros g [Hg _].
    + rewrite length_app. cbn [List.length] in Hfuel. lia.
Qed.

(** The loop terminates: [AutoGenerateSummaries] is one pass of the body
    over the summaries the collection had on entry. *)
Lemma AutoGenerate_terminates cs :
  AutoGenerateSummaries cs = Some (fold_left AutoGenerate_body (summaries_ cs) cs).
Proof.
  unfold AutoGenerateSummaries.
  apply (AutoGenerate_loop_fold (summaries_ cs) [] [] cs).
  - now rewrite app_nil_r.
  - constructor.
  - cbn. lia.
Qed.

Lemma find_first {A} (p : A -> bool) (l : list A) (x : A) :
  find p l = Some x ->
  exists l1 l2, l = (l1 ++ x :: l2)%list /\ Forall (fun y => p y = false) l1 /\ p x = true.
Proof.
  induction l as [|y l IH]; cbn; [discriminate|].
  destruct (p y) eqn:E.
  - intros [= ->]. exists [], l. repeat split; auto.
  - intros H. destruct (IH H) as (l1 & l2 & -> & Hl1 & Hx).
    exists (y :: l1), l2. repeat split; auto.
Qed.

Lemma FindSummary_member cs name m g :
  In g (summaries_ cs) -> type_name g = name -> modifier g = m ->
  FindSummary cs name m <> None.
Proof.
  intros Hin Hn Hm H. unfold FindSummary in H.
  pose proof (find_none _ _ H g Hin) as K. cbn in K.
  subst. now rewrite !String.eqb_refl in K.
Qed.

Lemma FindSummary_absent cs name m :
  Forall (fun g => type_name g <> name) (summaries_ cs) ->
  FindSummary cs name m = None.
Proof.
  intros H. destruct (FindSummary cs name m) as [x|] eqn:E; [|reflexivity].
  pose proof (FindSummary_key _ _ _ _ E) as [Hx _].
  unfold FindSummary in E. apply find_some in E as [Hin _].
  rewrite Forall_forall in H. now destruct (H _ Hin).
Qed.

(** A pass over summaries none of which can produce the combined summary
    of event [T], because it exists already or because none of them is the
    user-space summary of [T], adds no summary of [T]. *)
Lemma fold_body_no_type (T : string) (todo : list CounterSummary) : forall cs,
  FindSummary cs T "" <> None \/
  Forall (fun x => ~ (type_name x = T /\ modifier x = "u")) todo ->
  exists ext,
    fold_left AutoGenerate_body todo cs = extend cs ext /\
    Forall (fun g => modifier g = "" /\ type_name g <> T) ext.
Proof.
  induction todo as [|x todo IH]; intros cs H.
  - exists []. cbn. now rewrite extend_nil.
  - cbn [fold_left].
    assert (Htail : forall c, FindSummary c T "" <> None \/
              Forall (fun y => ~ (type_name y = T /\ modifier y = "u")) todo ->
              exists ext, fold_left AutoGenerate_body todo c = extend c ext /\
                Forall (fun g => modifier g = "" /\ type_name g <> T) ext)
      by exact IH.
    destruct (AutoGenerate_body_cases cs x) as [E|(o & Hu & Hk & Hm & He & E)];
      rewrite E.
    + apply Htail. destruct H as [H|H]; [now left|right].
      now inversion H.
    + assert (Hx : type_name x <> T).
      { destruct H as [H|H].
        - intros HT. rewrite HT in He. contradiction.
        - inversion H as [|? ? Hx _]; subst. intros HT. apply Hx. now split. }
      destruct (Htail (extend cs [combined_summary (csv_ cs) x o])) as (e & He' & Hall).
      { destruct H as [H|H]; [left; now apply FindSummary_extend_some|right].
        now inversion H. }
      exists (combined_summary (csv_ cs) x o :: e).
      rewrite He', extend_extend. split; [reflexivity|].
      constructor; [split; [reflexivity | exact Hx] | exact Hall].
Qed.

Lemma filter_type_none (T : string) (ext : list CounterSummary) :
  Forall (fun g => modifier g = "" /\ type_name g <> T) ext ->
  filter (fun g => (type_name g =? T)%string) ext = [].
Proof.
  induction 1 as [|g ext [_ Hg] _ IH]; [reflexivity|].
  cbn. now destruct (String.eqb_spec (type_name g) T).
Qed.

(** C3: synthesis of the combined summary.  For the user-space summary [s]
    of an event (modifier [u], the one a lookup of its name with [u] finds)
    whose kernel-space summary [o] exists and is monitored at the same time,
    when the collection has no summary of the event without modifier,
    auto-generation appends exactly one summary of that event: it has no
    modifier, the sum of the two counts (in [uint64_t] arithmetic, so the
    plain sum when that fits), the scale and the group of [s], and is marked
    as generated. *)
Theorem AutoGenerateSummaries_combines (cs : CounterSummaries) (s o : CounterSummary) :
  modifier s = "u" ->
  FindSummary cs (type_name s) "u" = Some s ->
  FindSummary cs (type_name s) "k" = Some o ->
  IsMonitoredAtTheSameTime o s = true ->
  FindSummary cs (type_name s) "" = None ->
  exists ext g,
    AutoGenerateSummaries cs = Some (extend cs ext) /\
    filter (fun g => (type_name g =? type_name s)%string) ext = [g] /\
    type_name g = type_name s /\
    modifier g = "" /\
    count g = U64.add (count s) (count o) /\
    (0 <= count s + count o < U64.modulus -> count g = count s + count o) /\
    scale g = scale s /\
    group_id g = group_id s /\
    auto_generated g = true.
Proof.
  intros Hu Hfirst Hk Hm He.
  set (T := type_name s) in *.
  unfold FindSummary in Hfirst.
  destruct (find_first _ _ _ Hfirst) as (l1 & l2 & Hl & Hl1 & _).
  rewrite AutoGenerate_terminates, Hl, fold_left_app. cbn [fold_left].
  destruct (fold_body_no_type T l1 cs) as (e1 & E1 & H1).
  { right. eapply Forall_impl; [|exact Hl1]. cbn. intros y Hy [Ht Hmod].
    rewrite Ht, Hmod, !String.eqb_refl in Hy. discriminate. }
  rewrite E1.
  assert (Hbody : AutoGenerate_body (extend cs e1) s =
                  extend cs (e1 ++ [combined_summary (csv_ cs) s o])).
  { unfold AutoGenerate_body. rewrite Hu. cbn [String.eqb Ascii.eqb Bool.eqb].
    rewrite FindSummary_extend_other;
      [|eapply Forall_impl; [|exact H1]; now intros g [Hg _] | discriminate].
    fold T. rewrite Hk, Hm.
    rewrite FindSummary_extend. rewrite He.
    rewrite FindSummary_absent
      by (cbn; eapply Forall_impl; [|exact H1]; now intros g [_ Hg]).
    unfold AddSummary, extend. cbn. now rewrite <- app_assoc. }
  rewrite Hbody.
  destruct (fold_body_no_type T l2 (extend cs (e1 ++ [combined_summary (csv_ cs) s o])))
    as (e2 & E2 & H2).
  { left. apply (FindSummary_member _ _ _ (combined_summary (csv_ cs) s o));
      [|reflexivity|reflexivity].
    cbn. apply in_or_app. right. apply in_or_app. right. now left. }
  exists ((e1 ++ [combined_summary (csv_ cs) s o]) ++ e2)%list,
         (combined_summary (csv_ cs) s o).
  rewrite E2, extend_extend. split; [reflexivity|].
  split.
  - rewrite !filter_app, (filter_type_none T e1 H1), (filter_type_none T e2 H2).
    cbn. fold T. now rewrite String.eqb_refl.
  - cbn. repeat split; auto.
    intros Hr. unfold U64.add, U64.wrap. now apply Z.mod_small.
Qed.

Lemma AutoGenerateSummaries_combines_witness :
  exists ext g,
    AutoGenerateSummaries Sample.split_misses = Some (extend Sample.split_misses ext) /\
    filter (fun g => (type_name g =? "branch-misses")%string) ext = [g] /\
    type_name g = "branch-misses" /\
    modifier g = "" /\
    count g = U64.add 30 20 /\
    (0 <= 30 + 20 < U64.modulus -> count g = 30 + 20) /\
    scale g = one /\
    group_id g = 1 /\
    auto_generated g = true.
Proof.
  apply (AutoGenerateSummaries_combines Sample.split_misses
           Sample.misses_user Sample.misses_kernel); reflexivity.
Defined.

Example AutoGenerateSummaries_example :
  AutoGenerateSummaries Sample.split_misses =
  Some (extend Sample.split_misses
          [mkCounterSummary "branch-misses" "" 1 50 one true false]).
Proof. vm_compute. reflexivity. Qed.

(** *** Idempotence *)

Lemma AddSummary_changes cs g : extend cs [g] <> cs.
Proof.
  intros H. apply (f_equal (fun c => List.length (summaries_ c))) in H.
  cbn in H. rewrite length_app in H. cbn in H. lia.
Qed.

(** After its own iteration a summary produces nothing more. *)
Lemma AutoGenerate_body_saturates cs x :
  AutoGenerate_body (AutoGenerate_body cs x) x = AutoGenerate_body cs x.
Proof.
  destruct (AutoGenerate_body_cases cs x) as [E|(o & Hu & Hk & Hm & He & E)];
    rewrite E; [exact E|].
  unfold AutoGenerate_body at 1. rewrite Hu. cbn [String.eqb Ascii.eqb Bool.eqb].
  rewrite FindSummary_extend_other; [|repeat constructor|discriminate].
  rewrite Hk, Hm.
  destruct (FindSummary (extend cs _) (type_name x) "") eqn:K; [reflexivity|].
  exfalso. revert K.
  apply (FindSummary_member _ _ _ (combined_summary (csv_ cs) x o));
    [|reflexivity|reflexivity].
  cbn. apply in_or_app. right. now left.
Qed.

(** Nor does it once further combined summaries are appended. *)
Lemma AutoGenerate_body_saturated_extend cs x ext :
  AutoGenerate_body cs x = cs ->
  Forall (fun g => modifier g = "") ext ->
  AutoGenerate_body (extend cs ext) x = extend cs ext.
Proof.
  intros Hsat Hext. unfold AutoGenerate_body in *.
  destruct (String.eqb_spec (modifier x) "u") as [Hu|Hu]; [|reflexivity].
  rewrite FindSummary_extend_other by (assumption || discriminate).
  destruct (FindSummary cs (type_name x) "k") as [o|]; [|reflexivity].
  destruct (IsMonitoredAtTheSameTime o x); [|reflexivity].
  rewrite FindSummary_extend.
  destruct (FindSummary cs (type_name x) ""); [reflexivity|].
  exfalso. exact (AddSummary_changes _ _ Hsat).
Qed.

Lemma fold_body_extends (todo : list CounterSummary) : forall cs,
  exists ext,
    fold_left AutoGenerate_body todo cs = extend cs ext /\
    Forall (fun g => modifier g = "" /\ auto_generated g = true) ext /\
    NoDup (map type_name ext) /\
    Forall (fun g => FindSummary cs (type_name g) "" = None) ext.
Proof.
  induction todo as [|x todo IH]; intros cs.
  - exists []. cbn. rewrite extend_nil. repeat split; constructor.
  - cbn [fold_left].
    destruct (AutoGenerate_body_cases cs x) as [E|(o & Hu & Hk & Hm & He & E)];
      rewrite E; [apply IH|].
    set (g := combined_summary (csv_ cs) x o) in *.
    destruct (IH (extend cs [g])) as (e & Ee & Hall & Hnd & Hnone).
    exists (g :: e). rewrite Ee, extend_extend.
    split; [reflexivity|]. split; [constructor; [now split|exact Hall]|].
    assert (Hfresh : Forall (fun g' => type_name g' <> type_name g /\
                        FindSummary cs (type_name g') "" = None) e).
    { eapply Forall_impl; [|exact Hnone]. cbn beta. intros g' Hg'. split.
      - intros Ht. revert Hg'. rewrite Ht.
        apply (FindSummary_member _ _ _ g); [|reflexivity|reflexivity].
        cbn. apply in_or_app. right. now left.
      - destruct (FindSummary cs (type_name g') "") eqn:K; [|reflexivity].
        exfalso. revert Hg'. apply FindSummary_extend_some. congruence. }
    split.
    + cbn [map]. constructor; [|exact Hnd].
      intros Hin. apply in_map_iff in Hin as (g' & Ht & Hin).
      rewrite Forall_forall in Hfresh. now destruct (Hfresh _ Hin).
    + constructor; [exact He|].
      eapply Forall_impl; [|exact Hfresh]. now intros g' [_ Hg'].
Qed.

Lemma fold_body_saturates (todo : list CounterSummary) : forall cs x,
  In x todo ->
  AutoGenerate_body (fold_left AutoGenerate_body todo cs) x =
  fold_left AutoGenerate_body todo cs.
Proof.
  induction todo as [|y todo IH]; intros cs x Hin; [contradiction|].
  cbn [fold_left]. destruct Hin as [->|Hin]; [|now apply IH].
  destruct (fold_body_extends todo (AutoGenerate_body cs x)) as (e & E & Hall & _).
  rewrite E. apply AutoGenerate_body_saturated_extend.
  - apply AutoGenerate_body_saturates.
  - eapply Forall_impl; [|exact Hall]. now intros g [Hg _].
Qed.

Lemma fold_body_fixed (l : list CounterSummary) : forall cs,
  (forall x, In x l -> AutoGenerate_body cs x = cs) ->
  fold_left AutoGenerate_body l cs = cs.
Proof.
  induction l as [|x l IH]; intros cs H; [reflexivity|].
  cbn [fold_left]. rewrite (H x) by now left.
  apply IH. intros y Hy. apply H. now right.
Qed.

(** C4: auto-generation is idempotent.  On any collection it terminates
    and appends summaries that carry no modifier and are marked as
    generated, at most one for each type name; run again on its result it
    appends nothing. *)
Theorem AutoGenerateSummaries_idempotent (cs : CounterSummaries) :
  exists ext,
    AutoGenerateSummaries cs = Some (extend cs ext) /\
    AutoGenerateSummaries (extend cs ext) = Some (extend cs ext) /\
    Forall (fun g => modifier g = "" /\ auto_generated g = true) ext /\
    NoDup (map type_name ext).
Proof.
  destruct (fold_body_extends (summaries_ cs) cs) as (ext & E & Hall & Hnd & _).
  exists ext. rewrite !AutoGenerate_terminates, E.
  repeat split; auto.
  f_equal. apply fold_body_fixed. intros x Hin.
  cbn in Hin. apply in_app_or in Hin as [Hin|Hin].
  - rewrite <- E. now apply fold_body_saturates.
  - apply AutoGenerate_body_plain. rewrite Forall_forall in Hall.
    destruct (Hall _ Hin) as [-> _]. discriminate.
Qed.

(** ** Comments *)

Lemma substring_prefix (a b : string) :
  substring 0 (String.length a) (a ++ b) = a.
Proof.
  induction a as [|c a IH]; cbn.
  - now destruct b.
  - now rewrite IH.
Qed.

Lemma substring_split (s : string) : forall i,
  (i <= String.length s)%nat ->
  s = substring 0 i s ++ substring i (String.length s - i) s.
Proof.
  induction s as [|c s IH]; intros i Hi.
  - cbn in Hi. assert (i = 0)%nat as -> by lia. reflexivity.
  - destruct i as [|i].
    + cbn. f_equal. clear. induction s as [|d s IH]; cbn; [reflexivity|].
      now rewrite <- IH.
    + cbn in *. f_equal. apply IH. lia.
Qed.

Lemma string_length_app (a b : string) :
  String.length (a ++ b) = (String.length a + String.length b)%nat.
Proof. induction a as [|c a IH]; cbn; [reflexivity | now rewrite IH]. Qed.

(** [EndsWith s suffix] holds exactly for the strings [stem ++ suffix]. *)
Lemma EndsWith_stem (s suffix : string) :
  EndsWith s suffix = true ->
  s = substring 0 (String.length s - String.length suffix) s ++ suffix.
Proof.
  unfold EndsWith. intros H. apply andb_true_iff in H as [Hlen Heq].
  apply Nat.leb_le in Hlen. apply String.eqb_eq in Heq.
  set (k := String.length suffix) in *.
  pose proof (substring_split s (String.length s - k) ltac:(lia)) as P.
  replace (String.length s - (String.length s - k))%nat with k in P by lia.
  now rewrite Heq in P.
Qed.

Lemma EndsWith_app (stem suffix : string) : EndsWith (stem ++ suffix) suffix = true.
Proof.
  unfold EndsWith. rewrite string_length_app.
  apply andb_true_iff. split; [apply Nat.leb_le; lia|].
  apply String.eqb_eq.
  replace (String.length stem + String.length suffix - String.length suffix)%nat
    with (String.length stem) by lia.
  induction stem as [|c stem IH]; cbn.
  - pose proof (substring_prefix suffix "") as P.
    replace (suffix ++ "") with suffix in P; [exact P|].
    clear. induction suffix as [|c s IH]; cbn; [reflexivity | now rewrite <- IH].
  - exact IH.
Qed.

Lemma misses_not_special (name : string) :
  EndsWith name "-misses" = true ->
  name <> "task-clock" /\ name <> "cpu-clock" /\ name <> "cpu-cycles" /\
  name <> "instructions".
Proof.
  intros H. repeat split; intros ->; vm_compute in H; discriminate.
Qed.

(** C5: the miss rate.  For a summary whose type name ends in [-misses],
    the reference summary is looked up under [cache-references] for
    [cache-misses], [branch-instructions] for [branch-misses], and otherwise
    the type name with [-misses] replaced by [s], with the same modifier;
    when it is found, is monitored at the same time and has a count other
    than zero, the comment is the count over the reference count, times
    100, printed as a percentage. *)
Theorem GetCommentForSummary_miss_rate
    (cs : CounterSummaries) (s o : CounterSummary) (duration : double) :
  EndsWith (type_name s) "-misses" = true ->
  FindSummary cs (misses_other_name (type_name s)) (modifier s) = Some o ->
  IsMonitoredAtTheSameTime o s = true ->
  count o <> 0 ->
  GetCommentForSummary cs s duration =
    format_f 6 (mul (div (of_Z (count s)) (of_Z (count o))) c100)
    ++ "%" ++ String (if csv_ cs then "," else " ")%char "miss rate" /\
  modifier o = modifier s /\
  (type_name s = "cache-misses" -> type_name o = "cache-references") /\
  (type_name s = "branch-misses" -> type_name o = "branch-instructions") /\
  (type_name s <> "cache-misses" -> type_name s <> "branch-misses" ->
   exists stem, type_name s = stem ++ "-misses" /\ type_name o = stem ++ "s").
Proof.
  intros Hends Hfind Hmon Hcount.
  destruct (misses_not_special _ Hends) as (N1 & N2 & N3 & N4).
  destruct (FindSummary_key _ _ _ _ Hfind) as [Hname Hmod].
  split; [|split; [exact Hmod|repeat split]].
  - unfold GetCommentForSummary, cpi_comment, miss_rate_comment.
    destruct (String.eqb_spec (type_name s) "task-clock"); [contradiction|].
    destruct (String.eqb_spec (type_name s) "cpu-clock"); [contradiction|].
    destruct (String.eqb_spec (type_name s) "cpu-cycles"); [contradiction|].
    destruct (String.eqb_spec (type_name s) "instructions"); [contradiction|].
    cbn [andb]. rewrite Hends, Hfind, Hmon.
    destruct (Z.eqb_spec (count o) 0); [contradiction|]. reflexivity.
  - intros E. rewrite Hname, E. reflexivity.
  - intros E. rewrite Hname, E. reflexivity.
  - intros E1 E2. exists (substring 0 (String.length (type_name s) - 7) (type_name s)).
    split; [exact (EndsWith_stem _ _ Hends)|].
    rewrite Hname. unfold misses_other_name.
    destruct (String.eqb_spec (type_name s) "cache-misses"); [contradiction|].
    destruct (String.eqb_spec (type_name s) "branch-misses"); [contradiction|].
    reflexivity.
Qed.

Lemma GetCommentForSummary_miss_rate_witness :
  GetCommentForSummary (Sample.branch_pair false) Sample.misses one =
    format_f 6 (mul (div (of_Z 50) (of_Z 1000)) c100)
    ++ "%" ++ String " "%char "miss rate" /\
  modifier Sample.branches = modifier Sample.misses /\
  (type_name Sample.misses = "cache-misses" ->
   type_name Sample.branches = "cache-references") /\
  (type_name Sample.misses = "branch-misses" ->
   type_name Sample.branches = "branch-instructions") /\
  (type_name Sample.misses <> "cache-misses" ->
   type_name Sample.misses <> "branch-misses" ->
   exists stem, type_name Sample.misses = stem ++ "-misses" /\
                type_name Sample.branches = stem ++ "s").
Proof.
  apply (GetCommentForSummary_miss_rate (Sample.branch_pair false)
           Sample.misses Sample.branches one); [reflexivity..|discriminate].
Defined.

Example GetCommentForSummary_miss_rate_examples :
  GetCommentForSummary (Sample.branch_pair false) Sample.misses one =
    "5.000000% miss rate" /\
  GetCommentForSummary (Sample.branch_pair true) Sample.misses one =
    "5.000000%,miss rate" /\
  misses_other_name "L1-dcache-load-misses" = "L1-dcache-loads".
Proof. vm_compute. repeat split. Qed.

(** *** The rate of the other events *)

Lemma cpi_comment_none cs sap s :
  (type_name s = "instructions" -> count s <> 0 ->
   forall o, FindSummary cs "cpu-cycles" (modifier s) = Some o ->
             IsMonitoredAtTheSameTime o s = false) ->
  cpi_comment cs sap s = None.
Proof.
  intros H. unfold cpi_comment.
  destruct (String.eqb_spec (type_name s) "instructions") as [E|E]; [|reflexivity].
  destruct (Z.eqb_spec (count s) 0) as [C|C]; [reflexivity|]. cbn.
  destruct (FindSummary cs "cpu-cycles" (modifier s)) as [o|] eqn:F; [|reflexivity].
  now rewrite (H E C o eq_refl).
Qed.

Lemma miss_rate_comment_none cs sap s :
  (EndsWith (type_name s) "-misses" = true ->
   forall o, FindSummary cs (misses_other_name (type_name s)) (modifier s) = Some o ->
             IsMonitoredAtTheSameTime o s = false \/ count o = 0) ->
  miss_rate_comment cs sap s = None.
Proof.
  intros H. unfold miss_rate_comment.
  destruct (EndsWith (type_name s) "-misses"); [|reflexivity].
  destruct (FindSummary cs _ (modifier s)) as [o|] eqn:F; [|reflexivity].
  destruct (H eq_refl o eq_refl) as [K|K]; rewrite K; [reflexivity|].
  cbn. now rewrite andb_false_r.
Qed.

(** C2, as the code has it: for a summary that none of the rules before
    applies to, the comment is the rate, count / (duration / scale), printed
    with three decimals, a separator (a space in table mode, a comma in
    machine-parsable mode) and the unit: divided by 1e9 with unit [G/sec]
    when the rate is greater than 1e9, by 1e6 with [M/sec] when greater than
    1e6, by 1e3 with [K/sec] when greater than 1e3, and as it is with [/sec]
    otherwise. *)
Theorem GetCommentForSummary_rate
    (cs : CounterSummaries) (s : CounterSummary) (duration : double) :
  type_name s <> "task-clock" ->
  type_name s <> "cpu-clock" ->
  type_name s <> "cpu-cycles" ->
  (type_name s = "instructions" -> count s <> 0 ->
   forall o, FindSummary cs "cpu-cycles" (modifier s) = Some o ->
             IsMonitoredAtTheSameTime o s = false) ->
  (EndsWith (type_name s) "-misses" = true ->
   forall o, FindSummary cs (misses_other_name (type_name s)) (modifier s) = Some o ->
             IsMonitoredAtTheSameTime o s = false \/ count o = 0) ->
  let rate := div (of_Z (count s)) (div duration (scale s)) in
  let sep := String (if csv_ cs then "," else " ")%char "" in
  let comment := GetCommentForSummary cs s duration in
  (gtb rate c1e9 = true ->
     comment = format_f 3 (div rate c1e9) ++ sep ++ "G/sec") /\
  (gtb rate c1e9 = false -> gtb rate c1e6 = true ->
     comment = format_f 3 (div rate c1e6) ++ sep ++ "M/sec") /\
  (gtb rate c1e9 = false -> gtb rate c1e6 = false -> gtb rate c1e3 = true ->
     comment = format_f 3 (div rate c1e3) ++ sep ++ "K/sec") /\
  (gtb rate c1e9 = false -> gtb rate c1e6 = false -> gtb rate c1e3 = false ->
     comment = format_f 3 rate ++ sep ++ "/sec").
Proof.
  intros N1 N2 N3 Hcpi Hmiss rate sep comment.
  assert (E : comment = rate_comment (if csv_ cs then "," else " ")%char rate).
  { subst comment. unfold GetCommentForSummary.
    destruct (String.eqb_spec (type_name s) "task-clock"); [contradiction|].
    destruct (String.eqb_spec (type_name s) "cpu-clock"); [contradiction|].
    destruct (String.eqb_spec (type_name s) "cpu-cycles"); [contradiction|].
    now rewrite (cpi_comment_none _ _ _ Hcpi), (miss_rate_comment_none _ _ _ Hmiss). }
  rewrite E. unfold rate_comment, sep.
  repeat split; intros; repeat match goal with H : gtb _ _ = _ |- _ => rewrite H; clear H end;
    reflexivity.
Qed.

Lemma GetCommentForSummary_rate_witness :
  let rate := div (of_Z 5000000) (div one one) in
  let sep := String " "%char "" in
  let comment :=
    GetCommentForSummary (Sample.only_faults 5000000 false) (Sample.faults 5000000) one in
  (gtb rate c1e9 = true ->
     comment = format_f 3 (div rate c1e9) ++ sep ++ "G/sec") /\
  (gtb rate c1e9 = false -> gtb rate c1e6 = true ->
     comment = format_f 3 (div rate c1e6) ++ sep ++ "M/sec") /\
  (gtb rate c1e9 = false -> gtb rate c1e6 = false -> gtb rate c1e3 = true ->
     comment = format_f 3 (div rate c1e3) ++ sep ++ "K/sec") /\
  (gtb rate c1e9 = false -> gtb rate c1e6 = false -> gtb rate c1e3 = false ->
     comment = format_f 3 rate ++ sep ++ "/sec").
Proof.
  apply (GetCommentForSummary_rate (Sample.only_faults 5000000 false)
           (Sample.faults 5000000) one); discriminate.
Defined.

(** C2 as the specification words it does not hold: the separator stands
    between the number and the unit, so 5,000,000 events in one second give
    [5.000 M/sec] and not [5.000M/sec]; and the thresholds are strict, so a
    rate of exactly 1e9 is printed in [M/sec]. *)
Lemma GetCommentForSummary_rate_counterexample :
  GetCommentForSummary (Sample.only_faults 5000000 false) (Sample.faults 5000000) one
    = "5.000 M/sec" /\
  GetCommentForSummary (Sample.only_faults 5000000 false) (Sample.faults 5000000) one
    <> "5.000M/sec" /\
  GetCommentForSummary (Sample.only_faults 5000000 true) (Sample.faults 5000000) one
    = "5.000,M/sec" /\
  leb c1e9 (div (of_Z 1000000000) (div one one)) = true /\
  GetCommentForSummary (Sample.only_faults 1000000000 false) (Sample.faults 1000000000) one
    = "1000.000 M/sec".
Proof. vm_compute. repeat split. discriminate. Qed.

(** ** Binary64 rounding in the normal range *)

Lemma digits2_pos_size (p : positive) : digits2_pos p = Pos.size p.
Proof. induction p; cbn; congruence. Qed.

Lemma Zdigits2_log2 (n : Z) : 0 < n -> Zdigits2 n = Z.log2 n + 1.
Proof.
  destruct n as [|p|p]; try lia. intros _. cbn [Zdigits2].
  rewrite digits2_pos_size.
  destruct p; cbn [Pos.size Z.log2]; lia.
Qed.

Lemma Zdigits2_bounds (n : Z) :
  0 < n -> 2 ^ (Zdigits2 n - 1) <= n < 2 ^ Zdigits2 n.
Proof.
  intros H. rewrite (Zdigits2_log2 n H).
  replace (Z.log2 n + 1 - 1) with (Z.log2 n) by lia.
  pose proof (Z.log2_spec n H). replace (Z.log2 n + 1) with (Z.succ (Z.log2 n)) by lia.
  lia.
Qed.

Lemma Zdigits2_unique (n d : Z) :
  2 ^ (d - 1) <= n < 2 ^ d -> 0 < d -> Zdigits2 n = d.
Proof.
  intros H Hd.
  assert (0 < n) by (pose proof (Z.pow_pos_nonneg 2 (d - 1)); lia).
  rewrite Zdigits2_log2 by assumption.
  rewrite (Z.log2_unique n (d - 1)); try lia.
  replace (Z.succ (d - 1)) with d by lia. lia.
Qed.

Lemma iter_pos_iter {A} (f : A -> A) (p : positive) : forall x,
  iter_pos f p x = Pos.iter f x p.
Proof.
  induction p as [p IH|p IH|]; intros x; cbn [iter_pos Pos.iter].
  - rewrite !IH. rewrite <- !Pos.iter_swap. reflexivity.
  - now rewrite !IH.
  - reflexivity.
Qed.

Lemma shr_1_nonneg (m : Z) (r s : bool) :
  0 <= m ->
  shr_1 {| shr_m := m; shr_r := r; shr_s := s |} =
  {| shr_m := m / 2; shr_r := Z.odd m; shr_s := r || s |}.
Proof.
  intros H. destruct m as [|p|p]; [reflexivity| |lia].
  destruct p as [p|p|]; cbn [shr_1 Z.odd]; f_equal.
  - apply (Z.div_unique _ _ _ 1); lia.
  - apply (Z.div_unique _ _ _ 0); lia.
Qed.

Lemma shr_iter (k : nat) : forall (m : Z) (r s : bool),
  0 <= m ->
  Nat.iter (S k) shr_1 {| shr_m := m; shr_r := r; shr_s := s |} =
  {| shr_m := m / 2 ^ Z.of_nat (S k);
     shr_r := Z.odd (m / 2 ^ Z.of_nat k);
     shr_s := negb (m mod 2 ^ Z.of_nat k =? 0) || (r || s) |}.
Proof.
  induction k as [|k IH]; intros m r s Hm.
  - cbn [Nat.iter]. rewrite shr_1_nonneg by assumption.
    change (2 ^ Z.of_nat 1) with 2. change (2 ^ Z.of_nat 0) with 1.
    rewrite Z.div_1_r, Z.mod_1_r. reflexivity.
  - change (Nat.iter (S (S k)) shr_1 ?x) with (shr_1 (Nat.iter (S k) shr_1 x)).
    rewrite IH by assumption.
    assert (P : 0 < 2 ^ Z.of_nat k) by (apply Z.pow_pos_nonneg; lia).
    assert (P' : 0 < 2 ^ Z.of_nat (S k)) by (apply Z.pow_pos_nonneg; lia).
    rewrite shr_1_nonneg by (apply Z.div_pos; lia).
    assert (E : 2 ^ Z.of_nat (S (S k)) = 2 ^ Z.of_nat (S k) * 2)
      by (rewrite (Nat2Z.inj_succ (S k)), Z.pow_succ_r; lia).
    assert (E' : 2 ^ Z.of_nat (S k) = 2 ^ Z.of_nat k * 2)
      by (rewrite (Nat2Z.inj_succ k), Z.pow_succ_r; lia).
    f_equal.
    + rewrite E. rewrite Z.div_div by lia. reflexivity.
    + rewrite E'. rewrite Z.rem_mul_r by lia.
      pose proof (Z.mod_pos_bound m (2 ^ Z.of_nat k) P) as B1.
      rewrite (Zmod_odd (m / 2 ^ Z.of_nat k)).
      destruct (Z.odd (m / 2 ^ Z.of_nat k));
        destruct (Z.eqb_spec (m mod 2 ^ Z.of_nat k) 0) as [Z0|Z0]; cbn [negb orb].
      * destruct (Z.eqb_spec (m mod 2 ^ Z.of_nat k + 2 ^ Z.of_nat k * 1) 0); [lia|reflexivity].
      * destruct (Z.eqb_spec (m mod 2 ^ Z.of_nat k + 2 ^ Z.of_nat k * 1) 0); [lia|reflexivity].
      * destruct (Z.eqb_spec (m mod 2 ^ Z.of_nat k + 2 ^ Z.of_nat k * 0) 0); [reflexivity|lia].
      * destruct (Z.eqb_spec (m mod 2 ^ Z.of_nat k + 2 ^ Z.of_nat k * 0) 0); [lia|reflexivity].
Qed.


Lemma round_nearest_even_bits (m m' : Z) (r s : bool) :
  round_nearest_even m
    (loc_of_shr_record {| shr_m := m'; shr_r := r; shr_s := s |}) =
  round_bits m r s.
Proof.
  unfold round_bits. destruct r, s; cbn; try reflexivity.
  rewrite <- Z.negb_odd. now destruct (Z.odd m).
Qed.

Lemma shr_record_of_loc_bits (m : Z) (l : location) :
  shr_record_of_loc m l =
  {| shr_m := m; shr_r := fst (loc_bits l); shr_s := snd (loc_bits l) |}.
Proof. now destruct l as [|[]]. Qed.

Lemma fexp_normal (d : Z) : -1021 <= d -> fexp prec emax d = d - 53.
Proof. intros H. unfold fexp, emin, prec, emax. lia. Qed.

Lemma shr_fexp_normal (m e k : Z) (l : location) :
  0 < m -> 0 <= k -> Zdigits2 m = 53 + k -> -1074 <= e + k ->
  exists mrs,
    shr_fexp prec emax m e l = (mrs, e + k) /\
    round_nearest_even (shr_m mrs) (loc_of_shr_record mrs) = drop_bits k m l.
Proof.
  intros Hm Hk Hd He. unfold shr_fexp. rewrite Hd, fexp_normal by lia.
  replace (53 + k + e - 53 - e) with k by lia.
  rewrite shr_record_of_loc_bits. unfold drop_bits.
  destruct (loc_bits l) as [r s]. cbn [fst snd].
  destruct k as [|p|p]; [| |lia].
  - eexists. split; [cbn; rewrite Z.add_0_r; reflexivity|].
    cbn [shr_m Z.eqb]. apply round_nearest_even_bits.
  - unfold shr. rewrite iter_pos_iter, Pos2Nat.inj_iter.
    destruct (Pos2Nat.is_succ p) as [n Hn]. rewrite Hn.
    pose proof (shr_iter n m r s ltac:(lia)) as Q. unfold Nat.iter in Q.
    rewrite Q. clear Q.
    eexists. split; [reflexivity|].
    cbn [shr_m]. rewrite round_nearest_even_bits.
    replace (Z.of_nat (S n)) with (Z.pos p) by lia.
    replace (Z.of_nat n) with (Z.pos p - 1) by lia.
    reflexivity.
Qed.

Lemma drop_bits_bounds (k m : Z) (l : location) :
  0 <= k -> 2 ^ (52 + k) <= m < 2 ^ (53 + k) ->
  m / 2 ^ k <= drop_bits k m l <= m / 2 ^ k + 1 /\
  2 ^ 52 <= m / 2 ^ k < 2 ^ 53.
Proof.
  intros Hk Hm.
  assert (P : 0 < 2 ^ k) by (apply Z.pow_pos_nonneg; lia).
  assert (B : 2 ^ 52 <= m / 2 ^ k < 2 ^ 53).
  { rewrite !Z.pow_add_r in Hm by lia. split.
    - apply Z.div_le_lower_bound; lia.
    - apply Z.div_lt_upper_bound; lia. }
  split; [|exact B].
  unfold drop_bits, round_bits. destruct (loc_bits l) as [r s].
  destruct (Z.eqb_spec k 0) as [->|K].
  - change (2 ^ 0) with 1. rewrite Z.div_1_r.
    destruct (r && (s || Z.odd m)); lia.
  - destruct (_ && _); lia.
Qed.

Lemma binary_round_aux_normal (m e k : Z) (l : location) :
  0 < m -> 0 <= k -> Zdigits2 m = 53 + k -> -1074 <= e + k <= 970 ->
  binary_round_aux prec emax false m e l = normal (drop_bits k m l) (e + k).
Proof.
  intros Hm Hk Hd He.
  destruct (shr_fexp_normal m e k l Hm Hk Hd ltac:(lia)) as (mrs & E1 & E2).
  unfold binary_round_aux. rewrite E1, E2.
  pose proof (Zdigits2_bounds m Hm) as Bm. rewrite Hd in Bm.
  replace (53 + k - 1) with (52 + k) in Bm by lia.
  destruct (drop_bits_bounds k m l Hk Bm) as [B1 B2].
  set (m1 := drop_bits k m l) in *.
  unfold normal.
  destruct (Z.eqb_spec m1 (2 ^ 53)) as [E|E].
  - rewrite E. unfold shr_fexp.
    change (Zdigits2 (2 ^ 53)) with 54.
    rewrite fexp_normal by lia.
    replace (54 + (e + k) - 53 - (e + k)) with 1 by lia.
    cbn [shr_record_of_loc shr iter_pos].
    change (2 ^ 53) with 9007199254740992. cbn [shr_1 shr_m].
    unfold emax, prec.
    destruct (Z.leb_spec (e + k + 1) (1024 - 53)); [reflexivity|lia].
  - assert (D : Zdigits2 m1 = 53) by (apply Zdigits2_unique; lia).
    unfold shr_fexp. rewrite D, fexp_normal by lia.
    replace (53 + (e + k) - 53 - (e + k)) with 0 by lia.
    cbn [shr_record_of_loc shr shr_m].
    destruct m1 as [|p|p]; try lia.
    unfold emax, prec.
    destruct (Z.leb_spec (e + k) (1024 - 53)); [reflexivity|lia].
Qed.


Lemma normal_ord (b m1 e : Z) :
  2 ^ 52 <= m1 <= 2 ^ 53 -> - b <= e < b ->
  normalized b (normal m1 e) /\ ord (normal m1 e) = e * 2 ^ 52 + m1.
Proof.
  intros Hm He. unfold normal.
  destruct (Z.eqb_spec m1 (2 ^ 53)) as [E|E].
  - split.
    + exists (Z.to_pos (2 ^ 52)), (e + 1). repeat split; try lia; cbn; lia.
    + cbn [ord]. rewrite E. change (Z.pos (Z.to_pos (2 ^ 52))) with (2 ^ 52). lia.
  - split.
    + exists (Z.to_pos m1), e. rewrite Z2Pos.id by lia. repeat split; lia.
    + cbn [ord]. rewrite Z2Pos.id by lia. reflexivity.
Qed.

Lemma iter_xO (q : positive) (p : positive) :
  Z.pos (Pos.iter xO p q) = Z.pos p * 2 ^ Z.pos q.
Proof.
  induction q as [|q IH] using Pos.peano_ind.
  - cbn. lia.
  - rewrite Pos.iter_succ, Pos2Z.inj_xO, IH, Pos2Z.inj_succ, Z.pow_succ_r by lia. lia.
Qed.

Lemma drop_bits_exact (m : Z) : drop_bits 0 m loc_Exact = m.
Proof. reflexivity. Qed.

Lemma of_Z_normal (n : Z) :
  0 < n < 2 ^ 64 ->
  let d := Zdigits2 n in
  let k := Z.max (d - 53) 0 in
  let j := Z.max (53 - d) 0 in
  of_Z n = normal (drop_bits k (n * 2 ^ j) loc_Exact) (k - j) /\
  Zdigits2 (n * 2 ^ j) = 53 + k /\ 1 <= d <= 64.
Proof.
  intros Hn d k j.
  pose proof (Zdigits2_bounds n ltac:(lia)) as B. fold d in B.
  assert (Hd : 1 <= d <= 64).
  { split.
    - destruct (Z.le_gt_cases 1 d); [assumption|].
      unfold d in *. rewrite Zdigits2_log2 in * by lia.
      pose proof (Z.log2_nonneg n). lia.
    - destruct (Z.le_gt_cases d 64); [assumption|].
      assert (2 ^ 64 <= 2 ^ (d - 1)) by (apply Z.pow_le_mono_r; lia). lia. }
  assert (Dg : Zdigits2 (n * 2 ^ j) = 53 + k).
  { apply Zdigits2_unique; [|lia].
    assert (K : (k = d - 53 /\ j = 0 /\ 53 <= d) \/ (k = 0 /\ j = 53 - d /\ d <= 53)) by lia.
    clearbody k j. destruct K as [(-> & -> & K)|(-> & -> & K)].
    - change (2 ^ 0) with 1. rewrite Z.mul_1_r.
      replace (53 + (d - 53) - 1) with (d - 1) by lia.
      replace (53 + (d - 53)) with d by lia. exact B.
    - replace (53 + 0 - 1) with ((d - 1) + (53 - d)) by lia.
      replace (53 + 0) with (d + (53 - d)) by lia.
      rewrite !Z.pow_add_r by lia.
      assert (0 < 2 ^ (53 - d)) by (apply Z.pow_pos_nonneg; lia). nia. }
  split; [|split; [exact Dg|exact Hd]].
  destruct n as [|p|p]; try lia.
  unfold of_Z, binary_normalize, binary_round, shl_align.
  change (Z.pos (digits2_pos p)) with d. rewrite Z.add_0_r.
  rewrite fexp_normal by lia. rewrite Z.sub_0_r.
  destruct (d - 53) as [|q|q] eqn:Eq.
  - assert (Ej : j = 0) by (unfold j; lia).
    assert (Ek : k = 0) by (unfold k; lia).
    rewrite Ek, Ej in *.
    rewrite (binary_round_aux_normal (Z.pos p) 0 0) by (fold d; lia).
    change (2 ^ 0) with 1. now rewrite Z.mul_1_r.
  - assert (Ej : j = 0) by (unfold j; lia).
    assert (Ek : k = Z.pos q) by (unfold k; lia).
    rewrite Ek, Ej in *.
    rewrite (binary_round_aux_normal (Z.pos p) 0 (Z.pos q)) by (fold d; lia).
    change (2 ^ 0) with 1. now rewrite Z.mul_1_r, Z.sub_0_r.
  - assert (Ej : j = Z.pos q) by (unfold j; lia).
    assert (Ek : k = 0) by (unfold k; lia).
    rewrite Ek, Ej in *.
    rewrite (binary_round_aux_normal (Z.pos (Pos.iter xO p q)) (Z.neg q) 0);
      rewrite ?iter_xO; try lia.
    reflexivity.
Qed.

Lemma drop_bits_mono (k n n' : Z) :
  0 <= k -> 0 <= n <= n' ->
  drop_bits k n loc_Exact <= drop_bits k n' loc_Exact.
Proof.
  intros Hk Hn. unfold drop_bits. cbn [loc_bits].
  destruct (Z.eqb_spec k 0) as [->|K]; [unfold round_bits; cbn; lia|].
  set (h := 2 ^ (k - 1)).
  assert (Hh : 0 < h) by (apply Z.pow_pos_nonneg; lia).
  assert (E : 2 ^ k = h * 2).
  { unfold h. replace k with (Z.succ (k - 1)) at 1 by lia.
    rewrite Z.pow_succ_r by lia. lia. }
  rewrite E, <- !Z.div_div by lia.
  pose proof (Z.div_le_mono n n' h Hh ltac:(lia)) as Ma.
  pose proof (Z.div_mod n h ltac:(lia)) as Dn.
  pose proof (Z.div_mod n' h ltac:(lia)) as Dn'.
  pose proof (Z.mod_pos_bound n h Hh) as Bn.
  pose proof (Z.mod_pos_bound n' h Hh) as Bn'.
  set (a := n / h) in *. set (a' := n' / h) in *.
  set (b := n mod h) in *. set (b' := n' mod h) in *.
  pose proof (Z.div_le_mono a a' 2 ltac:(lia) Ma) as Mq.
  pose proof (Z.div_mod a 2 ltac:(lia)) as Da.
  pose proof (Z.div_mod a' 2 ltac:(lia)) as Da'.
  rewrite (Zmod_odd a) in Da. rewrite (Zmod_odd a') in Da'.
  unfold round_bits. rewrite !orb_false_r.
  clearbody a a' b b'.
  destruct (Z.eq_dec (a / 2) (a' / 2)) as [Q|Q].
  - rewrite <- Q in *.
    destruct (Z.odd a) eqn:Oa, (Z.odd a') eqn:Oa'; cbn [andb];
      destruct (Z.eqb_spec b 0), (Z.eqb_spec b' 0); cbn [negb orb];
      destruct (Z.odd (a / 2)); try lia.
    all: assert (Ea : a' = a) by lia; rewrite Ea in Dn'; lia.
  - destruct (Z.odd a && _), (Z.odd a' && _); lia.
Qed.

Lemma of_Z_ord (n : Z) :
  0 < n < 2 ^ 64 ->
  let d := Zdigits2 n in
  let k := Z.max (d - 53) 0 in
  let j := Z.max (53 - d) 0 in
  let m1 := drop_bits k (n * 2 ^ j) loc_Exact in
  normalized 52 (of_Z n) /\
  ord (of_Z n) = (d - 53) * 2 ^ 52 + m1 /\
  2 ^ 52 <= m1 <= 2 ^ 53 /\ 1 <= d <= 64.
Proof.
  intros Hn d k j m1.
  destruct (of_Z_normal n Hn) as (E & Dg & Hd). fold d k j in E, Dg, Hd.
  assert (Hj : 0 < 2 ^ j) by (apply Z.pow_pos_nonneg; lia).
  pose proof (Zdigits2_bounds (n * 2 ^ j) ltac:(nia)) as B. rewrite Dg in B.
  replace (53 + k - 1) with (52 + k) in B by lia.
  destruct (drop_bits_bounds k (n * 2 ^ j) loc_Exact ltac:(lia) B) as [B1 B2].
  fold m1 in E, B1.
  destruct (normal_ord 52 m1 (k - j) ltac:(lia) ltac:(lia)) as [N O].
  rewrite E. split; [exact N|]. split; [|split; [lia|exact Hd]].
  rewrite O. replace (k - j) with (d - 53) by lia. reflexivity.
Qed.

Lemma Zdigits2_mono (n n' : Z) : 0 < n <= n' -> Zdigits2 n <= Zdigits2 n'.
Proof.
  intros H. rewrite !Zdigits2_log2 by lia.
  pose proof (Z.log2_le_mono n n' ltac:(lia)). lia.
Qed.

(** Conversion to binary64 is monotone. *)
Lemma of_Z_mono (n n' : Z) :
  0 < n <= n' -> n' < 2 ^ 64 -> ord (of_Z n) <= ord (of_Z n').
Proof.
  intros H H'.
  destruct (of_Z_ord n ltac:(lia)) as (_ & O & B & Hd).
  destruct (of_Z_ord n' ltac:(lia)) as (_ & O' & B' & Hd').
  rewrite O, O'. pose proof (Zdigits2_mono n n' H) as M.
  set (d := Zdigits2 n) in *. set (d' := Zdigits2 n') in *.
  destruct (Z.eq_dec d d') as [<-|D].
  - apply Z.add_le_mono_l. apply drop_bits_mono; [lia|].
    assert (0 < 2 ^ Z.max (53 - d) 0) by (apply Z.pow_pos_nonneg; lia). nia.
  - change (2 ^ 53) with (2 * 2 ^ 52) in *.
    assert (0 < 2 ^ 52) by reflexivity. nia.
Qed.


Lemma ord_exponent (b : Z) (x y : double) :
  normalized b x -> normalized b y -> ord y <= ord x ->
  exists mx ex my ey,
    x = S754_finite false mx ex /\ y = S754_finite false my ey /\
    2 ^ 52 <= Z.pos mx < 2 ^ 53 /\ 2 ^ 52 <= Z.pos my < 2 ^ 53 /\
    - b <= ex <= b /\ - b <= ey <= b /\
    (ey < ex \/ (ey = ex /\ Z.pos my <= Z.pos mx)) /\
    (ord y < ord x -> ey < ex \/ (ey = ex /\ Z.pos my < Z.pos mx)).
Proof.
  intros (mx & ex & -> & Hmx & Hex) (my & ey & -> & Hmy & Hey) H.
  exists mx, ex, my, ey. cbn [ord] in *.
  change (2 ^ 53) with 9007199254740992 in *.
  change (2 ^ 52) with 4503599627370496 in *.
  repeat split; lia.
Qed.

Lemma compare_ord (b : Z) (x y : double) :
  normalized b x -> normalized b y ->
  SFcompare x y = Some (ord x ?= ord y).
Proof.
  intros (mx & ex & -> & Hmx & Hex) (my & ey & -> & Hmy & Hey).
  cbn [SFcompare ord]. f_equal.
  change (2 ^ 53) with 9007199254740992 in *.
  change (2 ^ 52) with 4503599627370496 in *.
  destruct (Z.compare_spec ex ey) as [E|E|E].
  - subst. change (Pos.compare_cont Eq mx my) with (Z.pos mx ?= Z.pos my).
    destruct (Z.compare_spec (Z.pos mx) (Z.pos my)); symmetry;
      [apply Z.compare_eq_iff | apply Z.compare_lt_iff | apply Z.compare_gt_iff]; lia.
  - symmetry. apply Z.compare_lt_iff. lia.
  - symmetry. apply Z.compare_gt_iff. lia.
Qed.

Lemma leb_ord (b : Z) (x y : double) :
  normalized b x -> normalized b y -> leb x y = (ord x <=? ord y).
Proof.
  intros Hx Hy. unfold leb, SFleb. rewrite (compare_ord b x y Hx Hy).
  unfold Z.leb. now destruct (ord x ?= ord y).
Qed.

Lemma eqb_ord (b : Z) (x y : double) :
  normalized b x -> normalized b y -> eqb x y = (ord x =? ord y).
Proof.
  intros Hx Hy. unfold eqb, SFeqb. rewrite (compare_ord b x y Hx Hy).
  destruct (Z.compare_spec (ord x) (ord y)) as [E|E|E].
  - rewrite E. now rewrite Z.eqb_refl.
  - symmetry. apply Z.eqb_neq. lia.
  - symmetry. apply Z.eqb_neq. lia.
Qed.

Lemma div_eucl_div_mod (a b : Z) : Z.div_eucl a b = (a / b, a mod b).
Proof. unfold Z.div, Z.modulo. now destruct (Z.div_eucl a b). Qed.

Lemma SFdiv_core_normal (mx my : positive) (ex ey : Z) :
  2 ^ 52 <= Z.pos mx < 2 ^ 53 -> 2 ^ 52 <= Z.pos my < 2 ^ 53 ->
  -52 <= ex <= 52 -> -52 <= ey <= 52 ->
  SFdiv_core_binary prec emax (Z.pos mx) ex (Z.pos my) ey =
  (Z.pos mx * 2 ^ 53 / Z.pos my, ex - ey - 53,
   new_location (Z.pos my) ((Z.pos mx * 2 ^ 53) mod Z.pos my)).
Proof.
  intros Hmx Hmy Hex Hey. unfold SFdiv_core_binary.
  rewrite (Zdigits2_unique (Z.pos mx) 53) by (replace (53 - 1) with 52 by lia; lia).
  rewrite (Zdigits2_unique (Z.pos my) 53) by (replace (53 - 1) with 52 by lia; lia).
  rewrite fexp_normal by lia.
  rewrite Z.min_l by lia.
  replace (ex - ey - (53 + ex - (53 + ey) - 53)) with 53 by lia.
  rewrite Z.shiftl_mul_pow2 by lia.
  rewrite div_eucl_div_mod. f_equal. f_equal. lia.
Qed.

Lemma new_location_bits (b r : Z) :
  0 < r ->
  let (rb, sb) := loc_bits (new_location b r) in
  rb || sb = true /\ (b < 2 * r -> rb = true /\ sb = true).
Proof.
  intros Hr. unfold new_location.
  destruct (Z.even b); unfold new_location_even, new_location_odd;
    (destruct (Z.eqb_spec r 0); [lia|]).
  - destruct (Z.compare_spec (2 * r) b); cbn [loc_bits orb]; split; auto; lia.
  - destruct (Z.compare_spec (2 * r + 1) b); cbn [loc_bits orb]; split; auto; lia.
Qed.

(** The quotient of two normalized numbers, the first at least the second,
    is at least one, and more than one when the first is the greater. *)
Lemma div_ord (x y : double) :
  normalized 52 x -> normalized 52 y -> ord y <= ord x ->
  normalized 200 (div x y) /\
  ord one <= ord (div x y) /\
  (ord y < ord x -> ord one < ord (div x y)).
Proof.
  intros Hx Hy H.
  destruct (ord_exponent 52 x y Hx Hy H)
    as (mx & ex & my & ey & -> & -> & Hmx & Hmy & Hex & Hey & Hle & Hlt).
  unfold div, SFdiv. rewrite SFdiv_core_normal by lia. cbn [xorb].
  set (q := Z.pos mx * 2 ^ 53 / Z.pos my).
  set (rem := (Z.pos mx * 2 ^ 53) mod Z.pos my).
  pose proof (Z.div_mod (Z.pos mx * 2 ^ 53) (Z.pos my) ltac:(lia)) as DM.
  pose proof (Z.mod_pos_bound (Z.pos mx * 2 ^ 53) (Z.pos my) ltac:(lia)) as RB.
  fold q rem in DM, RB.
  change (2 ^ 53) with 9007199254740992 in *.
  change (2 ^ 52) with 4503599627370496 in *.
  assert (Hq : 4503599627370496 <= q < 18014398509481984) by nia.
  assert (Hk : exists k, (k = 0 \/ k = 1) /\ Zdigits2 q = 53 + k /\
                 (k = 0 -> q < 9007199254740992) /\
                 (k = 1 -> 9007199254740992 <= q)).
  { destruct (Z.lt_ge_cases q 9007199254740992).
    - exists 0. repeat split; try lia. apply Zdigits2_unique; [cbn; lia|lia].
    - exists 1. repeat split; try lia. apply Zdigits2_unique; [cbn; lia|lia]. }
  destruct Hk as (k & Hk & Dq & K0 & K1).
  rewrite (binary_round_aux_normal q (ex - ey - 53) k) by lia.
  pose proof (Zdigits2_bounds q ltac:(lia)) as Bq. rewrite Dq in Bq.
  replace (53 + k - 1) with (52 + k) in Bq by lia.
  destruct (drop_bits_bounds k q (new_location (Z.pos my) rem) ltac:(lia) Bq)
    as [B1 B2].
  set (m1 := drop_bits k q (new_location (Z.pos my) rem)) in *.
  change (2 ^ 53) with 9007199254740992 in *.
  change (2 ^ 52) with 4503599627370496 in *.
  destruct (normal_ord 200 m1 (ex - ey - 53 + k)) as [N O]; [cbn; lia | lia |].
  split; [exact N|]. rewrite O.
  change (ord one) with (-52 * 4503599627370496 + 4503599627370496).
  change (2 ^ 52) with 4503599627370496.
  cbn [ord] in Hlt.
  assert (Q : q / 2 ^ k <= m1) by lia.
  split.
  - destruct Hk as [-> | ->]; [|lia].
    destruct Hle as [Hle|[Hle Hm]]; [lia|].
    exfalso. specialize (K0 eq_refl). nia.
  - intros Hs. specialize (Hlt Hs).
    destruct (Z.eq_dec ex ey) as [E|E].
    + (* same exponent: the quotient is at least 2^53 + 1 *)
      destruct Hlt as [?|[_ Hm]]; [lia|].
      assert (Hq1 : 9007199254740992 + 1 <= q) by nia.
      destruct Hk as [-> | ->]; [specialize (K0 eq_refl); lia|].
      destruct (Z.eq_dec q (9007199254740992 + 1)) as [Eq|Eq].
      * assert (Hrem : 0 < rem) by nia.
        pose proof (new_location_bits (Z.pos my) rem Hrem) as NB.
        unfold m1, drop_bits. destruct (loc_bits _) as [rb sb].
        destruct NB as [NB _]. cbn [Z.eqb Z.sub Z.pow_pos Pos.iter].
        rewrite Eq. cbn -[Z.mul Z.add]. rewrite NB. cbn. lia.
      * assert (9007199254740992 + 2 <= q) by lia.
        assert (4503599627370496 + 1 <= q / 2 ^ 1)
          by (apply Z.div_le_lower_bound; cbn; lia).
        lia.
    + assert (Hee : ey < ex) by lia.
      destruct Hk as [-> | ->]; [|lia].
      destruct (Z.eq_dec ex (ey + 1)) as [E1|E1]; [|lia].
      specialize (K0 eq_refl).
      destruct (Z.eq_dec q 4503599627370496) as [Eq|Eq].
      * assert (Hrem : Z.pos my < 2 * rem) by nia.
        pose proof (new_location_bits (Z.pos my) rem ltac:(lia)) as NB.
        unfold m1, drop_bits. destruct (loc_bits _) as [rb sb].
        destruct NB as [_ NB]. destruct (NB Hrem) as [-> ->].
        cbn [Z.eqb]. unfold round_bits. cbn [andb orb]. lia.
      * change (2 ^ 0) with 1 in Q. rewrite Z.div_1_r in Q. lia.
Qed.

Lemma of_Z_succ_lt (r : Z) :
  0 < r < 2 ^ 53 -> ord (of_Z r) < ord (of_Z (r + 1)).
Proof.
  intros Hr.
  assert (H64 : 2 ^ 53 < 2 ^ 64) by reflexivity.
  destruct (of_Z_ord r ltac:(lia)) as (_ & O & B & Hd).
  destruct (of_Z_normal r ltac:(lia)) as (_ & Dg & _).
  destruct (of_Z_ord (r + 1) ltac:(lia)) as (_ & O' & B' & Hd').
  rewrite O, O'. clear O O'.
  pose proof (Zdigits2_bounds r ltac:(lia)) as Br.
  pose proof (Zdigits2_bounds (r + 1) ltac:(lia)) as Br'.
  pose proof (Zdigits2_mono r (r + 1) ltac:(lia)) as M.
  set (d := Zdigits2 r) in *. set (d' := Zdigits2 (r + 1)) in *.
  assert (D53 : d <= 53).
  { destruct (Z.le_gt_cases d 53); [assumption|].
    assert (2 ^ 53 <= 2 ^ (d - 1)) by (apply Z.pow_le_mono_r; lia). lia. }
  assert (D' : d' <= d + 1).
  { destruct (Z.le_gt_cases d' (d + 1)); [assumption|].
    assert (2 ^ (d + 1) <= 2 ^ (d' - 1)) by (apply Z.pow_le_mono_r; lia).
    replace (d + 1) with (Z.succ d) in * by lia.
    rewrite Z.pow_succ_r in * by lia. lia. }
  replace (Z.max (d - 53) 0) with 0 in * by lia.
  replace (Z.max (53 - d) 0) with (53 - d) in * by lia.
  rewrite drop_bits_exact in *.
  pose proof (Zdigits2_bounds (r * 2 ^ (53 - d))) as Bm.
  rewrite Dg in Bm.
  assert (0 < 2 ^ (53 - d)) by (apply Z.pow_pos_nonneg; lia).
  specialize (Bm ltac:(nia)).
  replace (53 + 0) with 53 in Bm by lia.
  change (2 ^ 53) with 9007199254740992 in *.
  change (2 ^ 52) with 4503599627370496 in *.
  destruct (Z.eq_dec d' d) as [E|E].
  - rewrite E in *.
    replace (Z.max (d - 53) 0) with 0 in * by lia.
    replace (Z.max (53 - d) 0) with (53 - d) in * by lia.
    rewrite drop_bits_exact. nia.
  - assert (d' = d + 1) as -> by lia. lia.
Qed.

Lemma one_normalized : normalized 200 one /\ ord one = -51 * 2 ^ 52.
Proof.
  split; [|reflexivity].
  exists (Z.to_pos (2 ^ 52)), (-52). repeat split; cbn; lia.
Qed.

(** The quotient the aggregation computes. *)
Lemma div_of_Z_ge_one (e r : Z) :
  0 < r < e -> e < 2 ^ 64 ->
  leb one (div (of_Z e) (of_Z r)) = true /\
  (r < 2 ^ 53 -> eqb (div (of_Z e) (of_Z r)) one = false).
Proof.
  intros Hr He.
  destruct (of_Z_ord e ltac:(lia)) as (Ne & _).
  destruct (of_Z_ord r ltac:(lia)) as (Nr & _).
  pose proof (of_Z_mono r e ltac:(lia) He) as M.
  destruct (div_ord (of_Z e) (of_Z r) Ne Nr M) as (Nd & G & S).
  destruct one_normalized as [N1 _].
  split.
  - rewrite (leb_ord 200) by assumption. now apply Z.leb_le.
  - intros H53. rewrite (eqb_ord 200) by assumption. apply Z.eqb_neq.
    pose proof (of_Z_succ_lt r ltac:(lia)) as L.
    pose proof (of_Z_mono (r + 1) e ltac:(lia) He) as M'.
    specialize (S ltac:(lia)). lia.
Qed.

(** ** The scale of an aggregated summary *)

Lemma sum_step_in_range (acc : Sums) (c : CounterInfo) :
  U64.in_range (value_sum acc) /\ U64.in_range (time_enabled_sum acc) /\
  U64.in_range (time_running_sum acc) ->
  U64.in_range (value_sum (sum_step acc c)) /\
  U64.in_range (time_enabled_sum (sum_step acc c)) /\
  U64.in_range (time_running_sum (sum_step acc c)).
Proof.
  intros H. unfold sum_step.
  destruct (negb (time_running (counter c) =? 0)); [|exact H].
  cbn. unfold U64.in_range, U64.add, U64.wrap.
  assert (0 < U64.modulus) by reflexivity.
  repeat split; apply Z.mod_pos_bound; assumption.
Qed.

Lemma sum_counters_in_range (l : list CounterInfo) :
  U64.in_range (value_sum (sum_counters l)) /\
  U64.in_range (time_enabled_sum (sum_counters l)) /\
  U64.in_range (time_running_sum (sum_counters l)).
Proof.
  unfold sum_counters.
  assert (K : forall acc,
            U64.in_range (value_sum acc) /\ U64.in_range (time_enabled_sum acc) /\
            U64.in_range (time_running_sum acc) ->
            U64.in_range (value_sum (fold_left sum_step l acc)) /\
            U64.in_range (time_enabled_sum (fold_left sum_step l acc)) /\
            U64.in_range (time_running_sum (fold_left sum_step l acc))).
  { induction l as [|c l IH]; intros acc H; [exact H|].
    cbn [fold_left]. apply IH, sum_step_in_range, H. }
  apply K. cbn. unfold U64.in_range. repeat split; try lia; reflexivity.
Qed.

(** C1, as the code has it: the scale of an aggregated summary is at least
    1.0; it is 1.0 whenever the running-time sum is at least the
    enabled-time sum, in particular when every readout is excluded; and
    conversely, when the running-time sum is positive and below [2^53], a
    scale of 1.0 means that the running-time sum is at least the
    enabled-time sum. *)
Theorem compute_scale_at_least_one (l : list CounterInfo) :
  let sums := sum_counters l in
  leb one (compute_scale sums) = true /\
  (time_enabled_sum sums <= time_running_sum sums -> compute_scale sums = one) /\
  (included l = [] -> compute_scale sums = one) /\
  (0 < time_running_sum sums < 2 ^ 53 ->
   eqb (compute_scale sums) one = true ->
   time_enabled_sum sums <= time_running_sum sums) /\
  (forall csv sel,
     scale (summarize csv {| selection := sel; counters := l |}) = compute_scale sums).
Proof.
  intros sums.
  destruct (sum_counters_in_range l) as (_ & He & Hr). fold sums in He, Hr.
  unfold U64.in_range in He, Hr. change U64.modulus with (2 ^ 64) in He, Hr.
  assert (Hle : time_enabled_sum sums <= time_running_sum sums ->
                compute_scale sums = one).
  { intros H. unfold compute_scale.
    destruct (Z.ltb_spec (time_running_sum sums) (time_enabled_sum sums));
      [lia|reflexivity]. }
  split; [|split; [exact Hle|split; [|split]]].
  - unfold compute_scale.
    destruct (Z.ltb_spec (time_running_sum sums) (time_enabled_sum sums));
      [|reflexivity].
    destruct (Z.eqb_spec (time_running_sum sums) 0); [reflexivity|].
    cbn [negb andb]. apply div_of_Z_ge_one; lia.
  - intros Hin. apply Hle. unfold sums.
    rewrite (sum_counters_included l), Hin.
    cbn. lia.
  - intros Hrun Heq.
    destruct (Z.le_gt_cases (time_enabled_sum sums) (time_running_sum sums))
      as [|Hlt]; [assumption|exfalso].
    unfold compute_scale in Heq.
    destruct (Z.ltb_spec (time_running_sum sums) (time_enabled_sum sums)); [|lia].
    destruct (Z.eqb_spec (time_running_sum sums) 0); [lia|].
    cbn [negb andb] in Heq.
    destruct (div_of_Z_ge_one (time_enabled_sum sums) (time_running_sum sums))
      as [_ Hne]; [lia|lia|].
    rewrite Hne in Heq by lia. discriminate.
  - reflexivity.
Qed.

Lemma compute_scale_at_least_one_witness :
  leb one (compute_scale
             (sum_counters [Sample.idle_readout; Sample.half_readout])) = true /\
  compute_scale (sum_counters [Sample.idle_readout]) = one.
Proof.
  split.
  - exact (proj1 (compute_scale_at_least_one
                    [Sample.idle_readout; Sample.half_readout])).
  - exact (proj1 (proj2 (proj2 (compute_scale_at_least_one [Sample.idle_readout])))
             eq_refl).
Defined.

(** C1 as the specification words it does not hold: converted to binary64,
    an enabled time of [2^53 + 1] and a running time of [2^53] are the same
    number, so the scale is 1.0 although the event ran for less than the
    time it was enabled. *)
Lemma compute_scale_counterexample :
  let sums := sum_counters [Sample.long_readout] in
  eqb (compute_scale sums) one = true /\
  compute_scale sums = one /\
  time_running_sum sums < time_enabled_sum sums.
Proof. vm_compute. repeat split. Qed.

Example compute_scale_examples :
  compute_scale (sum_counters [Sample.idle_readout; Sample.half_readout]) = of_Z 2 /\
  compute_scale (sum_counters [Sample.idle_readout]) = one /\
  sum_counters [Sample.idle_readout; Sample.half_readout] =
    {| value_sum := 40; time_enabled_sum := 1000; time_running_sum := 500 |}.
Proof. vm_compute. repeat split. Qed.

(** * Further properties *)

(** ** Aggregation *)

Lemma U64_add_assoc (a b c : Z) : U64.add (U64.add a b) c = U64.add a (U64.add b c).
Proof.
  unfold U64.add, U64.wrap.
  rewrite Zplus_mod_idemp_l, Zplus_mod_idemp_r. f_equal. lia.
Qed.

Lemma U64_add_swap (a b c : Z) : U64.add (U64.add a b) c = U64.add (U64.add a c) b.
Proof.
  unfold U64.add, U64.wrap. rewrite !Zplus_mod_idemp_l. f_equal. lia.
Qed.

Lemma sum_step_swap (acc : Sums) (x y : CounterInfo) :
  sum_step (sum_step acc x) y = sum_step (sum_step acc y) x.
Proof.
  unfold sum_step.
  destruct (negb (time_running (counter x) =? 0)),
           (negb (time_running (counter y) =? 0)); cbn; try reflexivity.
  f_equal; apply U64_add_swap.
Qed.

Lemma fold_sum_step_permutation (l l' : list CounterInfo) :
  Permutation l l' ->
  forall acc, fold_left sum_step l acc = fold_left sum_step l' acc.
Proof.
  induction 1 as [|x l l' _ IH|x y l|l l' l'' _ IH1 _ IH2]; intros acc; cbn.
  - reflexivity.
  - apply IH.
  - now rewrite sum_step_swap.
  - now rewrite IH1, IH2.
Qed.

(** X1: the order in which the readouts of a selection arrive does not
    matter: any rearrangement of the list gives the same three sums, and so
    the same scale. *)
Theorem sum_counters_permutation (l l' : list CounterInfo) :
  Permutation l l' ->
  sum_counters l = sum_counters l' /\
  compute_scale (sum_counters l) = compute_scale (sum_counters l').
Proof.
  intros H. unfold sum_counters.
  rewrite (fold_sum_step_permutation l l' H). split; reflexivity.
Qed.

Lemma sum_counters_permutation_witness :
  sum_counters [Sample.idle_readout; Sample.half_readout; Sample.long_readout] =
  sum_counters [Sample.long_readout; Sample.idle_readout; Sample.half_readout] /\
  compute_scale
    (sum_counters [Sample.idle_readout; Sample.half_readout; Sample.long_readout]) =
  compute_scale
    (sum_counters [Sample.long_readout; Sample.idle_readout; Sample.half_readout]).
Proof.
  apply sum_counters_permutation.
  apply Permutation_sym.
  apply (Permutation_cons_app [Sample.idle_readout; Sample.half_readout] []).
  rewrite app_nil_r. apply Permutation_refl.
Defined.

Lemma sum_counters_fields (l : list CounterInfo) :
  sum_counters l =
  {| value_sum := sum_field value (included l);
     time_enabled_sum := sum_field time_enabled (included l);
     time_running_sum := sum_field time_running (included l) |}.
Proof.
  unfold sum_counters. rewrite fold_sum_step_included.
  now rewrite (fold_sum_step_fields _ _ (included_ran l)).
Qed.

Lemma U64_add_wrap_r (a b : Z) : U64.add a (U64.wrap b) = U64.add a b.
Proof. unfold U64.add, U64.wrap. now rewrite Zplus_mod_idemp_r. Qed.

Lemma U64_add_wrap_l (a b : Z) : U64.add (U64.wrap a) b = U64.add a b.
Proof. unfold U64.add, U64.wrap. now rewrite Zplus_mod_idemp_l. Qed.

Lemma fold_add_shift (f : PerfCounter -> Z) (l : list CounterInfo) : forall a,
  U64.wrap (fold_left (fun acc c => U64.add acc (f (counter c))) l a) =
  U64.add a (fold_left (fun acc c => U64.add acc (f (counter c))) l 0).
Proof.
  induction l as [|x l IH]; intros a; cbn [fold_left].
  - unfold U64.add. now rewrite Z.add_0_r.
  - rewrite IH.
    rewrite <- (U64_add_wrap_r a (fold_left _ l (U64.add 0 (f (counter x))))), IH.
    rewrite U64_add_assoc.
    replace (U64.add 0 (f (counter x))) with (U64.wrap (f (counter x)))
      by (unfold U64.add; now rewrite Z.add_0_l).
    now rewrite U64_add_wrap_l.
Qed.

Lemma sum_field_app (f : PerfCounter -> Z) (l1 l2 : list CounterInfo) :
  U64.wrap (sum_field f (l1 ++ l2)) = U64.add (sum_field f l1) (sum_field f l2).
Proof.
  unfold sum_field. rewrite fold_left_app. apply fold_add_shift.
Qed.

(** X2: aggregation is additive: the sums over two lists of readouts put
    together are the [uint64_t] sums of the sums over each. *)
Theorem sum_counters_app (l1 l2 : list CounterInfo) :
  sum_counters (l1 ++ l2) =
  {| value_sum := U64.add (value_sum (sum_counters l1)) (value_sum (sum_counters l2));
     time_enabled_sum :=
       U64.add (time_enabled_sum (sum_counters l1)) (time_enabled_sum (sum_counters l2));
     time_running_sum :=
       U64.add (time_running_sum (sum_counters l1)) (time_running_sum (sum_counters l2)) |}.
Proof.
  destruct (sum_counters_in_range (l1 ++ l2)) as (R1 & R2 & R3).
  rewrite (sum_counters_fields (l1 ++ l2)) in *.
  rewrite (sum_counters_fields l1), (sum_counters_fields l2).
  cbn [value_sum time_enabled_sum time_running_sum] in *.
  unfold included in *. rewrite filter_app in *. fold (included l1) (included l2) in *.
  rewrite <- !sum_field_app. unfold U64.wrap, U64.in_range in *.
  now rewrite !Z.mod_small by assumption.
Qed.

(** ** From the readouts to the rows of the report *)

Lemma build_summaries_map (csv : bool) (l : list CountersInfo) :
  build_summaries csv l =
  {| summaries_ := map (summarize csv) l; csv_ := csv |}.
Proof.
  unfold build_summaries.
  assert (K : forall cs,
            fold_left (fun cs counters_info => AddSummary cs (summarize csv counters_info))
              l cs = extend cs (map (summarize csv) l)).
  { induction l as [|c l IH]; intros cs; cbn [fold_left map].
    - now rewrite extend_nil.
    - rewrite IH. unfold AddSummary, extend. cbn. now rewrite <- app_assoc. }
  rewrite K. reflexivity.
Qed.

Lemma GenerateComments_nth (cs : CounterSummaries) (d : double) (i : nat) :
  nth_error (summaries_ (GenerateComments cs d)) i =
  option_map (fun s => set_comment s (GetCommentForSummary cs s d))
             (nth_error (summaries_ cs) i).
Proof. unfold GenerateComments. cbn. apply nth_error_map. Qed.

(** X3: the report has one row for each selection, in the order of the
    selections and before every generated row: row [i] carries the name,
    modifier and group of selection [i], the sum of its counters and the
    scale computed from them, is not marked as generated, and its comment is
    the one derived against the whole collection. *)
Theorem ShowCounters_summaries_rows
    (csv : bool) (l : list CountersInfo) (duration : double) :
  exists ext,
    let cs := extend (build_summaries csv l) ext in
    ShowCounters_summaries csv l duration = Some (GenerateComments cs duration) /\
    List.length (summaries_ (GenerateComments cs duration))
      = (List.length l + List.length ext)%nat /\
    Forall (fun g => auto_generated g = true) ext /\
    forall i counters_info,
      nth_error l i = Some counters_info ->
      exists row,
        nth_error (summaries_ (GenerateComments cs duration)) i = Some row /\
        type_name row = event_name (selection counters_info) /\
        modifier row = event_modifier (selection counters_info) /\
        group_id row = selection_group_id (selection counters_info) /\
        count row = value_sum (sum_counters (counters counters_info)) /\
        scale row = compute_scale (sum_counters (counters counters_info)) /\
        auto_generated row = false /\
        comment row = GetCommentForSummary cs (summarize csv counters_info) duration.
Proof.
  destruct (fold_body_extends (summaries_ (build_summaries csv l)) (build_summaries csv l))
    as (ext & E & Hall & _).
  exists ext. cbv zeta.
  unfold ShowCounters_summaries. rewrite AutoGenerate_terminates, E.
  split; [reflexivity|]. split; [|split].
  - unfold GenerateComments. cbn [summaries_]. rewrite length_map.
    unfold extend. cbn [summaries_]. rewrite length_app, build_summaries_map.
    cbn [summaries_]. now rewrite length_map.
  - eapply Forall_impl; [|exact Hall]. now intros g [_ Hg].
  - intros i ci Hi. rewrite GenerateComments_nth.
    assert (S : summaries_ (extend (build_summaries csv l) ext)
                = (map (summarize csv) l ++ ext)%list)
      by (rewrite build_summaries_map; reflexivity).
    rewrite S.
    rewrite nth_error_app1
      by (rewrite length_map; apply nth_error_Some; congruence).
    rewrite nth_error_map, Hi. cbn [option_map].
    eexists. split; [reflexivity|]. cbn. repeat split; reflexivity.
Qed.

(** X4: events that were never time-shared are monitored at the same time:
    when, for each of two selections, the running-time sum is at least the
    enabled-time sum, their summaries pass the test whatever groups they are
    in. *)
Theorem summaries_never_shared_monitored_together
    (csv : bool) (a b : CountersInfo) :
  time_enabled_sum (sum_counters (counters a))
    <= time_running_sum (sum_counters (counters a)) ->
  time_enabled_sum (sum_counters (counters b))
    <= time_running_sum (sum_counters (counters b)) ->
  IsMonitoredAllTheTime (summarize csv a) = true /\
  IsMonitoredAtTheSameTime (summarize csv a) (summarize csv b) = true.
Proof.
  intros Ha Hb.
  assert (K : forall c, time_enabled_sum (sum_counters (counters c))
                          <= time_running_sum (sum_counters (counters c)) ->
                        IsMonitoredAllTheTime (summarize csv c) = true).
  { intros c Hc. unfold IsMonitoredAllTheTime, summarize. cbn [scale mkCounterSummary].
    unfold compute_scale.
    destruct (Z.ltb_spec (time_running_sum (sum_counters (counters c)))
                         (time_enabled_sum (sum_counters (counters c)))); [lia|].
    cbn [andb]. vm_compute. reflexivity. }
  split; [now apply K|].
  unfold IsMonitoredAtTheSameTime. rewrite (K a Ha), (K b Hb).
  now destruct (_ =? _).
Qed.

Lemma summaries_never_shared_monitored_together_witness :
  let a := {| selection := {| event_name := "cpu-cycles"; event_modifier := "";
                              selection_group_id := 0 |};
              counters := [Sample.idle_readout] |} in
  let b := {| selection := {| event_name := "instructions"; event_modifier := "";
                              selection_group_id := 1 |};
              counters := [] |} in
  IsMonitoredAllTheTime (summarize false a) = true /\
  IsMonitoredAtTheSameTime (summarize false a) (summarize false b) = true.
Proof.
  apply summaries_never_shared_monitored_together; vm_compute; discriminate.
Defined.

(** ** What auto-generation can add *)

Lemma fold_body_sound (cs : CounterSummaries) (todo : list CounterSummary) : forall e,
  Forall (fun g => modifier g = "") e ->
  exists e',
    fold_left AutoGenerate_body todo (extend cs e) = extend cs (e ++ e') /\
    Forall (fun g => exists s o,
              In s todo /\ modifier s = "u" /\
              FindSummary cs (type_name s) "k" = Some o /\
              IsMonitoredAtTheSameTime o s = true /\
              FindSummary cs (type_name s) "" = None /\
              g = combined_summary (csv_ cs) s o) e'.
Proof.
  induction todo as [|x todo IH]; intros e He.
  - exists []. cbn. rewrite app_nil_r. split; [reflexivity|constructor].
  - cbn [fold_left].
    destruct (AutoGenerate_body_cases (extend cs e) x)
      as [E|(o & Hu & Hk & Hm & Hnone & E)]; rewrite E.
    + destruct (IH e He) as (e' & E' & H'). exists e'. split; [exact E'|].
      eapply Forall_impl; [|exact H'].
      intros g (s & o & Hin & R). exists s, o. split; [now right|exact R].
    + rewrite FindSummary_extend_other in Hk by (assumption || discriminate).
      assert (Hnone' : FindSummary cs (type_name x) "" = None).
      { rewrite FindSummary_extend in Hnone.
        now destruct (FindSummary cs (type_name x) ""). }
      rewrite extend_extend.
      destruct (IH (e ++ [combined_summary (csv_ (extend cs e)) x o])%list)
        as (e' & E' & H').
      { apply Forall_app. split; [assumption|]. now repeat constructor. }
      exists (combined_summary (csv_ cs) x o :: e'). rewrite E'.
      split; [now rewrite <- app_assoc|].
      constructor.
      * exists x, o. repeat split; auto. now left.
      * eapply Forall_impl; [|exact H'].
        intros g (s & o' & Hin & R). exists s, o'. split; [now right|exact R].
Qed.

(** X5: auto-generation adds nothing of its own: every summary it appends
    is the combination of a user-space summary of the collection with the
    kernel-space summary of the same event, the two monitored at the same
    time, for an event the collection had no summary without modifier of.
    So a collection without user-space summaries is left as it is, and an
    event the user asked for without modifier is never reported twice. *)
Theorem AutoGenerateSummaries_sound (cs : CounterSummaries) :
  exists ext,
    AutoGenerateSummaries cs = Some (extend cs ext) /\
    Forall (fun g => exists s o,
              In s (summaries_ cs) /\ modifier s = "u" /\
              FindSummary cs (type_name s) "k" = Some o /\
              IsMonitoredAtTheSameTime o s = true /\
              FindSummary cs (type_name s) "" = None /\
              g = combined_summary (csv_ cs) s o) ext /\
    (Forall (fun s => modifier s <> "u") (summaries_ cs) -> ext = []) /\
    (forall T, FindSummary cs T "" <> None -> Forall (fun g => type_name g <> T) ext).
Proof.
  destruct (fold_body_sound cs (summaries_ cs) [] ltac:(constructor)) as (ext & E & H).
  rewrite extend_nil in E. cbn [app] in E.
  exists ext. rewrite AutoGenerate_terminates. split; [now rewrite E|].
  split; [exact H|]. split.
  - intros Hno. destruct ext as [|g ext]; [reflexivity|exfalso].
    inversion H as [|? ? (s & o & Hin & Hu & _) _]; subst.
    rewrite Forall_forall in Hno. exact (Hno s Hin Hu).
  - intros T HT. eapply Forall_impl; [|exact H].
    intros g (s & o & _ & _ & _ & _ & Hnone & ->) Hg. cbn in Hg.
    rewrite Hg in Hnone. contradiction.
Qed.

(** X6: "monitored at the same time" is not transitive.  Take a summary
    [a] that was time-shared, a summary [b] of the same group that was
    monitored all the time, and a summary [c] of another group that was
    monitored all the time: [a] and [b] pass the test, [b] and [c] pass it,
    and [a] and [c] do not. *)
Theorem IsMonitoredAtTheSameTime_not_transitive (a b c : CounterSummary) :
  group_id a = group_id b ->
  group_id b <> group_id c ->
  IsMonitoredAllTheTime a = false ->
  IsMonitoredAllTheTime b = true ->
  IsMonitoredAllTheTime c = true ->
  IsMonitoredAtTheSameTime a b = true /\
  IsMonitoredAtTheSameTime b c = true /\
  IsMonitoredAtTheSameTime a c = false.
Proof.
  intros Hab Hbc Ha Hb Hc. unfold IsMonitoredAtTheSameTime.
  rewrite Ha, Hb, Hc, Hab, Z.eqb_refl.
  destruct (Z.eqb_spec (group_id b) (group_id c)); [contradiction|].
  repeat split.
Qed.

Lemma IsMonitoredAtTheSameTime_not_transitive_witness :
  let a := mkCounterSummary "cpu-cycles" "" 1 10 (of_Z 2) false false in
  let b := mkCounterSummary "instructions" "" 1 10 one false false in
  let c := mkCounterSummary "page-faults" "" 2 10 one false false in
  IsMonitoredAtTheSameTime a b = true /\
  IsMonitoredAtTheSameTime b c = true /\
  IsMonitoredAtTheSameTime a c = false.
Proof.
  apply IsMonitoredAtTheSameTime_not_transitive;
    try (vm_compute; reflexivity); discriminate.
Defined.

(** ** The shape of a readable count *)

Lemma list_ascii_app (a b : string) :
  list_ascii_of_string (a ++ b) = (list_ascii_of_string a ++ list_ascii_of_string b)%list.
Proof. induction a as [|c a IH]; cbn; [reflexivity | now rewrite IH]. Qed.

Lemma no_comma_app (a b : string) : no_comma a -> no_comma b -> no_comma (a ++ b).
Proof.
  unfold no_comma. rewrite list_ascii_app. intros Ha Hb. apply Forall_app. now split.
Qed.

Lemma no_comma_digits (d : Decimal.uint) : no_comma (NilEmpty.string_of_uint d).
Proof.
  unfold no_comma.
  induction d; cbn; constructor; try assumption; discriminate.
Qed.

Lemma no_comma_decimal (n : Z) : no_comma (decimal n).
Proof.
  unfold decimal, NilZero.string_of_uint.
  destruct (N.to_uint (Z.to_N n)) eqn:E; try (rewrite <- E; apply no_comma_digits);
    try (apply no_comma_digits).
  repeat constructor. discriminate.
Qed.

Lemma no_comma_zeros (n : nat) : no_comma (Double.zeros n).
Proof.
  induction n as [|n IH]; [constructor|].
  cbn [Double.zeros]. apply no_comma_app; [|exact IH]. repeat constructor. discriminate.
Qed.

Lemma no_comma_format_f (p : nat) (x : double) : no_comma (format_f p x).
Proof.
  assert (S : forall b, no_comma (Double.sign_prefix b))
    by (intros []; repeat constructor; discriminate).
  assert (F : forall n, no_comma (Double.fixed_digits p n)).
  { intros n. unfold Double.fixed_digits. destruct p; [apply no_comma_decimal|].
    apply no_comma_app; [apply no_comma_decimal|].
    apply no_comma_app; [repeat constructor; discriminate|].
    unfold Double.pad_left.
    apply no_comma_app; [apply no_comma_zeros | apply no_comma_decimal]. }
  destruct x; cbn [format_f]; try apply no_comma_app; auto;
    repeat constructor; discriminate.
Qed.

Lemma filter_no_comma (l : list ascii) :
  Forall (fun c => c <> ","%char) l ->
  filter (fun c => negb (Ascii.eqb c ",")) l = l.
Proof.
  induction 1 as [|x l Hx _ IH]; [reflexivity|].
  cbn. destruct (Ascii.eqb_spec x ","); [contradiction|]. cbn. now rewrite IH.
Qed.

(** X7: the machine-parsable count is one field, and the table-mode count
    is the same text with separators put in: for every event and count, the
    count printed in machine-parsable mode contains no comma, and taking the
    commas out of the count printed in table mode gives it back. *)
Theorem ReadableCountValue_strip_commas (name : string) (n : Z) :
  no_comma (ReadableCountValue name n true) /\
  strip_commas (ReadableCountValue name n false) = ReadableCountValue name n true.
Proof.
  assert (N : no_comma (ReadableCountValue name n true)).
  { unfold ReadableCountValue. destruct (is_clock name).
    - apply no_comma_app; [apply no_comma_format_f|]. repeat constructor; discriminate.
    - apply no_comma_decimal. }
  split; [exact N|].
  unfold strip_commas.
  unfold ReadableCountValue in *. destruct (is_clock name).
  - rewrite filter_no_comma by exact N. apply string_of_list_ascii_of_string.
  - rewrite comma_loop_groups, list_ascii_of_string_of_list_ascii.
    rewrite filter_rev, group_from_low_digits.
    + rewrite rev_involutive. apply string_of_list_ascii_of_string.
    + apply Forall_rev. exact N.
Qed.

Lemma group_from_low_length_bounded (n : nat) : forall r,
  (List.length r <= n)%nat ->
  List.length (group_from_low r) = (List.length r + (List.length r - 1) / 3)%nat.
Proof.
  induction n as [|n IH]; intros r Hn.
  - destruct r; [reflexivity | cbn in Hn; lia].
  - destruct r as [|a [|b [|c [|d r]]]]; try reflexivity.
    change (group_from_low (a :: b :: c :: d :: r))
      with (a :: b :: c :: ","%char :: group_from_low (d :: r)).
    cbn [List.length] in *. rewrite (IH (d :: r)) by (cbn; lia).
    cbn [List.length].
    replace (S (S (S (S (List.length r)))) - 1)%nat
      with (S (List.length r) - 1 + 1 * 3)%nat by lia.
    rewrite Nat.div_add by lia. lia.
Qed.

Lemma string_length_list (s : string) :
  String.length s = List.length (list_ascii_of_string s).
Proof. induction s as [|c s IH]; cbn; congruence. Qed.

(** X8: in table mode the count of an event that is not a clock has one
    separator for every full group of three digits after the first digit:
    with [n] digits the text is [n + (n - 1) / 3] characters long. *)
Theorem ReadableCountValue_table_length (name : string) (n : Z) :
  is_clock name = false ->
  String.length (ReadableCountValue name n false) =
  (String.length (U64.to_string n) + (String.length (U64.to_string n) - 1) / 3)%nat.
Proof.
  intros H. unfold ReadableCountValue. rewrite H.
  rewrite comma_loop_groups, !string_length_list.
  rewrite list_ascii_of_string_of_list_ascii, length_rev.
  rewrite (group_from_low_length_bounded (List.length (rev (list_ascii_of_string (U64.to_string n)))))
    by lia.
  now rewrite length_rev.
Qed.

Lemma ReadableCountValue_table_length_witness :
  String.length (ReadableCountValue "page-faults" 1234567 false) =
  (String.length (U64.to_string 1234567)
   + (String.length (U64.to_string 1234567) - 1) / 3)%nat.
Proof. apply ReadableCountValue_table_length. reflexivity. Defined.

(** ** More of the comment rules *)

(** X9: cycles per instruction.  For an [instructions] summary with a count
    other than zero, when the [cpu-cycles] summary with the same modifier
    exists and is monitored at the same time, the comment is the cycle count
    over the instruction count, followed by the separator and
    [cycles per instruction]. *)
Theorem GetCommentForSummary_cycles_per_instruction
    (cs : CounterSummaries) (s o : CounterSummary) (duration : double) :
  type_name s = "instructions" ->
  count s <> 0 ->
  FindSummary cs "cpu-cycles" (modifier s) = Some o ->
  IsMonitoredAtTheSameTime o s = true ->
  GetCommentForSummary cs s duration =
    format_f 6 (div (of_Z (count o)) (of_Z (count s)))
    ++ String (if csv_ cs then "," else " ")%char "cycles per instruction".
Proof.
  intros Hn Hc Hf Hm. unfold GetCommentForSummary, cpi_comment.
  rewrite Hn. cbn [String.eqb Ascii.eqb Bool.eqb andb].
  destruct (Z.eqb_spec (count s) 0); [contradiction|]. cbn [negb].
  now rewrite Hf, Hm.
Qed.

Lemma GetCommentForSummary_cycles_per_instruction_witness :
  GetCommentForSummary (sample_cycle_pair false) sample_instructions one =
    format_f 6 (div (of_Z 2000000000) (of_Z 1000000000))
    ++ String " "%char "cycles per instruction".
Proof.
  apply (GetCommentForSummary_cycles_per_instruction (sample_cycle_pair false)
           sample_instructions sample_cycles one); try reflexivity. discriminate.
Defined.

Example GetCommentForSummary_cycles_per_instruction_example :
  GetCommentForSummary (sample_cycle_pair false) sample_instructions one =
    "2.000000 cycles per instruction".
Proof. vm_compute. reflexivity. Qed.

(** X10: no ratio is taken over a count of zero.  An [instructions] summary
    that counted nothing, and a [-misses] summary whose reference summary
    counted nothing, get the comment of an event without a rule: the rate. *)
Theorem GetCommentForSummary_zero_count
    (cs : CounterSummaries) (s : CounterSummary) (duration : double) :
  (type_name s = "instructions" /\ count s = 0) \/
  (EndsWith (type_name s) "-misses" = true /\
   exists o, FindSummary cs (misses_other_name (type_name s)) (modifier s) = Some o /\
             count o = 0) ->
  GetCommentForSummary cs s duration =
    rate_comment (if csv_ cs then "," else " ")%char
      (div (of_Z (count s)) (div duration (scale s))).
Proof.
  intros [[Hn Hc]|[He (o & Hf & Hc)]].
  - unfold GetCommentForSummary, cpi_comment, miss_rate_comment.
    rewrite Hn, Hc. reflexivity.
  - destruct (misses_not_special _ He) as (N1 & N2 & N3 & N4).
    unfold GetCommentForSummary, cpi_comment, miss_rate_comment.
    destruct (String.eqb_spec (type_name s) "task-clock"); [contradiction|].
    destruct (String.eqb_spec (type_name s) "cpu-clock"); [contradiction|].
    destruct (String.eqb_spec (type_name s) "cpu-cycles"); [contradiction|].
    destruct (String.eqb_spec (type_name s) "instructions"); [contradiction|].
    cbn [andb]. rewrite He, Hf, Hc. cbn. now rewrite andb_false_r.
Qed.

Lemma GetCommentForSummary_zero_count_witness :
  GetCommentForSummary sample_misses_alone Sample.misses one =
    rate_comment " "%char (div (of_Z 50) (div one one)).
Proof.
  apply (GetCommentForSummary_zero_count sample_misses_alone Sample.misses one).
  right. split; [reflexivity|]. exists sample_no_branches. split; reflexivity.
Defined.

(** *** Comments do not depend on comments *)

Lemma find_map_stable {A} (p : A -> bool) (f : A -> A) (l : list A) :
  (forall x, p (f x) = p x) ->
  find p (map f l) = option_map f (find p l).
Proof.
  intros H. induction l as [|x l IH]; cbn; [reflexivity|].
  rewrite H. now destruct (p x).
Qed.

Lemma FindSummary_GenerateComments cs d name m :
  FindSummary (GenerateComments cs d) name m =
  option_map (fun s => set_comment s (GetCommentForSummary cs s d))
             (FindSummary cs name m).
Proof.
  unfold FindSummary, GenerateComments. cbn [summaries_].
  now apply find_map_stable.
Qed.

Lemma IsMonitoredAtTheSameTime_set_comment a b ca cb :
  IsMonitoredAtTheSameTime (set_comment a ca) (set_comment b cb) =
  IsMonitoredAtTheSameTime a b.
Proof. reflexivity. Qed.

Lemma GetCommentForSummary_frame cs d1 s c d2 :
  GetCommentForSummary (GenerateComments cs d1) (set_comment s c) d2 =
  GetCommentForSummary cs s d2.
Proof.
  unfold GetCommentForSummary, cpi_comment, miss_rate_comment.
  cbn [type_name modifier count scale set_comment csv_ GenerateComments].
  rewrite !FindSummary_GenerateComments.
  destruct (FindSummary cs "cpu-cycles" (modifier s)) as [o1|];
    destruct (FindSummary cs (misses_other_name (type_name s)) (modifier s)) as [o2|];
    cbn [option_map]; reflexivity.
Qed.

(** X11: a comment is derived from names, modifiers, groups, counts and
    scales only: generating the comments leaves every other field of every
    summary as it was, and generating them again, for the same or another
    duration, gives what generating them once for that duration gives. *)
Theorem GenerateComments_independent (cs : CounterSummaries) (d1 d2 : double) :
  GenerateComments (GenerateComments cs d1) d2 = GenerateComments cs d2 /\
  map (fun s => set_comment s "") (summaries_ (GenerateComments cs d1)) =
    map (fun s => set_comment s "") (summaries_ cs) /\
  csv_ (GenerateComments cs d1) = csv_ cs.
Proof.
  split; [|split; [|reflexivity]].
  - assert (E : map (fun s => set_comment s
                               (GetCommentForSummary (GenerateComments cs d1) s d2))
                    (summaries_ (GenerateComments cs d1)) =
                map (fun s => set_comment s (GetCommentForSummary cs s d2))
                    (summaries_ cs)).
    { unfold GenerateComments at 2. cbn [summaries_]. rewrite map_map.
      apply map_ext. intros s. rewrite GetCommentForSummary_frame. reflexivity. }
    unfold GenerateComments at 1. rewrite E. reflexivity.
  - unfold GenerateComments. cbn [summaries_]. rewrite map_map. reflexivity.
Qed.

(** ** More of option parsing *)

Section ParseOptionsMore.
Variable EventSelectionSet : Type.
Variable AddEventType : EventSelectionSet -> string -> option EventSelectionSet.
Variable AddEventGroup : EventSelectionSet -> list string -> option EventSelectionSet.
Variable GetCpusFromString : string -> list Z.
Variable GetValidThreadsFromProcessString : string -> list Z -> option (list Z).
Variable GetValidThreadsFromThreadString : string -> list Z -> option (list Z).
Variable IsRoot : bool.
Variable Split : string -> list string.
Variable strtod : string -> double * bool.

Local Abbreviation scan := (scan_options AddEventType AddEventGroup GetCpusFromString
  GetValidThreadsFromProcessString GetValidThreadsFromThreadString Split strtod).
Local Abbreviation parse := (ParseOptions AddEventType AddEventGroup GetCpusFromString
  GetValidThreadsFromProcessString GetValidThreadsFromThreadString IsRoot Split strtod).

Ltac scan_cases H :=
  repeat match type of H with
  | (if ?b then _ else _) = _ => destruct b eqn:?
  | match ?l with [] => _ | _ :: _ => _ end = _ =>
      let v := fresh "v" in let r := fresh "r" in
      destruct l as [|v r]; [discriminate|]; cbn [app]
  | match ?o with Some _ => _ | None => _ end = _ => destruct o eqn:?; [|discriminate]
  | inl _ = inr _ => discriminate
  end.

Lemma scan_app_bounded (n : nat) : forall pre st st1 suf,
  (List.length pre <= n)%nat ->
  scan pre st = inr (st1, []) ->
  scan (pre ++ suf) st = scan suf st1.
Proof.
  induction n as [|n IH]; intros pre st st1 suf Hn H.
  - destruct pre; [|cbn in Hn; lia]. cbn in H. now inversion H; subst.
  - destruct pre as [|a pre]; [cbn in H; now inversion H; subst|].
    cbn [List.length] in Hn. cbn [app].
    cbn [scan_options] in H |- *.
    destruct (is_option a); cbn [negb] in H |- *; [|discriminate].
    scan_cases H;
      first [ apply IH; [cbn [List.length] in Hn; lia | exact H] ].
Qed.

Lemma scan_app pre st st1 suf :
  scan pre st = inr (st1, []) -> scan (pre ++ suf) st = scan suf st1.
Proof. apply (scan_app_bounded (List.length pre)). lia. Qed.

(** X12: options are read from left to right up to the first argument that
    is not one.  After a run of options that scans without error, scanning
    goes on with what follows from the state reached; and an argument that
    does not start with a dash ends the scan there, so that it and all
    that follows it, options or not, are left for the workload. *)
Theorem scan_options_stops_at_command
    (pre : list string) (st st1 : ParseState EventSelectionSet) :
  scan pre st = inr (st1, []) ->
  (forall suf, scan (pre ++ suf) st = scan suf st1) /\
  (forall w tail, is_option w = false ->
     scan (pre ++ w :: tail) st = inr (st1, w :: tail)).
Proof.
  intros H. split.
  - intros suf. now apply scan_app.
  - intros w tail Hw. rewrite (scan_app _ _ _ _ H).
    cbn [scan_options]. now rewrite Hw.
Qed.

(** X13: what ends the scan with an error after valid options: an option
    that takes a value and is the last argument is reported as lacking its
    argument, and an argument that starts with a dash and is none of the
    eleven options is reported as unknown. *)
Theorem scan_options_bad_option
    (pre : list string) (st st1 : ParseState EventSelectionSet) :
  scan pre st = inr (st1, []) ->
  (forall o, In o options_with_value ->
     scan (pre ++ [o]) st = inl (MissingArgument o)) /\
  (forall o tail, is_option o = true ->
     ~ In o options_with_value -> ~ In o options_without_value ->
     scan (pre ++ o :: tail) st = inl (UnknownOption o)).
Proof.
  intros H. split.
  - intros o Ho. rewrite (scan_app _ _ _ _ H).
    cbn in Ho. repeat (destruct Ho as [<-|Ho]; [reflexivity|]). contradiction.
  - intros o tail Hopt Hv Hn. rewrite (scan_app _ _ _ _ H).
    cbn [scan_options]. rewrite Hopt. cbn [negb].
    cbn [options_with_value options_without_value In] in Hv, Hn.
    repeat match goal with
    | |- context [String.eqb o ?k] =>
        destruct (String.eqb_spec o k); [exfalso; subst; tauto|]
    end.
    reflexivity.
Qed.
End ParseOptionsMore.

Lemma scan_options_stops_at_command_witness :
  (forall suf,
     sample_scan (["--csv"; "-o"; "out"] ++ suf) (initial_parse_state Sample.fresh_command)
     = sample_scan suf
         (initial_parse_state (set_output (set_csv Sample.fresh_command) "out"))) /\
  (forall w tail, is_option w = false ->
     sample_scan (["--csv"; "-o"; "out"] ++ w :: tail)
       (initial_parse_state Sample.fresh_command)
     = inr (initial_parse_state (set_output (set_csv Sample.fresh_command) "out"),
            w :: tail)).
Proof.
  apply (scan_options_stops_at_command (list string) Sample.add_event Sample.add_group
           Sample.no_cpus Sample.one_thread Sample.one_thread Sample.no_split
           Sample.one_second ["--csv"; "-o"; "out"]).
  reflexivity.
Defined.

Example scan_options_command_example :
  Sample.parse true ["--csv"; "ls"; "-a"; "--bogus"] =
    inr (set_threads (set_csv Sample.fresh_command) [], ["ls"; "-a"; "--bogus"]).
Proof. vm_compute. reflexivity. Qed.

Lemma scan_options_bad_option_witness :
  (forall o, In o options_with_value ->
     sample_scan (["--csv"; "-a"] ++ [o]) (initial_parse_state Sample.fresh_command)
     = inl (MissingArgument o)) /\
  (forall o tail, is_option o = true ->
     ~ In o options_with_value -> ~ In o options_without_value ->
     sample_scan (["--csv"; "-a"] ++ o :: tail) (initial_parse_state Sample.fresh_command)
     = inl (UnknownOption o)).
Proof.
  apply (scan_options_bad_option (list string) Sample.add_event Sample.add_group
           Sample.no_cpus Sample.one_thread Sample.one_thread Sample.no_split
           Sample.one_second ["--csv"; "-a"] _
           (initial_parse_state (set_csv (set_system_wide Sample.fresh_command)))).
  reflexivity.
Defined.

Section ParseOptionsInvariants.
Variable EventSelectionSet : Type.
Variable AddEventType : EventSelectionSet -> string -> option EventSelectionSet.
Variable AddEventGroup : EventSelectionSet -> list string -> option EventSelectionSet.
Variable GetCpusFromString : string -> list Z.
Variable GetValidThreadsFromProcessString : string -> list Z -> option (list Z).
Variable GetValidThreadsFromThreadString : string -> list Z -> option (list Z).
Variable IsRoot : bool.
Variable Split : string -> list string.
Variable strtod : string -> double * bool.

Local Abbreviation scan := (scan_options AddEventType AddEventGroup GetCpusFromString
  GetValidThreadsFromProcessString GetValidThreadsFromThreadString Split strtod).
Local Abbreviation parse := (ParseOptions AddEventType AddEventGroup GetCpusFromString
  GetValidThreadsFromProcessString GetValidThreadsFromThreadString IsRoot Split strtod).

Variable P : ParseState EventSelectionSet -> Prop.
Hypothesis P_cmd : forall st c, P st -> option_update (cmd st) c -> P (with_cmd st c).
Hypothesis P_tid_set : forall st l, P st -> P (set_tid_set st l).
Hypothesis P_duration : forall st v,
  P st -> bad_duration (strtod v) = false -> P (set_duration st (fst (strtod v))).

(** A property of the state that every option keeps holds when the scan is
    left. *)
Lemma scan_invariant_bounded (n : nat) : forall args st st' rest,
  (List.length args <= n)%nat ->
  P st -> scan args st = inr (st', rest) -> P st'.
Proof.
  induction n as [|n IH]; intros args st st' rest Hn HP H.
  - destruct args; [|cbn in Hn; lia]. cbn in H. now inversion H; subst.
  - destruct args as [|a args]; [cbn in H; now inversion H; subst|].
    cbn [List.length] in Hn. cbn [scan_options] in H.
    destruct (is_option a); cbn [negb] in H; [|now inversion H; subst].
    repeat match type of H with
    | (if ?b then _ else _) = _ => destruct b eqn:?
    | match ?l with [] => _ | _ :: _ => _ end = _ =>
        let v := fresh "v" in let r := fresh "r" in
        destruct l as [|v r]; [discriminate|]
    | match ?o with Some _ => _ | None => _ end = _ => destruct o eqn:?; [|discriminate]
    | inl _ = inr _ => discriminate
    end;
    (eapply IH; [| |exact H]; [cbn [List.length] in Hn; lia|]);
    first [ apply P_cmd; [exact HP | constructor] | apply P_tid_set; exact HP
          | apply P_duration; [exact HP | assumption] ].
Qed.

Lemma scan_invariant args st st' rest :
  P st -> scan args st = inr (st', rest) -> P st'.
Proof. apply (scan_invariant_bounded (List.length args)). lia. Qed.
End ParseOptionsInvariants.

Section ParseOptionsResult.
Variable EventSelectionSet : Type.
Variable AddEventType : EventSelectionSet -> string -> option EventSelectionSet.
Variable AddEventGroup : EventSelectionSet -> list string -> option EventSelectionSet.
Variable GetCpusFromString : string -> list Z.
Variable GetValidThreadsFromProcessString : string -> list Z -> option (list Z).
Variable GetValidThreadsFromThreadString : string -> list Z -> option (list Z).
Variable IsRoot : bool.
Variable Split : string -> list string.
Variable strtod : string -> double * bool.

Local Abbreviation scan := (scan_options AddEventType AddEventGroup GetCpusFromString
  GetValidThreadsFromProcessString GetValidThreadsFromThreadString Split strtod).
Local Abbreviation parse := (ParseOptions AddEventType AddEventGroup GetCpusFromString
  GetValidThreadsFromProcessString GetValidThreadsFromThreadString IsRoot Split strtod).


(** What a successful parse is made of. *)
Lemma ParseOptions_inversion (c c' : StatCommand EventSelectionSet) args w :
  parse c args = inr (c', w) ->
  exists st rest,
    scan args (initial_parse_state c) = inr (st, rest) /\
    resolve_target IsRoot st = inr c' /\
    workload_args (duration_in_sec st) rest = inr w.
Proof.
  unfold ParseOptions.
  destruct (scan args (initial_parse_state c)) as [e|[st rest]] eqn:Es; [discriminate|].
  destruct (resolve_target IsRoot st) as [e|c1] eqn:Et; [discriminate|].
  destruct (workload_args (duration_in_sec st) rest) as [e|w1] eqn:Ew; [discriminate|].
  intros H. inversion H; subst. exists st, rest. repeat split; assumption.
Qed.

Lemma resolve_target_success (st : ParseState EventSelectionSet) c' :
  resolve_target IsRoot st = inr c' ->
  c' = set_threads (cmd st) (monitored_threads_ (cmd st) ++ tid_set st) /\
  (system_wide_collection_ c' = true -> monitored_threads_ c' = [] /\ IsRoot = true).
Proof.
  rewrite resolve_target_cases. cbv zeta.
  destruct (system_wide_collection_ (cmd st)) eqn:Sw.
  - destruct (monitored_threads_ (cmd st) ++ tid_set st)%list eqn:T; [|discriminate].
    destruct IsRoot; [|discriminate].
    intros H. inversion H; subst. cbn. auto.
  - intros H. inversion H; subst. cbn. split; [reflexivity|].
    rewrite Sw. discriminate.
Qed.

(** X14: what a successful parse guarantees about the target: when the
    command is left system-wide there are no monitored threads and the user
    is root; and the monitored threads are those the command had followed by
    those the [-p] and [-t] options collected. *)
Theorem ParseOptions_success_target
    (c c' : StatCommand EventSelectionSet) (args w : list string) :
  parse c args = inr (c', w) ->
  (system_wide_collection_ c' = true -> monitored_threads_ c' = [] /\ IsRoot = true) /\
  exists st rest,
    scan args (initial_parse_state c) = inr (st, rest) /\
    monitored_threads_ c' = (monitored_threads_ c ++ tid_set st)%list.
Proof.
  intros H. destruct (ParseOptions_inversion _ _ _ _ H) as (st & rest & Hs & Ht & _).
  destruct (resolve_target_success _ _ Ht) as [E Hsw].
  split; [exact Hsw|]. exists st, rest. split; [exact Hs|].
  rewrite E. cbn [monitored_threads_ set_threads]. f_equal.
  pose proof (scan_invariant EventSelectionSet AddEventType AddEventGroup
    GetCpusFromString GetValidThreadsFromProcessString GetValidThreadsFromThreadString
    Split strtod
    (fun s => monitored_threads_ (cmd s) = monitored_threads_ c)) as K.
  refine (K _ _ _ args (initial_parse_state c) st rest eq_refl Hs).
  - intros s c0 Hs0 []; exact Hs0.
  - intros s l Hs0; exact Hs0.
  - intros s v Hs0 _; exact Hs0.
Qed.

End ParseOptionsResult.

Lemma ParseOptions_success_target_witness :
  (system_wide_collection_ (set_threads Sample.fresh_command [12]) = true ->
   monitored_threads_ (set_threads Sample.fresh_command [12]) = [] /\ false = true) /\
  exists st rest,
    sample_scan ["-t"; "12"; "ls"] (initial_parse_state Sample.fresh_command)
      = inr (st, rest) /\
    monitored_threads_ (set_threads Sample.fresh_command [12])
      = (monitored_threads_ Sample.fresh_command ++ tid_set st)%list.
Proof.
  apply (ParseOptions_success_target (list string) Sample.add_event Sample.add_group
           Sample.no_cpus Sample.one_thread Sample.one_thread false Sample.no_split
           Sample.one_second Sample.fresh_command _ ["-t"; "12"; "ls"] ["ls"]).
  reflexivity.
Defined.


(** ** The run as a whole *)

Section WindowOutcome.
Variables read_ok show_ok : bool.

(** The report is shown only after a successful read, and what [Run]
    returns is that both succeeded. *)
Lemma window_outcome_step (st : Window.State) (ev : Window.Event) :
  match Window.stage st with
  | Window.ShowStage => read_ok = true
  | Window.Returned b => b = read_ok && show_ok
  | _ => True
  end ->
  match Window.stage (Window.step read_ok show_ok st ev) with
  | Window.ShowStage => read_ok = true
  | Window.Returned b => b = read_ok && show_ok
  | _ => True
  end.
Proof.
  destruct st as [pc flag], ev; destruct pc, flag, read_ok, show_ok; cbn;
    intros H; try exact I; try reflexivity; try exact H; try discriminate.
Qed.

Lemma window_outcome_run (evs : list Window.Event) : forall st,
  match Window.stage st with
  | Window.ShowStage => read_ok = true
  | Window.Returned b => b = read_ok && show_ok
  | _ => True
  end ->
  match Window.stage (Window.run read_ok show_ok evs st) with
  | Window.ShowStage => read_ok = true
  | Window.Returned b => b = read_ok && show_ok
  | _ => True
  end.
Proof.
  unfold Window.run. induction evs as [|ev evs IH]; intros st H; cbn [fold_left];
    [exact H | apply IH, window_outcome_step, H].
Qed.

Lemma window_returned_stays (n : nat) (st : Window.State) (b : bool) :
  Window.stage st = Window.Returned b ->
  Window.run read_ok show_ok (repeat Window.Advance n) st = st.
Proof.
  intros H.
  assert (A : Window.advance read_ok show_ok st = st)
    by (unfold Window.advance; now rewrite H).
  unfold Window.run. induction n as [|n IH]; [reflexivity|].
  cbn [repeat fold_left Window.step]. rewrite A. exact IH.
Qed.

(** Three steps after a signal the run has returned. *)
Lemma window_signal_returns (st : Window.State) :
  match Window.stage st with
  | Window.ShowStage => read_ok = true
  | Window.Returned b => b = read_ok && show_ok
  | _ => True
  end ->
  Window.stage
    (Window.run read_ok show_ok
       [Window.Signal; Window.Advance; Window.Advance; Window.Advance] st)
  = Window.Returned (read_ok && show_ok).
Proof.
  destruct st as [pc flag]; destruct pc, flag, read_ok, show_ok; cbn;
    intros H; try reflexivity; try (rewrite H; reflexivity); discriminate.
Qed.

Lemma window_signal_needed (evs : list Window.Event) :
  Window.past_loop (Window.run read_ok show_ok evs Window.window_open) = true ->
  existsb Window.is_signal evs = true.
Proof.
  intros H. destruct (existsb Window.is_signal evs) eqn:E; [reflexivity|exfalso].
  assert (F : forallb (fun ev => negb (Window.is_signal ev)) evs = true).
  { clear H. induction evs as [|ev evs IH]; [reflexivity|].
    cbn in E |- *. apply orb_false_iff in E as [E1 E2]. now rewrite E1, IH. }
  pose proof (WindowFacts.run_without_signal read_ok show_ok evs Window.window_open F) as S.
  pose proof (WindowFacts.run_blocked read_ok show_ok evs Window.window_open
                ltac:(intros _; reflexivity) S) as B.
  unfold Window.past_loop in H. rewrite B in H. discriminate.
Qed.
End WindowOutcome.

Section RunFacts.
Variable EventSelectionSet : Type.
Variable Workload : Type.
Variable AddEventType : EventSelectionSet -> string -> option EventSelectionSet.
Variable AddEventGroup : EventSelectionSet -> list string -> option EventSelectionSet.
Variable GetCpusFromString : string -> list Z.
Variable GetValidThreadsFromProcessString : string -> list Z -> option (list Z).
Variable GetValidThreadsFromThreadString : string -> list Z -> option (list Z).
Variable IsRoot : bool.
Variable Split : string -> list string.
Variable strtod : string -> double * bool.
Variable CheckPerfEventLimit : bool.
Variable empty : EventSelectionSet -> bool.
Variable SetInherit : EventSelectionSet -> bool -> EventSelectionSet.
Variable SetEnableOnExec : EventSelectionSet -> bool -> EventSelectionSet.
Variable supported : string -> bool.
Variable CreateWorkload : list string -> option Workload.
Variable GetPid : Workload -> Z.
Variable Start : Workload -> bool.
Variable OpenEventFilesForCpus : EventSelectionSet -> list Z -> option EventSelectionSet.
Variable OpenEventFilesForThreadsOnCpus :
  EventSelectionSet -> list Z -> list Z -> option EventSelectionSet.

Local Abbreviation prepare := (Run_prepare AddEventType AddEventGroup GetCpusFromString
  GetValidThreadsFromProcessString GetValidThreadsFromThreadString IsRoot Split strtod
  CheckPerfEventLimit empty SetInherit SetEnableOnExec supported CreateWorkload GetPid
  OpenEventFilesForCpus OpenEventFilesForThreadsOnCpus).
Local Abbreviation run_command := (Run AddEventType AddEventGroup GetCpusFromString
  GetValidThreadsFromProcessString GetValidThreadsFromThreadString IsRoot Split strtod
  CheckPerfEventLimit empty SetInherit SetEnableOnExec supported CreateWorkload GetPid
  Start OpenEventFilesForCpus OpenEventFilesForThreadsOnCpus).

(** X16: the default events are added as [-e] adds events, to the ones of
    the default list the kernel supports: the loop of
    [AddDefaultMeasuredEventTypes] gives what the loop of [-e] gives on the
    supported names, in the order of the list, and the function succeeds
    exactly when that loop does and leaves a selection set that is not
    empty. *)
Theorem AddDefaultMeasuredEventTypes_supported (e e' : EventSelectionSet) :
  add_default_types AddEventType supported default_measured_event_types e =
    add_event_types AddEventType e (filter supported default_measured_event_types) /\
  (AddDefaultMeasuredEventTypes AddEventType empty supported e = inr e' <->
   add_event_types AddEventType e (filter supported default_measured_event_types)
     = Some e' /\ empty e' = false).
Proof.
  assert (K : forall names e0,
            add_default_types AddEventType supported names e0 =
            add_event_types AddEventType e0 (filter supported names)).
  { induction names as [|n names IH]; intros e0; cbn; [reflexivity|].
    destruct (supported n); cbn; [|apply IH].
    destruct (AddEventType e0 n); [apply IH|reflexivity]. }
  split; [apply K|].
  unfold AddDefaultMeasuredEventTypes. rewrite K.
  destruct (add_event_types AddEventType e _) as [e1|].
  - destruct (empty e1) eqn:E; split.
    + discriminate.
    + intros [[= ->] H]. congruence.
    + intros [= ->]. auto.
    + intros [[= ->] _]. reflexivity.
  - split; [discriminate|]. intros [H _]. discriminate.
Qed.

(** X17: the target the counters are opened for.  When the steps before
    counting succeed, either the event files are opened for every thread on
    the cpus of the command, the command is system-wide with no monitored
    thread and the user is root; or they are opened for a list of threads
    that is not empty, on a list of cpus that is not empty, and the command
    is not system-wide.  The lists are the ones the command keeps. *)
Theorem Run_prepare_target
    (c : StatCommand EventSelectionSet) (args : list string)
    (p : Prepared EventSelectionSet Workload) :
  prepare c args = inr p ->
  match prepared_target p with
  | AllThreadsOnCpus cpus =>
      IsRoot = true /\
      system_wide_collection_ (prepared_cmd p) = true /\
      monitored_threads_ (prepared_cmd p) = [] /\
      cpus = cpus_ (prepared_cmd p)
  | ThreadsOnCpus threads cpus =>
      system_wide_collection_ (prepared_cmd p) = false /\
      threads <> [] /\ cpus <> [] /\
      threads = monitored_threads_ (prepared_cmd p) /\
      cpus = cpus_ (prepared_cmd p)
  end.
Proof.
  unfold Run_prepare. destruct CheckPerfEventLimit; cbn [negb]; [|discriminate].
  destruct (ParseOptions _ _ _ _ _ _ _ _ c args) as [e|[c1 wargs]] eqn:Hp; [discriminate|].
  destruct (ParseOptions_inversion _ _ _ _ _ _ _ _ _ _ _ _ _ Hp)
    as (st & rest & _ & Ht & _).
  destruct (resolve_target_success _ _ _ _ Ht) as [_ Hsw].
  destruct (if empty (event_selection_set_ c1) then _ else _) as [e|e2]; [discriminate|].
  destruct (match wargs with [] => _ | _ :: _ => _ end) as [workload|]; [|discriminate].
  destruct (system_wide_collection_ c1) eqn:Sw; cbn [negb andb].
  - destruct (Hsw eq_refl) as [Hth Hroot].
    destruct (OpenEventFilesForCpus _ _); [|discriminate].
    intros H. inversion H; subst. cbn. rewrite Sw. auto.
  - destruct (monitored_threads_ c1) as [|t ts] eqn:Th; cbn [List.length Nat.eqb].
    + destruct workload as [w|]; [|discriminate]. cbn [app].
      destruct (OpenEventFilesForThreadsOnCpus _ _ _); [|discriminate].
      intros H. inversion H; subst. cbn. rewrite Sw.
      repeat split; try discriminate. destruct (cpus_ c1); discriminate.
    + destruct (OpenEventFilesForThreadsOnCpus _ _ _); [|discriminate].
      intros H. inversion H; subst. cbn. rewrite Sw.
      repeat split; try discriminate. destruct (cpus_ c1); discriminate.
Qed.

(** X18: what it takes for [Run] to return [true]: the steps before
    counting and the start of the workload succeeded, a termination signal
    was delivered, and both the read of the counters and the report
    succeeded. *)
Theorem Run_true_requires
    (c : StatCommand EventSelectionSet) (args : list string)
    (read_ok show_ok : bool) (evs : list Window.Event) :
  run_command c args read_ok show_ok evs = Some true ->
  read_ok = true /\ show_ok = true /\
  existsb Window.is_signal evs = true /\
  exists p, prepare c args = inr p /\
            Run_start Start p = inr p.
Proof.
  unfold Run. destruct (prepare c args) as [e|p]; [discriminate|].
  unfold Run_start at 1.
  assert (S : Run_start Start p = inr p \/ Run_start Start p = inl StartFailed).
  { unfold Run_start. destruct (prepared_workload p) as [w|]; [|now left].
    destruct (Start w); [now left|now right]. }
  fold (Run_start Start p). destruct S as [S|S]; rewrite S; [|discriminate].
  pose proof (window_outcome_run read_ok show_ok evs Window.window_open I) as O.
  pose proof (window_signal_needed read_ok show_ok evs) as N.
  unfold Window.past_loop, Window.in_loop in N.
  destruct (Window.stage (Window.run read_ok show_ok evs Window.window_open))
    as [| | | |b]; try discriminate.
  intros [= ->]. symmetry in O. apply andb_true_iff in O as [-> ->].
  repeat split; [now apply N|]. now exists p.
Qed.

(** X19: a signal is enough.  When the steps before counting and the start
    of the workload succeed, then after whatever happened in the window,
    once a signal is delivered and the control thread takes three steps or
    more, [Run] has returned, and it returns [true] exactly when the read of
    the counters and the report succeed. *)
Theorem Run_returns_after_signal
    (c : StatCommand EventSelectionSet) (args : list string)
    (p : Prepared EventSelectionSet Workload)
    (read_ok show_ok : bool) (evs : list Window.Event) (n : nat) :
  prepare c args = inr p ->
  Run_start Start p = inr p ->
  run_command c args read_ok show_ok
    (evs ++ Window.Signal :: repeat Window.Advance (3 + n))
  = Some (read_ok && show_ok).
Proof.
  intros Hp Hs. unfold Run. rewrite Hp, Hs.
  unfold Window.run. rewrite fold_left_app.
  fold (Window.run read_ok show_ok evs Window.window_open).
  set (st := Window.run read_ok show_ok evs Window.window_open).
  pose proof (window_outcome_run read_ok show_ok evs Window.window_open I) as O.
  fold st in O.
  change (Window.Signal :: repeat Window.Advance (3 + n))
    with ([Window.Signal; Window.Advance; Window.Advance; Window.Advance]
          ++ repeat Window.Advance n)%list.
  rewrite fold_left_app.
  fold (Window.run read_ok show_ok
          [Window.Signal; Window.Advance; Window.Advance; Window.Advance] st).
  pose proof (window_signal_returns read_ok show_ok st O) as R.
  set (st' := Window.run read_ok show_ok _ st) in *.
  fold (Window.run read_ok show_ok (repeat Window.Advance n) st').
  rewrite (window_returned_stays read_ok show_ok n st' _ R), R. reflexivity.
Qed.
End RunFacts.

Example sample_prepare_examples :
  sample_prepare false ["ls"] = inr sample_prepared /\
  sample_prepare false [] = inl NoThreadsToMonitor /\
  sample_prepare false ["-a"] = inl (BadOptions SystemWideNeedsRoot) /\
  (exists p, sample_prepare true ["-a"; "--cpu"; "0"] = inr p /\
             prepared_target p = AllThreadsOnCpus []) /\
  (exists p, sample_prepare false ["-t"; "7"] = inr p /\
             prepared_target p = ThreadsOnCpus [12] [-1]).
Proof. vm_compute. repeat split; eexists; split; reflexivity. Qed.

Lemma Run_prepare_target_witness :
  system_wide_collection_ (prepared_cmd sample_prepared) = false /\
  [4242] <> [] /\ [-1] <> [] /\
  [4242] = monitored_threads_ (prepared_cmd sample_prepared) /\
  [-1] = cpus_ (prepared_cmd sample_prepared).
Proof.
  apply (Run_prepare_target (list string) Z Sample.add_event Sample.add_group
           Sample.no_cpus Sample.one_thread Sample.one_thread false Sample.no_split
           Sample.one_second true sample_empty sample_set_flag sample_set_flag
           sample_supported sample_create sample_pid sample_open_cpus
           sample_open_threads Sample.fresh_command ["ls"] sample_prepared).
  reflexivity.
Defined.

Lemma Run_true_requires_witness :
  true = true /\ true = true /\
  existsb Window.is_signal
    [Window.Advance; Window.Signal; Window.Advance; Window.Advance; Window.Advance]
    = true /\
  exists p, sample_prepare false ["ls"] = inr p /\ Run_start sample_start p = inr p.
Proof.
  apply (Run_true_requires (list string) Z Sample.add_event Sample.add_group
           Sample.no_cpus Sample.one_thread Sample.one_thread false Sample.no_split
           Sample.one_second true sample_empty sample_set_flag sample_set_flag
           sample_supported sample_create sample_pid sample_start sample_open_cpus
           sample_open_threads Sample.fresh_command ["ls"] true true).
  reflexivity.
Defined.

Lemma Run_returns_after_signal_witness :
  sample_run false ["ls"] true false
    ([Window.Advance; Window.Advance]
     ++ Window.Signal :: repeat Window.Advance (3 + 2))
  = Some (true && false).
Proof.
  apply (Run_returns_after_signal (list string) Z Sample.add_event Sample.add_group
           Sample.no_cpus Sample.one_thread Sample.one_thread false Sample.no_split
           Sample.one_second true sample_empty sample_set_flag sample_set_flag
           sample_supported sample_create sample_pid sample_start sample_open_cpus
           sample_open_threads Sample.fresh_command ["ls"] sample_prepared);
    reflexivity.
Defined.

(** ** The layout of the report *)

Lemma spaces_length (n : nat) : String.length (spaces n) = n.
Proof. induction n as [|n IH]; cbn; congruence. Qed.

Lemma fold_max_ge {A} (f : A -> nat) (l : list A) : forall w x,
  In x l \/ (f x <= w)%nat ->
  (f x <= fold_left (fun w s => Nat.max w (f s)) l w)%nat.
Proof.
  induction l as [|y l IH]; intros w x H; cbn [fold_left].
  - destruct H as [[]|H]; exact H.
  - apply IH. destruct H as [[->|H]|H]; [right; lia | now left | right; lia].
Qed.

Lemma pad_right_justified_length (w : nat) (s : string) :
  (String.length s <= w)%nat -> String.length (pad_right_justified w s) = w.
Proof.
  intros H. unfold pad_right_justified. rewrite string_length_app, spaces_length. lia.
Qed.

Lemma pad_left_justified_length (w : nat) (s : string) :
  (String.length s <= w)%nat -> String.length (pad_left_justified w s) = w.
Proof.
  intros H. unfold pad_left_justified. rewrite string_length_app, spaces_length. lia.
Qed.

Lemma string_app_assoc (a b c : string) : (a ++ b) ++ c = a ++ (b ++ c).
Proof. induction a as [|x a IH]; cbn; [reflexivity | now rewrite IH]. Qed.

(** X20: the table is aligned.  In table mode the row of every summary of
    the collection consists of a head of the same length for all rows, two
    spaces, the count column, two spaces, the name column, the comment mark
    and the comment column, followed by the parenthesised percentage: no
    count, name or comment overflows its column. *)
Theorem Show_rows_aligned (cs : CounterSummaries) (s : CounterSummary) :
  csv_ cs = false ->
  In s (summaries_ cs) ->
  exists head tail,
    show_row cs s = head ++ "(" ++ tail /\
    String.length head =
      (2 + count_column_width cs + 2 + name_column_width cs + 5
       + comment_column_width cs + 2)%nat /\
    In (show_row cs s) (Show cs).
Proof.
  intros Hcsv Hin.
  exists ("  " ++ pad_right_justified (count_column_width cs) (readable_count s)
          ++ "  " ++ pad_left_justified (name_column_width cs) (Name s)
          ++ "   # " ++ pad_left_justified (comment_column_width cs) (comment s)
          ++ "  ").
  exists (percentage s ++ "%)"
          ++ (if auto_generated s then " (generated)" else "") ++ newline).
  split; [|split].
  - unfold show_row. rewrite Hcsv.
    repeat rewrite string_app_assoc. reflexivity.
  - assert (Hc : (String.length (readable_count s) <= count_column_width cs)%nat)
      by (apply (fold_max_ge (fun s => String.length (readable_count s))); now left).
    assert (Hn : (String.length (Name s) <= name_column_width cs)%nat)
      by (apply (fold_max_ge (fun s => String.length (Name s))); now left).
    assert (Hm : (String.length (comment s) <= comment_column_width cs)%nat)
      by (apply (fold_max_ge (fun s => String.length (comment s))); now left).
    rewrite !string_length_app.
    rewrite (pad_right_justified_length _ _ Hc), (pad_left_justified_length _ _ Hn),
      (pad_left_justified_length _ _ Hm).
    cbn [String.length]. lia.
  - unfold Show. now apply in_map.
Qed.

Lemma Show_rows_aligned_witness :
  exists head tail,
    show_row sample_commented sample_commented_misses = head ++ "(" ++ tail /\
    String.length head =
      (2 + count_column_width sample_commented + 2 + name_column_width sample_commented
       + 5 + comment_column_width sample_commented + 2)%nat /\
    In (show_row sample_commented sample_commented_misses) (Show sample_commented).
Proof.
  apply Show_rows_aligned; [reflexivity|]. right. left. reflexivity.
Defined.

Example Show_example :
  Show sample_commented =
  ["  1,000  branch-instructions   # 1000.000 /sec        (100%)" ++ newline;
   "     50  branch-misses         # 5.000000% miss rate  (100%)" ++ newline].
Proof. vm_compute. reflexivity. Qed.

(** ** The whole report *)

(** The summaries of the report always exist: the loop of
    [AutoGenerateSummaries] ends, and what it leaves is the rows of the
    selections followed by generated rows. *)
Lemma ShowCounters_summaries_total
    (csv : bool) (l : list CountersInfo) (duration : double) :
  exists ext,
    ShowCounters_summaries csv l duration
      = Some (GenerateComments (extend (build_summaries csv l) ext) duration) /\
    summaries_ (extend (build_summaries csv l) ext)
      = (map (summarize csv) l ++ ext)%list /\
    csv_ (GenerateComments (extend (build_summaries csv l) ext) duration) = csv.
Proof.
  destruct (fold_body_extends (summaries_ (build_summaries csv l)) (build_summaries csv l))
    as (ext & E & _).
  exists ext. unfold ShowCounters_summaries. rewrite AutoGenerate_terminates, E.
  split; [reflexivity|]. rewrite build_summaries_map. split; reflexivity.
Qed.

Lemma EndsWith_tail (a b suffix : string) :
  EndsWith b suffix = true -> EndsWith (a ++ b) suffix = true.
Proof.
  intros H. apply EndsWith_stem in H. rewrite H, <- string_app_assoc.
  apply EndsWith_app.
Qed.

Ltac ends_with := repeat first [reflexivity | apply EndsWith_tail].

Lemma show_row_csv (cs : CounterSummaries) (s : CounterSummary) :
  csv_ cs = true -> EndsWith (show_row cs s) ("," ++ newline) = true.
Proof.
  intros H. unfold show_row. rewrite H. destruct (auto_generated s); ends_with.
Qed.

Lemma verbose_row_csv (name : string) (c : CounterInfo) :
  EndsWith (verbose_row true name c) ("," ++ newline) = true.
Proof. unfold verbose_row. ends_with. Qed.

(** X21: in csv mode every line of the report is a record closed by a
    comma: the header, the verbose line of every readout, the row of every
    summary, generated or not, and the line of the test time all end with a
    comma followed by the end of line. *)
Theorem ShowCounters_csv_lines
    (verbose : bool) (output_filename : string) (fopen_ok : bool)
    (full_name : EventSelection -> string) (l : list CountersInfo)
    (duration : double) (lines : list string) :
  ShowCounters true verbose output_filename fopen_ok full_name l duration = Some lines ->
  Forall (fun line => EndsWith line ("," ++ newline) = true) lines.
Proof.
  unfold ShowCounters.
  destruct (negb (output_filename =? "")%string && negb fopen_ok); [discriminate|].
  destruct (ShowCounters_summaries_total true l duration) as (ext & -> & _ & Hcsv).
  intros H.
  assert (L : lines =
              ([report_header true]
               ++ (if verbose then verbose_rows true full_name l else [])
               ++ Show (GenerateComments (extend (build_summaries true l) ext) duration)
               ++ [report_footer true duration])%list) by congruence.
  rewrite L. clear H L.
  apply Forall_app. split; [repeat constructor|].
  apply Forall_app. split.
  - destruct verbose; [|constructor].
    unfold verbose_rows. apply Forall_forall. intros line Hin.
    apply in_flat_map in Hin. destruct Hin as (ci & _ & Hin).
    apply in_map_iff in Hin. destruct Hin as (c & <- & _).
    apply verbose_row_csv.
  - apply Forall_app. split.
    + unfold Show. apply Forall_forall. intros line Hin.
      apply in_map_iff in Hin. destruct Hin as (s & <- & _).
      now apply show_row_csv.
    + constructor; [|constructor].
      unfold report_footer. ends_with.
Qed.

Lemma ShowCounters_csv_lines_witness :
  Forall (fun line => EndsWith line ("," ++ newline) = true) sample_csv_lines.
Proof.
  apply (ShowCounters_csv_lines true "" false sample_full_name sample_readouts one).
  vm_compute. reflexivity.
Defined.



